(** * Interceptra: the patch-and-repackage pipeline

    A shallow embedding of [interceptra_core.py] (class [Interceptra]) and of
    the command-line front end [interceptra.py].  The program is a linear
    orchestration of file-system operations and external tools, so the
    embedding is a state-and-exception monad over an abstract operating
    system: every theorem of the generic part holds for every behaviour of the
    file system and of the external tools.  A small in-memory operating system
    ([Sim]) instantiates the interface for the concrete runs. *)

From Stdlib Require Import ZArith Ascii String List Lia Bool.
From stdpp Require Import base option strings list gmap.

Open Scope string_scope.
Open Scope list_scope.
Open Scope Z_scope.

(** ** Characters and strings *)

Definition sep : ascii := "/"%char.
Definition extsep : ascii := "."%char.

(** The double quote, for the literals of the program that contain one. *)
Definition dq : string := String (ascii_of_nat 34) EmptyString.

Definition is_sep (c : ascii) : bool := Ascii.eqb c sep.

Definition str_empty (s : string) : bool :=
  match s with EmptyString => true | String _ _ => false end.

(** [c in s] for a character. *)
Fixpoint str_mem (c : ascii) (s : string) : bool :=
  match s with
  | EmptyString => false
  | String d r => Ascii.eqb d c || str_mem c r
  end.

(** [s == c * len(s)]. *)
Fixpoint str_all (c : ascii) (s : string) : bool :=
  match s with
  | EmptyString => true
  | String d r => Ascii.eqb d c && str_all c r
  end.

(** [s.startswith(c)] and [s.endswith(c)] for a character. *)
Definition startswith (c : ascii) (s : string) : bool :=
  match s with String d _ => Ascii.eqb d c | EmptyString => false end.

Fixpoint endswith (c : ascii) (s : string) : bool :=
  match s with
  | EmptyString => false
  | String d EmptyString => Ascii.eqb d c
  | String _ r => endswith c r
  end.

(** [s.rstrip(c)]. *)
Fixpoint rstrip (c : ascii) (s : string) : string :=
  match s with
  | EmptyString => EmptyString
  | String d r =>
      let r' := rstrip c r in
      if Ascii.eqb d c && str_empty r' then EmptyString else String d r'
  end.

(** [(s[:i], s[i:])] for [i = s.rfind(c) + 1]. *)
Fixpoint rsplit_after (c : ascii) (s : string) : string * string :=
  match s with
  | EmptyString => (EmptyString, EmptyString)
  | String d r =>
      if str_mem c r then (String d (fst (rsplit_after c r)), snd (rsplit_after c r))
      else if Ascii.eqb d c then (String d EmptyString, r)
      else (EmptyString, String d r)
  end.

(** [(s[:i], s[i:])] for [i = s.rfind(c)], when [c] occurs in [s]. *)
Fixpoint rsplit_at (c : ascii) (s : string) : option (string * string) :=
  match s with
  | EmptyString => None
  | String d r =>
      match rsplit_at c r with
      | Some (a, b) => Some (String d a, b)
      | None => if Ascii.eqb d c then Some (EmptyString, String d r) else None
      end
  end.

(** ** [os.path] (posixpath): the pure path functions the program calls *)

Module path.

(** [posixpath.join(a, b)]. *)
Definition join (a b : string) : string :=
  if startswith sep b then b
  else if str_empty a || endswith sep a then a +:+ b
  else a +:+ String sep b.

(** [posixpath.split(p)]: head and tail around the last separator; trailing
    separators are stripped from the head unless it is made of separators. *)
Definition split (p : string) : string * string :=
  let (head, tail) := rsplit_after sep p in
  (if negb (str_empty head) && negb (str_all sep head) then rstrip sep head else head,
   tail).

Definition basename (p : string) : string := snd (rsplit_after sep p).

Definition dirname (p : string) : string := fst (split p).

(** [genericpath._splitext] on a name without separator: the extension starts
    at the last dot, unless only dots come before it. *)
Definition splitext_name (t : string) : string * string :=
  match rsplit_at extsep t with
  | Some (a, b) => if str_all extsep a then (t, EmptyString) else (a, b)
  | None => (t, EmptyString)
  end.

(** [posixpath.splitext(p)]: a dot before the last separator is no extension. *)
Definition splitext (p : string) : string * string :=
  let (head, tail) := rsplit_after sep p in
  let (root, ext) := splitext_name tail in
  (head +:+ root, ext).

Definition isabs (p : string) : bool := startswith sep p.

(** [p.split('/')]. *)
Fixpoint components (p : string) : list string :=
  match p with
  | EmptyString => [EmptyString]
  | String c r =>
      if is_sep c then EmptyString :: components r
      else match components r with
           | x :: xs => String c x :: xs
           | [] => [String c EmptyString]
           end
  end.

(** ['/'.join(comps)]. *)
Fixpoint sep_join (comps : list string) : string :=
  match comps with
  | [] => EmptyString
  | [x] => x
  | x :: xs => x +:+ String sep (sep_join xs)
  end.

(** The loop of [posixpath.normpath]; [new_comps] is kept reversed. *)
Fixpoint norm_comps (initial_slashes : bool) (comps new_comps : list string)
  : list string :=
  match comps with
  | [] => rev new_comps
  | comp :: rest =>
      if String.eqb comp EmptyString || String.eqb comp "." then
        norm_comps initial_slashes rest new_comps
      else if negb (String.eqb comp "..")
              || (negb initial_slashes && bool_decide (new_comps = []))
              || match new_comps with
                 | top :: _ => String.eqb top ".."
                 | [] => false
                 end
      then norm_comps initial_slashes rest (comp :: new_comps)
      else norm_comps initial_slashes rest (tail new_comps)
  end.

(** The number of leading separators that [normpath] keeps: two when the
    path starts with exactly two, one when it starts with any other number. *)
Definition initial_slashes (p : string) : nat :=
  match p with
  | String a (String b (String c _)) =>
      if is_sep a then (if is_sep b && negb (is_sep c) then 2 else 1)%nat else 0%nat
  | String a (String b EmptyString) =>
      if is_sep a then (if is_sep b then 2 else 1)%nat else 0%nat
  | String a EmptyString => if is_sep a then 1%nat else 0%nat
  | EmptyString => 0%nat
  end.

Fixpoint str_repeat (c : ascii) (n : nat) : string :=
  match n with O => EmptyString | S k => String c (str_repeat c k) end.

Definition normpath (p : string) : string :=
  if str_empty p then "."
  else
    let n := initial_slashes p in
    let body := sep_join (norm_comps (negb (Nat.eqb n 0)) (components p) []) in
    let r := str_repeat sep n +:+ body in
    if str_empty r then "." else r.

(** [posixpath.abspath(p)] given the current directory. *)
Definition abspath (cwd p : string) : string :=
  normpath (if isabs p then p else join cwd p).

End path.

(** ** White space and digits

    [is_space] is the white space of [str.strip] among the ASCII characters,
    [is_c_space] the narrower white space of the C locale, which is what
    [int] skips around a number written in ASCII. *)

Definition is_space (c : ascii) : bool :=
  let n := nat_of_ascii c in
  (Nat.eqb n 32 || (Nat.leb 9 n && Nat.leb n 13) || (Nat.leb 28 n && Nat.leb n 31)).

Definition is_c_space (c : ascii) : bool :=
  let n := nat_of_ascii c in
  Nat.eqb n 32 || (Nat.leb 9 n && Nat.leb n 13).

Definition digit_of (c : ascii) : option Z :=
  let n := nat_of_ascii c in
  if Nat.leb 48 n && Nat.leb n 57 then Some (Z.of_nat n - 48) else None.

Fixpoint lstrip_space (s : string) : string :=
  match s with
  | String c r => if is_space c then lstrip_space r else s
  | EmptyString => EmptyString
  end.

Fixpoint rstrip_space (s : string) : string :=
  match s with
  | EmptyString => EmptyString
  | String d r =>
      let r' := rstrip_space r in
      if is_space d && str_empty r' then EmptyString else String d r'
  end.

Fixpoint int_digits (s : string) (acc : Z) (after_digit : bool) : option Z :=
  match s with
  | EmptyString => if after_digit then Some acc else None
  | String c r =>
      match digit_of c with
      | Some d => int_digits r (10 * acc + d) true
      | None =>
          if Ascii.eqb c "_"%char && after_digit then int_digits r acc false
          else None
      end
  end.

Definition strip (s : string) : string := rstrip_space (lstrip_space s).

(** ** Python's [int(str)] in base 10

    What [int] makes of a text depends on the interpreter: on its tables of
    Unicode digits and white space, and on its limit on the number of digits,
    which the environment can change.  The program is therefore modelled
    over any such function, the field [builtins_int] of the environment
    below.  [py_int] is the function of CPython with the limit it starts
    with, on texts of ASCII characters: white space of the C locale around
    the number is dropped, one sign is allowed, single underscores may
    separate digits, and a number of more than 4300 digits is refused.  A
    text with any other character is refused, also where CPython would read
    it as a Unicode digit or space.  The in-memory environment uses it. *)

Fixpoint lskip (s : string) : string :=
  match s with
  | String c r => if is_c_space c then lskip r else s
  | EmptyString => EmptyString
  end.

Fixpoint rskip (s : string) : string :=
  match s with
  | EmptyString => EmptyString
  | String d r =>
      let r' := rskip r in
      if is_c_space d && str_empty r' then EmptyString else String d r'
  end.

Fixpoint count_digits (s : string) : nat :=
  match s with
  | EmptyString => 0
  | String c r => (if bool_decide (is_Some (digit_of c)) then 1 else 0) + count_digits r
  end.

Definition int_max_str_digits : nat := 4300.

Definition py_int (s : string) : option Z :=
  let t := rskip (lskip s) in
  if Nat.ltb int_max_str_digits (count_digits t) then None
  else match t with
       | String "-"%char r => Z.opp <$> int_digits r 0 false
       | String "+"%char r => int_digits r 0 false
       | _ => int_digits t 0 false
       end.

(** [sep.join(xs)] for strings. *)
Fixpoint str_join (s : string) (xs : list string) : string :=
  match xs with
  | [] => EmptyString
  | [x] => x
  | x :: r => x +:+ s +:+ str_join s r
  end.

(** ** Python dictionaries with string keys, in insertion order

    The values are strings, as in the built-in tool table.  A table read
    from JSON can hold any JSON value; such tables, and the [TypeError] that
    [os.path.isabs] then raises in [_check_dependencies], are outside of
    this model. *)

Definition dict := list (string * string).

Fixpoint dict_get (k : string) (d : dict) : option string :=
  match d with
  | [] => None
  | (k', v) :: r => if String.eqb k' k then Some v else dict_get k r
  end.

(** [d[k] = v]: an existing key keeps its place, a new one goes last. *)
Fixpoint dict_set (k v : string) (d : dict) : dict :=
  match d with
  | [] => [(k, v)]
  | (k', v') :: r =>
      if String.eqb k' k then (k', v) :: r else (k', v') :: dict_set k v r
  end.

(** [d.update(other)]. *)
Definition dict_update (d other : dict) : dict :=
  fold_left (fun acc kv => dict_set (fst kv) (snd kv) acc) other d.

(** [d[k]] for a key that is present (the program only indexes the tool
    table with its six built-in keys, which [update] never removes). *)
Definition dict_item (d : dict) (k : string) : string :=
  default EmptyString (dict_get k d).

(** ** Exceptions, console lines, XML trees *)

(** The exceptions the program raises or receives; all of them are
    subclasses of Python's [Exception]. *)
Inductive exn : Type :=
| CommandError (returncode : Z) (stdout stderr : string)
| CalledProcessError (returncode : Z)
| FileNotFoundError (msg : string)
| OSError (msg : string)
| ValueError (msg : string)
| TypeError (msg : string)
| ParseError (msg : string)
| JSONDecodeError (msg : string).

(** [isinstance(e, (subprocess.SubprocessError, FileNotFoundError))]. *)
Definition is_missing_tool_error (e : exn) : bool :=
  match e with
  | CalledProcessError _ | FileNotFoundError _ => true
  | _ => false
  end.

(** The pieces of an f-string: literal text, an integer, a byte count shown
    in megabytes with two decimals, and [str(e)]. *)
Inductive frag : Type :=
| Txt (s : string)
| Int (n : Z)
| MB (bytes : Z)
| Str (e : exn).

Definition line := list frag.

(** An [xml.etree.ElementTree.Element]: tag, attribute dictionary, children. *)
#[warnings="-register-all"]
Inductive element : Type :=
| Element (tag : string) (attrib : gmap string string) (children : list element).

Definition tag_of (e : element) : string :=
  match e with Element t _ _ => t end.
Definition attrib_of (e : element) : gmap string string :=
  match e with Element _ a _ => a end.
Definition children_of (e : element) : list element :=
  match e with Element _ _ c => c end.

(** [e.set(key, value)]. *)
Definition element_set (key value : string) (e : element) : element :=
  match e with Element t a c => Element t (<[key := value]> a) c end.

(** [root.find(tag)]: the first direct child with that tag. *)
Definition element_find (tag : string) (root : element) : option element :=
  List.find (fun c => String.eqb (tag_of c) tag) (children_of root).

(** The tree after [root.find(tag).set(key, value)]: the element found is
    updated in place. *)
Fixpoint set_first (tag key value : string) (cs : list element) : list element :=
  match cs with
  | [] => []
  | c :: r =>
      if String.eqb (tag_of c) tag then element_set key value c :: r
      else c :: set_first tag key value r
  end.

Definition set_on_child (tag key value : string) (root : element) : element :=
  match root with
  | Element t a cs => Element t a (set_first tag key value cs)
  end.

(** What the program writes to a file: text, or an XML declaration followed
    by the serialization of a tree. *)
Inductive content : Type :=
| Text (s : string)
| Document (prolog : string) (root : element).

(** [os.stat_result], as far as the program reads it. *)
Inductive file_kind : Type := Regular | Directory.

Record stat_result : Type := { st_kind : file_kind; st_size : Z }.

(** What a finished child process leaves: exit status and captured output. *)
Record completed : Type := { returncode : Z; stdout : string; stderr : string }.

(** ** The environment

    The calls the program makes to the file system, to the XML and JSON
    libraries reading files, to external programs, and to the conversion of
    a text into an integer.  A call either returns or raises; the ones that
    change the world return the new world.  [builtins_int] is [int(str)],
    [None] where it raises [ValueError].  [sys_run] is a child process from
    its start to its end; see [subprocess_Popen]. *)

Class OS (world : Type) : Type := {
  sys_stat : string -> world -> exn + stat_result;
  sys_getcwd : world -> exn + string;
  sys_expanduser : string -> world -> string;
  sys_rmtree : string -> world -> option exn * world;
  sys_remove : string -> world -> option exn * world;
  sys_makedirs : string -> world -> option exn * world;
  sys_write : string -> content -> world -> option exn * world;
  sys_parse_xml : string -> world -> exn + element;
  sys_load_json : string -> world -> exn + dict;
  sys_loads_json : string -> exn + dict;
  sys_run : list string -> world -> (exn + completed) * world;
  builtins_int : string -> option Z
}.

(** [os.path.exists], [os.path.isfile] and [os.path.getsize] are [os.stat]
    underneath: the first two turn its error into [False]. *)
Definition path_exists `{OS world} (p : string) (w : world) : bool :=
  match sys_stat p w with inr _ => true | inl _ => false end.

Definition path_isfile `{OS world} (p : string) (w : world) : bool :=
  match sys_stat p w with
  | inr st => match st_kind st with Regular => true | Directory => false end
  | inl _ => false
  end.

(** [q] is [p] or lies below the directory [p]. *)
Definition inside (p q : string) : bool :=
  String.eqb p q
  || String.prefix (if endswith sep p then p else p +:+ String sep EmptyString) q.

(** What a POSIX file system guarantees about removal: a removal that returns
    leaves nothing at the path, and a removal, finished or not, changes
    nothing outside of its target. *)
Class OSLaws {world : Type} (O : OS world) : Prop := {
  rmtree_gone p w w' :
    sys_rmtree p w = (None, w') -> path_exists p w' = false;
  remove_gone p w w' :
    sys_remove p w = (None, w') -> path_exists p w' = false;
  rmtree_frame p q w :
    inside p q = false -> sys_stat q (snd (sys_rmtree p w)) = sys_stat q w;
  remove_frame p q w :
    p <> q -> sys_stat q (snd (sys_remove p w)) = sys_stat q w
}.

(** ** The monad: state, exceptions and a trace of what was done *)

Inductive outcome (A : Type) : Type :=
| Return (a : A)
| Raise (e : exn).
Arguments Return {A} a.
Arguments Raise {A} e.

(** One entry per call to the operating system and per line printed.  A
    command records the world it was started in and the world it left. *)
Inductive event (world : Type) : Type :=
| Console (l : line)
| Stat (p : string)
| Getcwd
| ParseXml (p : string)
| LoadJson (p : string)
| Rmtree (p : string) (r : option exn)
| Remove (p : string) (r : option exn)
| Makedirs (p : string) (r : option exn)
| WriteFile (p : string) (c : content) (r : option exn)
| Run (command : list string) (before : world) (r : exn + completed) (after : world).
Arguments Console {world} l.
Arguments Stat {world} p.
Arguments Getcwd {world}.
Arguments ParseXml {world} p.
Arguments LoadJson {world} p.
Arguments Rmtree {world} p r.
Arguments Remove {world} p r.
Arguments Makedirs {world} p r.
Arguments WriteFile {world} p c r.
Arguments Run {world} command before r after.

Definition M (world S A : Type) : Type := S -> outcome A * S * list (event world).

Section Monad.
Context {world S : Type}.

Definition ret {A} (a : A) : M world S A := fun s => (Return a, s, []).

Definition raise {A} (e : exn) : M world S A := fun s => (Raise e, s, []).

Definition bind {A B} (m : M world S A) (k : A -> M world S B) : M world S B :=
  fun s =>
    match m s with
    | (Return a, s1, t1) =>
        match k a s1 with (r, s2, t2) => (r, s2, t1 ++ t2) end
    | (Raise e, s1, t1) => (Raise e, s1, t1)
    end.

(** [try: m  except Exception as e: h e]. *)
Definition try_except {A} (m : M world S A) (h : exn -> M world S A) : M world S A :=
  fun s =>
    match m s with
    | (Return a, s1, t1) => (Return a, s1, t1)
    | (Raise e, s1, t1) =>
        match h e s1 with (r, s2, t2) => (r, s2, t1 ++ t2) end
    end.

Definition print (l : line) : M world S unit := fun s => (Return tt, s, [Console l]).

Definition when (b : bool) (m : M world S unit) : M world S unit :=
  if b then m else ret tt.

End Monad.

Notation "x <- m ;; k" := (bind m (fun x => k))
  (at level 100, m at next level, right associativity).
Notation "m ;; k" := (bind m (fun _ => k))
  (at level 100, right associativity).

(** A state that holds the world: the world itself for module-level
    functions, the object and the world for methods. *)
Class HasWorld (world S : Type) : Type := {
  world_of : S -> world;
  with_world : world -> S -> S
}.

#[export] Instance world_has_world world : HasWorld world world :=
  {| world_of w := w; with_world w _ := w |}.

#[export] Instance pair_has_world world T : HasWorld world (T * world) :=
  {| world_of s := snd s; with_world w s := (fst s, w) |}.

Definition of_option (r : option exn) : outcome unit :=
  match r with None => Return tt | Some e => Raise e end.

Definition of_sum {A} (r : exn + A) : outcome A :=
  match r with inr a => Return a | inl e => Raise e end.

(** ** The library calls of the program, in the monad *)

Section Calls.
Context {world S : Type} {O : OS world} {L : HasWorld world S}.

Definition os_path_exists (p : string) : M world S bool :=
  fun s => (Return (path_exists p (world_of s)), s, [Stat p]).

Definition os_path_isfile (p : string) : M world S bool :=
  fun s => (Return (path_isfile p (world_of s)), s, [Stat p]).

Definition os_path_getsize (p : string) : M world S Z :=
  fun s =>
    (match sys_stat p (world_of s) with
     | inr st => Return (st_size st)
     | inl e => Raise e
     end, s, [Stat p]).

Definition os_path_expanduser (p : string) : M world S string :=
  fun s => (Return (sys_expanduser p (world_of s)), s, []).

Definition os_getcwd : M world S string :=
  fun s => (of_sum (sys_getcwd (world_of s)), s, [Getcwd]).

(** [os.path.abspath]: the current directory is read for a relative path only. *)
Definition os_path_abspath (p : string) : M world S string :=
  if path.isabs p then ret (path.normpath p)
  else cwd <- os_getcwd;; ret (path.normpath (path.join cwd p)).

Definition shutil_rmtree (p : string) : M world S unit :=
  fun s =>
    let (r, w) := sys_rmtree p (world_of s) in
    (of_option r, with_world w s, [Rmtree p r]).

Definition os_remove (p : string) : M world S unit :=
  fun s =>
    let (r, w) := sys_remove p (world_of s) in
    (of_option r, with_world w s, [Remove p r]).

(** [os.makedirs(p, exist_ok=True)]. *)
Definition os_makedirs (p : string) : M world S unit :=
  fun s =>
    let (r, w) := sys_makedirs p (world_of s) in
    (of_option r, with_world w s, [Makedirs p r]).

(** [with open(p, mode) as f: f.write(...)]. *)
Definition write_file (p : string) (c : content) : M world S unit :=
  fun s =>
    let (r, w) := sys_write p c (world_of s) in
    (of_option r, with_world w s, [WriteFile p c r]).

(** [ElementTree.parse(p).getroot()]. *)
Definition ElementTree_parse (p : string) : M world S element :=
  fun s => (of_sum (sys_parse_xml p (world_of s)), s, [ParseXml p]).

(** [with open(p, 'r') as f: json.load(f)]. *)
Definition json_load (p : string) : M world S dict :=
  fun s => (of_sum (sys_load_json p (world_of s)), s, [LoadJson p]).

Definition json_loads (text : string) : M world S dict :=
  fun s => (of_sum (sys_loads_json text), s, []).

(** Start a child process and collect its result: [subprocess.Popen], the
    loop around [poll] and [readline], and [communicate] (lines 118 to 157),
    taken as one step from the start of the child to its end.  Raises when
    the program cannot be started.  The step always ends: a child that never
    ends, and the loop waiting in [readline] on one pipe while the child
    waits for room in the other, are not modelled.  What is proved of a
    command is proved of a command that has ended. *)
Definition subprocess_Popen (command : list string) : M world S completed :=
  fun s =>
    let (r, w) := sys_run command (world_of s) in
    (of_sum r, with_world w s, [Run command (world_of s) r w]).

(** [subprocess.run(command, check=True, capture_output=True)]. *)
Definition subprocess_run_check (command : list string) : M world S completed :=
  p <- subprocess_Popen command;;
  if Z.eqb (returncode p) 0 then ret p else raise (CalledProcessError (returncode p)).

End Calls.

(** [try: m  except classes as e: h e], for a tuple of exception classes. *)
Definition try_except_of {world S A} (classes : exn -> bool)
    (m : M world S A) (h : exn -> M world S A) : M world S A :=
  fun s =>
    match m s with
    | (Return a, s1, t1) => (Return a, s1, t1)
    | (Raise e, s1, t1) =>
        if classes e then match h e s1 with (r, s2, t2) => (r, s2, t1 ++ t2) end
        else (Raise e, s1, t1)
    end.

(** ** [interceptra_core.py]: class [Interceptra] *)

Definition DEFAULT_KEYSTORE : string := "debug.keystore".
Definition DEFAULT_KEYPASS : string := "android".
Definition DEFAULT_STOREPASS : string := "android".
Definition DEFAULT_SIGALG : string := "SHA1withRSA".
Definition DEFAULT_DIGESTALG : string := "SHA1".
Definition DEFAULT_ALIAS : string := "androiddebugkey".
Definition DEFAULT_APKTOOL_JAR : string := "apktool_2.11.0.jar".

(** The attributes of an instance.  [compile_sdk] is the only one assigned
    after the constructor. *)
Record Interceptra : Type := {
  verbose : bool;
  tool_paths : dict;
  KEYSTORE : string;
  KEYPASS : string;
  STOREPASS : string;
  SIGALG : string;
  DIGESTALG : string;
  ALIAS : string;
  APKTOOL_JAR : string;
  keep_files : bool;
  apk : string;
  file_name : string;
  output_dir : string;
  patched_apk : string;
  zipaligned_apk : string;
  extraction_dir : string;
  compile_sdk : option Z
}.

(** [self.compile_sdk = v]. *)
Definition assign_compile_sdk (v : Z) (self : Interceptra) : Interceptra :=
  {| verbose := verbose self; tool_paths := tool_paths self;
     KEYSTORE := KEYSTORE self; KEYPASS := KEYPASS self;
     STOREPASS := STOREPASS self; SIGALG := SIGALG self;
     DIGESTALG := DIGESTALG self; ALIAS := ALIAS self;
     APKTOOL_JAR := APKTOOL_JAR self; keep_files := keep_files self;
     apk := apk self; file_name := file_name self;
     output_dir := output_dir self; patched_apk := patched_apk self;
     zipaligned_apk := zipaligned_apk self;
     extraction_dir := extraction_dir self; compile_sdk := Some v |}.

Definition default_tool_paths : dict :=
  [("apktool", DEFAULT_APKTOOL_JAR); ("keystore", DEFAULT_KEYSTORE);
   ("java", "java"); ("zipalign", "zipalign"); ("jarsigner", "jarsigner");
   ("apksigner", "apksigner")].

Definition nl : string := String (ascii_of_nat 10) EmptyString.
Definition backspace : string := String (ascii_of_nat 8) EmptyString.

(** The trust configuration written into the bundle. *)
Definition network_file : string :=
  "<?xml version=" +:+ dq +:+ "1.0" +:+ dq +:+ " encoding=" +:+ dq +:+ "utf-8"
    +:+ dq +:+ "?>" +:+ nl +:+
  "<network-security-config>" +:+ nl +:+
  "    <base-config>" +:+ nl +:+
  "        <trust-anchors>" +:+ nl +:+
  "            <certificates src=" +:+ dq +:+ "system" +:+ dq +:+ " />" +:+ nl +:+
  "            <certificates src=" +:+ dq +:+ "user" +:+ dq +:+ " />" +:+ nl +:+
  "        </trust-anchors>" +:+ nl +:+
  "    </base-config>" +:+ nl +:+
  "    <debug-overrides>" +:+ nl +:+
  "        <trust-anchors>" +:+ nl +:+
  "            <certificates src=" +:+ dq +:+ "user" +:+ dq +:+ " />" +:+ nl +:+
  "        </trust-anchors>" +:+ nl +:+
  "    </debug-overrides>" +:+ nl +:+
  "</network-security-config>".

Definition manifest_prolog : string :=
  "<?xml version=" +:+ dq +:+ "1.0" +:+ dq +:+ " encoding=" +:+ dq +:+ "utf-8"
    +:+ dq +:+ " standalone=" +:+ dq +:+ "no" +:+ dq +:+ "?>".

Definition android_ns : string := "{http://schemas.android.com/apk/res/android}".

(** What [_run_command] returns: a [CommandResult], or the exception itself
    when the caller did not require success. *)
Inductive run_result : Type :=
| CommandResult (returncode : Z) (stdout stderr : string)
| Caught (e : exn).

Section Class_Interceptra.
Context {world : Type} {O : OS world}.

(** A method runs on the object and the world. *)
Definition method (A : Type) : Type := M world (Interceptra * world) A.

Definition this : method Interceptra := fun s => (Return (fst s), s, []).

Definition set_compile_sdk (v : Z) : method unit :=
  fun s => (Return tt, (assign_compile_sdk v (fst s), snd s), []).

(** The loop of [_check_dependencies] over [self.tool_paths.items()]. *)
Fixpoint check_tools (items : dict) (missing_tools : list string)
  : method (list string) :=
  match items with
  | [] => ret missing_tools
  | (tool, path) :: rest =>
      if String.eqb tool "apktool" || String.eqb tool "keystore" then
        check_tools rest missing_tools
      else
        missing_tools <-
          try_except_of is_missing_tool_error
            (if path.isabs path then
               found <- os_path_exists path;;
               if negb found then ret (missing_tools ++ [tool +:+ " at " +:+ path])
               else ret missing_tools
             else
               subprocess_run_check ["which"; path];;
               ret missing_tools)
            (fun _ => ret (missing_tools ++ [tool]));;
        check_tools rest missing_tools
  end.

Fixpoint print_tool_paths (items : dict) : method unit :=
  match items with
  | [] => ret tt
  | (tool, path) :: rest =>
      print [Txt "    "; Txt tool; Txt ": "; Txt path];;
      print_tool_paths rest
  end.

Definition _check_dependencies : method unit :=
  self <- this;;
  found <- os_path_exists (APKTOOL_JAR self);;
  when (negb found)
    (print [Txt "[!] Warning: "; Txt (APKTOOL_JAR self);
            Txt " not found in current directory"]);;
  found <- os_path_exists (KEYSTORE self);;
  when (negb found)
    (print [Txt "[!] Warning: "; Txt (KEYSTORE self);
            Txt " not found in current directory"]);;
  missing_tools <- check_tools (tool_paths self) [];;
  when (negb (bool_decide (missing_tools = [])))
    (print [Txt "[!] Warning: The following tools were not found: ";
            Txt (str_join ", " missing_tools)];;
     print [Txt "    You can specify custom tool paths using the --tools argument"]);;
  when (verbose self)
    (print [Txt "[*] Tool paths:"];;
     print_tool_paths (tool_paths self)).

(** Run [m] as a method of [self]; the object comes back with the result. *)
Definition call {A} (self : Interceptra) (m : method A)
  : M world world (A * Interceptra) :=
  fun w =>
    match m (self, w) with
    | (Return a, (self', w'), t) => (Return (a, self'), w', t)
    | (Raise e, (_, w'), t) => (Raise e, w', t)
    end.

(** [Interceptra(apk, verbose, tool_paths, keep_files)]. *)
Definition __init__ (apk0 : string) (verbose0 : bool) (tool_paths0 : option dict)
    (keep_files0 : bool) : M world world Interceptra :=
  let tools :=
    match tool_paths0 with
    | Some (kv :: more) => dict_update default_tool_paths (kv :: more)
    | _ => default_tool_paths
    end in
  expanded <- os_path_expanduser apk0;;
  apk1 <- os_path_abspath expanded;;
  let name := fst (path.splitext (path.basename apk1)) in
  let dir := path.dirname apk1 in
  let self :=
    {| verbose := verbose0; tool_paths := tools;
       KEYSTORE := dict_item tools "keystore"; KEYPASS := DEFAULT_KEYPASS;
       STOREPASS := DEFAULT_STOREPASS; SIGALG := DEFAULT_SIGALG;
       DIGESTALG := DEFAULT_DIGESTALG; ALIAS := DEFAULT_ALIAS;
       APKTOOL_JAR := dict_item tools "apktool"; keep_files := keep_files0;
       apk := apk1; file_name := name; output_dir := dir;
       patched_apk := path.join dir (name +:+ "_patched.apk");
       zipaligned_apk := path.join dir (name +:+ "_patched_zipaligned.apk");
       extraction_dir := path.join (path.dirname apk1) name;
       compile_sdk := None |} in
  r <- call self _check_dependencies;;
  ret (snd r).

(** [_run_command(command, description, check)].  The spinner and the
    verbose echo of the child's output, which decorate the console while the
    child runs, are left out. *)
Definition _run_command (command : list string) (description : line)
    (check : bool) : method run_result :=
  self <- this;;
  print (Txt "[+] " :: description);;
  when (verbose self) (print [Txt "    Command: "; Txt (str_join " " command)]);;
  print [Txt "    "];;
  try_except
    (process <- subprocess_Popen command;;
     print [Txt (backspace +:+ "Done")];;
     if check && negb (Z.eqb (returncode process) 0) then
       print [Txt "[!] "; Txt "Command failed with return code ";
              Int (returncode process)];;
       when (negb (str_empty (stderr process)))
         (print [Txt "    Error output: "; Txt (strip (stderr process))]);;
       raise (CommandError (returncode process) (stdout process) (stderr process))
     else
       ret (CommandResult (returncode process) (stdout process) (stderr process)))
    (fun e =>
       print [Txt (backspace +:+ "Failed")];;
       print [Txt "[!] Error executing command: "; Str e];;
       if check then raise e else ret (Caught e)).

(** The argument vectors of the five external tools. *)
Definition unpack_command (self : Interceptra) : list string :=
  [dict_item (tool_paths self) "java"; "-jar"; APKTOOL_JAR self;
   "-f"; "d"; apk self; "-o"; extraction_dir self].

Definition repack_command (self : Interceptra) : list string :=
  [dict_item (tool_paths self) "java"; "-jar"; APKTOOL_JAR self;
   "-f"; "b"; extraction_dir self; "-o"; patched_apk self; "--use-aapt2"].

Definition jarsign_command (self : Interceptra) : list string :=
  [dict_item (tool_paths self) "jarsigner"; "-verbose";
   "-keystore"; KEYSTORE self; "-keypass"; KEYPASS self;
   "-storepass"; STOREPASS self; "-sigalg"; SIGALG self;
   "-digestalg"; DIGESTALG self; patched_apk self; ALIAS self].

Definition apksign_command (self : Interceptra) : list string :=
  [dict_item (tool_paths self) "apksigner"; "sign"; "--ks"; KEYSTORE self;
   "--ks-key-alias"; ALIAS self; "--ks-pass"; "pass:" +:+ STOREPASS self;
   zipaligned_apk self].

Definition zipalign_command (self : Interceptra) : list string :=
  [dict_item (tool_paths self) "zipalign"; "-p"; "-f"; "4";
   patched_apk self; zipaligned_apk self].

Definition _cleanup_files : method unit :=
  self <- this;;
  print [Txt "[+] Cleaning up temporary files..."];;
  found <- os_path_exists (extraction_dir self);;
  when found
    (print [Txt "    Removing extraction directory: "; Txt (extraction_dir self)];;
     try_except
       (shutil_rmtree (extraction_dir self))
       (fun e => print [Txt "    Warning: Could not remove directory: "; Str e]));;
  found <- os_path_exists (patched_apk self);;
  when (found && negb (String.eqb (patched_apk self) (zipaligned_apk self)))
    (print [Txt "    Removing intermediate APK: "; Txt (patched_apk self)];;
     try_except
       (os_remove (patched_apk self))
       (fun e => print [Txt "    Warning: Could not remove file: "; Str e])).

Definition _decompile_apk : method unit :=
  self <- this;;
  found <- os_path_exists (extraction_dir self);;
  when found
    (when (verbose self)
       (print [Txt "[*] Removing existing directory: "; Txt (extraction_dir self)]);;
     shutil_rmtree (extraction_dir self));;
  size <- os_path_getsize (apk self);;
  _run_command (unpack_command self)
    [Txt "STEP 1/5: Decompiling APK ("; MB size; Txt " MB)"] true;;
  ret tt.

Definition _add_network_file : method unit :=
  self <- this;;
  let path := path.join (extraction_dir self) "res/xml" in
  os_makedirs path;;
  let file_path := path.join path "network_security_config.xml" in
  print [Txt "[+] STEP 2/5: Creating network security config at "; Txt file_path];;
  write_file file_path (Text network_file).

Definition _add_network_attribute_to_manifest : method unit :=
  self <- this;;
  let xml_path := path.join (extraction_dir self) "AndroidManifest.xml" in
  found <- os_path_isfile xml_path;;
  if negb found then
    print [Txt "[!] Error: AndroidManifest.xml not found at "; Txt xml_path];;
    raise (FileNotFoundError ("AndroidManifest.xml not found at " +:+ xml_path))
  else
    try_except
      (root <- ElementTree_parse xml_path;;
       match element_find "application" root with
       | None =>
           print [Txt "[!] Error: application element not found in AndroidManifest.xml"];;
           raise (ValueError "application element not found in AndroidManifest.xml")
       | Some _ =>
           let root :=
             set_on_child "application" (android_ns +:+ "networkSecurityConfig")
               "@xml/network_security_config" root in
           write_file xml_path (Document manifest_prolog root);;
           print [Txt "[+] STEP 2/5: Updated AndroidManifest.xml with network security config attribute"]
       end)
      (fun e =>
         print [Txt "[!] Error modifying AndroidManifest.xml: "; Str e];;
         raise e).

Definition _check_compile_sdk_version : method unit :=
  self <- this;;
  let xml_path := path.join (extraction_dir self) "AndroidManifest.xml" in
  try_except
    (root <- ElementTree_parse xml_path;;
     let compile_sdk_attr := android_ns +:+ "compileSdkVersion" in
     match attrib_of root !! compile_sdk_attr with
     | Some value =>
         match builtins_int value with
         | Some v =>
             set_compile_sdk v;;
             print [Txt "[+] STEP 3/5: Detected Android SDK version: "; Int v]
         | None =>
             raise (ValueError ("invalid literal for int() with base 10: " +:+ value))
         end
     | None =>
         set_compile_sdk 30;;
         print [Txt "[!] STEP 3/5: compileSdkVersion not found in manifest, defaulting to ";
                Int 30]
     end)
    (fun e =>
       print [Txt "[!] Error checking SDK version: "; Str e];;
       set_compile_sdk 30;;
       print [Txt "[!] Defaulting to SDK version "; Int 30]).

Definition _repackage_apk : method unit :=
  self <- this;;
  _run_command (repack_command self)
    [Txt "STEP 4/5: Repackaging APK to "; Txt (path.basename (patched_apk self))] true;;
  found <- os_path_exists (patched_apk self);;
  if negb found then
    raise (FileNotFoundError ("Failed to create patched APK: " +:+ patched_apk self))
  else ret tt.

Definition _jarsign_apk : method unit :=
  self <- this;;
  apk_size <- os_path_getsize (patched_apk self);;
  _run_command (jarsign_command self)
    [Txt "STEP 5/5: Signing APK with jarsigner ("; MB apk_size; Txt " MB)"] true;;
  ret tt.

Definition _apksign_apk : method unit :=
  self <- this;;
  apk_size <- os_path_getsize (zipaligned_apk self);;
  _run_command (apksign_command self)
    [Txt "STEP 5/5: Signing APK with apksigner ("; MB apk_size; Txt " MB)"] true;;
  ret tt.

Definition _zipalign_apk : method unit :=
  self <- this;;
  os_makedirs (path.dirname (zipaligned_apk self));;
  apk_size <- os_path_getsize (patched_apk self);;
  _run_command (zipalign_command self)
    [Txt "STEP 5/5: Aligning APK for performance ("; MB apk_size; Txt " MB)"] true;;
  found <- os_path_exists (zipaligned_apk self);;
  if negb found then
    raise (FileNotFoundError ("Failed to create aligned APK: " +:+ zipaligned_apk self))
  else ret tt.

(** The first part of the [try] block of [cut()]: the five stages, up to
    the choice of [final_apk]. *)
Definition cut_stages : method string :=
  self <- this;;
  print [Txt "[+] Starting Interceptra on: "; Txt (path.basename (apk self))];;
  size <- os_path_getsize (apk self);;
  print [Txt "[+] Original APK size: "; MB size; Txt " MB"];;
  _decompile_apk;;
  _add_network_file;;
  _add_network_attribute_to_manifest;;
  _check_compile_sdk_version;;
  _repackage_apk;;
  self <- this;;
  match compile_sdk self with
  | Some v =>
      if 30 <=? v then
        _zipalign_apk;; _apksign_apk;; ret (zipaligned_apk self)
      else
        _jarsign_apk;; _zipalign_apk;; ret (zipaligned_apk self)
  | None =>
      raise (TypeError "'>=' not supported between instances of 'NoneType' and 'int'")
  end.

(** The rest of the [try] block: the final artifact is verified, the
    intermediate files are removed unless they are to be kept. *)
Definition cut_verify (final_apk : string) : method bool :=
  self <- this;;
  found <- os_path_exists final_apk;;
  if found then
    when (negb (keep_files self)) _cleanup_files;;
    final_size <- os_path_getsize final_apk;;
    print [Txt "[+] Interceptra completed successfully: "; Txt final_apk];;
    print [Txt "[+] Modified APK size: "; MB final_size; Txt " MB"];;
    ret true
  else
    print [Txt "[!] Error: Failed to create modified APK: "; Txt final_apk];;
    ret false.

(** [cut()]: the pipeline. *)
Definition cut : method bool :=
  self <- this;;
  found <- os_path_isfile (apk self);;
  if negb found then
    print [Txt "[!] Error: APK file not found: "; Txt (apk self)];;
    ret false
  else
    try_except
      (final_apk <- cut_stages;;
       cut_verify final_apk)
      (fun e =>
         print [Txt "[!] Error during APK modification: "; Str e];;
         ret false).

End Class_Interceptra.

(** ** [interceptra.py]: the command line *)

Definition VERSION : string := "1.1.0".

(** The namespace [parse_args] returns; [--apk] is required, so [args.apk]
    is a string. *)
Record Namespace : Type := {
  args_apk : string;
  args_verbose : bool;
  args_keep_files : bool;
  args_tools : option string
}.

(** ** [argparse], for the parser that [handle_args] builds

    Modelled on CPython 3.11: exact option strings, [--name=value], unique
    prefixes of long options, values joined to a short option and clusters of
    short flags.  A usage error ends the process through [parser.error], that
    is [sys.exit(2)]; [-h] prints the help and ends it through [sys.exit(0)]. *)
Module argparse.

Inductive action : Type := Help | Apk | Verbose | KeepFiles | Tools.

Definition option_strings : list (string * action) :=
  [("-h", Help); ("--help", Help); ("--apk", Apk); ("-a", Apk);
   ("--verbose", Verbose); ("-v", Verbose); ("--keep-files", KeepFiles);
   ("-k", KeepFiles); ("--tools", Tools)].

Fixpoint lookup (s : string) (table : list (string * action)) : option action :=
  match table with
  | [] => None
  | (o, a) :: r => if String.eqb o s then Some a else lookup s r
  end.

(** [nargs]: one argument for [--apk] and [--tools], none for the others. *)
Definition takes_value (a : action) : bool :=
  match a with Apk | Tools => true | _ => false end.

(** [(s[:i], s[i+1:])] for the first [=] in [s]. *)
Fixpoint split_eq (s : string) : option (string * string) :=
  match s with
  | EmptyString => None
  | String c r =>
      if Ascii.eqb c "="%char then Some (EmptyString, r)
      else match split_eq r with
           | Some (a, b) => Some (String c a, b)
           | None => None
           end
  end.

Fixpoint all_digits (s : string) : bool :=
  match s with
  | EmptyString => true
  | String c r => bool_decide (is_Some (digit_of c)) && all_digits r
  end.

(** The text without the one newline that [$] lets follow a match. *)
Fixpoint before_final_newline (s : string) : string :=
  match s with
  | EmptyString => EmptyString
  | String c r =>
      if str_empty r && Ascii.eqb c (ascii_of_nat 10) then EmptyString
      else String c (before_final_newline r)
  end.

(** The parser's [_negative_number_matcher], [^-\d+$|^-\d*\.\d+$], on texts
    of ASCII characters: the digits that [\d] finds outside of ASCII are not
    looked for. *)
Definition negative_number_like (s : string) : bool :=
  match s with
  | String "-"%char r0 =>
      let r := before_final_newline r0 in
      (negb (str_empty r) && all_digits r)
      || match rsplit_at extsep r with
         | Some (a, String _ b) => all_digits a && negb (str_empty b) && all_digits b
         | _ => false
         end
  | _ => false
  end.

Inductive arg_kind : Type :=
| Positional
| Optional (a : action) (short : bool) (explicit_arg : option string)
| Ambiguous
| Unknown.

Definition is_short (option_string : string) : bool :=
  match option_string with
  | String _ (String c _) => negb (Ascii.eqb c "-"%char)
  | _ => true
  end.

(** [_parse_optional(arg_string)]. *)
Definition parse_optional (arg_string : string) : arg_kind :=
  if negb (startswith "-"%char arg_string) then Positional
  else
    match lookup arg_string option_strings with
    | Some a => Optional a (is_short arg_string) None
    | None =>
        if (String.length arg_string =? 1)%nat then Positional
        else
          let exact :=
            match split_eq arg_string with
            | Some (o, v) =>
                match lookup o option_strings with
                | Some a => Some (Optional a (is_short o) (Some v))
                | None => None
                end
            | None => None
            end in
          match exact with
          | Some k => k
          | None =>
              let option_tuples :=
                if is_short arg_string then
                  match lookup (String.substring 0 2 arg_string) option_strings with
                  | Some a =>
                      [Optional a true
                         (Some (String.substring 2 (String.length arg_string - 2) arg_string))]
                  | None => []
                  end
                else
                  let (option_prefix, explicit_arg) :=
                    match split_eq arg_string with
                    | Some (o, v) => (o, Some v)
                    | None => (arg_string, None)
                    end in
                  map (fun oa => Optional (snd oa) false explicit_arg)
                    (filter (fun oa => String.prefix option_prefix (fst oa)) option_strings) in
              match option_tuples with
              | [k] => k
              | _ :: _ :: _ => Ambiguous
              | [] =>
                  if negative_number_like arg_string then Positional
                  else if str_mem " "%char arg_string then Positional
                  else Unknown
              end
          end
    end.

(** The namespace while it is filled. *)
Record partial : Type := {
  p_apk : option string;
  p_verbose : bool;
  p_keep_files : bool;
  p_tools : option string
}.

Definition defaults : partial :=
  {| p_apk := None; p_verbose := false; p_keep_files := false; p_tools := None |}.

(** [take_action] for the storing actions. *)
Definition store (a : action) (value : string) (ns : partial) : partial :=
  match a with
  | Apk => {| p_apk := Some value; p_verbose := p_verbose ns;
              p_keep_files := p_keep_files ns; p_tools := p_tools ns |}
  | Tools => {| p_apk := p_apk ns; p_verbose := p_verbose ns;
                p_keep_files := p_keep_files ns; p_tools := Some value |}
  | Verbose => {| p_apk := p_apk ns; p_verbose := true;
                  p_keep_files := p_keep_files ns; p_tools := p_tools ns |}
  | KeepFiles => {| p_apk := p_apk ns; p_verbose := p_verbose ns;
                    p_keep_files := true; p_tools := p_tools ns |}
  | Help => ns
  end.

(** What a cluster of short options asks for: the flags in order, then
    possibly an option with its value, or an option still waiting for one. *)
Inductive cluster_end : Type :=
| Closed
| Valued (a : action) (value : string)
| Waiting (a : action).

(** The characters that follow a short flag are read as further short
    options; an unknown one is a usage error. *)
Fixpoint cluster (explicit_arg : string) : option (list action * cluster_end) :=
  match explicit_arg with
  | EmptyString => Some ([], Closed)
  | String c r =>
      match lookup (String "-"%char (String c EmptyString)) option_strings with
      | None => None
      | Some a =>
          if takes_value a then
            Some ([], if str_empty r then Waiting a else Valued a r)
          else
            match cluster r with
            | Some (flags, e) => Some (a :: flags, e)
            | None => None
            end
      end
  end.

Definition has_help (flags : list action) : bool :=
  existsb (fun a => match a with Help => true | _ => false end) flags.

Definition store_flags (flags : list action) (ns : partial) : partial :=
  fold_left (fun acc a => store a EmptyString acc) flags ns.

(** An argument that can be the value of an option: neither [--] nor
    something that reads as an option. *)
Definition is_value (arg_string : string) : bool :=
  negb (String.eqb arg_string "--")
  && match parse_optional arg_string with Positional => true | _ => false end.

(** The consuming loop.  The result is an exit status, or the namespace and
    whether unrecognized arguments were met. *)
Fixpoint consume (args : list string) (ns : partial) (extras : bool)
  : Z + (partial * bool) :=
  match args with
  | [] => inr (ns, extras)
  | arg_string :: rest =>
      if String.eqb arg_string "--" then inr (ns, true)
      else
        match parse_optional arg_string with
        | Positional | Unknown => consume rest ns true
        | Ambiguous => inl 2
        | Optional a short explicit_arg =>
            let finish (flags : list action) (e : cluster_end) :=
              match e with
              | Closed =>
                  if has_help flags then inl 0
                  else consume rest (store_flags flags ns) extras
              | Valued b value =>
                  if has_help flags then inl 0
                  else consume rest (store b value (store_flags flags ns)) extras
              | Waiting b =>
                  match rest with
                  | value :: rest' =>
                      if is_value value then
                        if has_help flags then inl 0
                        else consume rest' (store b value (store_flags flags ns)) extras
                      else inl 2
                  | [] => inl 2
                  end
              end in
            match explicit_arg with
            | None => if takes_value a then finish [] (Waiting a) else finish [a] Closed
            | Some value =>
                if takes_value a then finish [] (Valued a value)
                else if short && negb (str_empty value) then
                  match cluster value with
                  | Some (flags, e) => finish (a :: flags) e
                  | None => inl 2
                  end
                else inl 2
            end
        end
  end.

(** Every argument before a [--] is classified before any is consumed, so an
    ambiguous abbreviation is reported first. *)
Fixpoint any_ambiguous (args : list string) : bool :=
  match args with
  | [] => false
  | arg_string :: rest =>
      if String.eqb arg_string "--" then false
      else match parse_optional arg_string with
           | Ambiguous => true
           | _ => any_ambiguous rest
           end
  end.

(** [parser.parse_args()]: the namespace, or the status of [sys.exit]. *)
Definition parse_args (argv : list string) : Z + Namespace :=
  if any_ambiguous argv then inl 2
  else
    match consume argv defaults false with
    | inl status => inl status
    | inr (ns, extras) =>
        match p_apk ns with
        | None => inl 2
        | Some a =>
            if extras then inl 2
            else inr {| args_apk := a; args_verbose := p_verbose ns;
                        args_keep_files := p_keep_files ns;
                        args_tools := p_tools ns |}
        end
    end.

End argparse.

(** [handle_args()], on the arguments after the program name. *)
Definition handle_args (argv : list string) : Z + Namespace :=
  argparse.parse_args argv.

(** How [main] ends: it returns a status, or [SystemExit] leaves it. *)
Inductive termination : Type :=
| Returned (status : Z)
| SystemExit (code : Z).


Section Command_line.
Context {world : Type} {O : OS world}.

Definition parse_tool_paths (tools_json : option string)
  : M world world (option dict) :=
  match tools_json with
  | None | Some EmptyString => ret None
  | Some text =>
      isfile <- os_path_isfile text;;
      if isfile then
        try_except
          (d <- json_load text;; ret (Some d))
          (fun e =>
             print [Txt "[!] Error loading tools config file: "; Str e];;
             ret None)
      else
        try_except
          (d <- json_loads text;; ret (Some d))
          (fun e =>
             print [Txt "[!] Error parsing tools JSON: "; Str e];;
             ret None)
  end.

Definition main (argv : list string) : M world world termination :=
  match handle_args argv with
  | inl code => ret (SystemExit code)
  | inr args =>
      print [Txt "[+] Interceptra v"; Txt VERSION];;
      apk_path <- os_path_expanduser (args_apk args);;
      isfile <- os_path_isfile apk_path;;
      if negb isfile then
        print [Txt "Error: APK file not found: "; Txt apk_path];;
        ret (Returned 1)
      else
        tool_paths <- parse_tool_paths (args_tools args);;
        try_except
          (interceptor <-
             __init__ apk_path (args_verbose args) tool_paths (args_keep_files args);;
           r <- call interceptor cut;;
           if fst r then
             print [Txt "[+] Interceptra completed! The APK has been patched to allow proxy interception."];;
             ret (Returned 0)
           else
             print [Txt "[!] Interceptra failed to patch the APK."];;
             ret (Returned 1))
          (fun e =>
             print [Txt "[!] Error: "; Str e];;
             when (args_verbose args)
               (print [Txt "Traceback (most recent call last):"; Str e]);;
             ret (Returned 1))
  end.

End Command_line.

(** ** An in-memory operating system

    A flat file system keyed by path, and the five external tools reduced to
    what the pipeline observes of them: the files they create and their exit
    status.  A world can break a stage's tool (exit 1), silence it (exit 0,
    no output file) or protect a path against removal. *)
Module Sim.

Inductive data : Type :=
| Opaque
| Xml (root : element)
| Json (d : dict)
| Archive (manifest : option element).

Inductive node : Type :=
| File (size : Z) (d : data)
| Dir.

Record world : Type := {
  fs : gmap string node;
  cwd : string;
  home : string;
  installed : list string;
  broken : list string;
  silent : list string;
  protected : list string
}.

Definition with_fs (m : gmap string node) (w : world) : world :=
  {| fs := m; cwd := cwd w; home := home w; installed := installed w;
     broken := broken w; silent := silent w; protected := protected w |}.

Definition mem (x : string) (l : list string) : bool :=
  existsb (String.eqb x) l.

Definition stat (p : string) (w : world) : exn + stat_result :=
  match fs w !! p with
  | Some (File size _) => inr {| st_kind := Regular; st_size := size |}
  | Some Dir => inr {| st_kind := Directory; st_size := 4096 |}
  | None => inl (FileNotFoundError p)
  end.

(** A removal is refused when a protected path lies in its target. *)
Definition refused (p : string) (w : world) : bool :=
  existsb (fun q => inside p q) (protected w).

Definition rmtree (p : string) (w : world) : option exn * world :=
  match fs w !! p with
  | Some Dir =>
      if refused p w then (Some (OSError "Permission denied"), w)
      else (None, with_fs (filter (fun kv => inside p (fst kv) = false) (fs w)) w)
  | Some (File _ _) => (Some (OSError "Not a directory"), w)
  | None => (Some (FileNotFoundError p), w)
  end.

Definition remove (p : string) (w : world) : option exn * world :=
  match fs w !! p with
  | Some (File _ _) =>
      if refused p w then (Some (OSError "Permission denied"), w)
      else (None, with_fs (delete p (fs w)) w)
  | Some Dir => (Some (OSError "Is a directory"), w)
  | None => (Some (FileNotFoundError p), w)
  end.

Definition makedirs (p : string) (w : world) : option exn * world :=
  match fs w !! p with
  | Some Dir => (None, w)
  | Some (File _ _) => (Some (OSError "File exists"), w)
  | None => (None, with_fs (<[p := Dir]> (fs w)) w)
  end.

Definition data_of (c : content) : Z * data :=
  match c with
  | Text t => (Z.of_nat (String.length t), Opaque)
  | Document prolog root => (Z.of_nat (String.length prolog) + 1, Xml root)
  end.

Definition write (p : string) (c : content) (w : world) : option exn * world :=
  match fs w !! p with
  | Some Dir => (Some (OSError "Is a directory"), w)
  | _ => (None, with_fs (<[p := File (fst (data_of c)) (snd (data_of c))]> (fs w)) w)
  end.

Definition parse_xml (p : string) (w : world) : exn + element :=
  match fs w !! p with
  | Some (File _ (Xml root)) => inr root
  | Some (File _ _) => inl (ParseError "syntax error: line 1, column 0")
  | Some Dir => inl (OSError "Is a directory")
  | None => inl (FileNotFoundError p)
  end.

Definition load_json (p : string) (w : world) : exn + dict :=
  match fs w !! p with
  | Some (File _ (Json d)) => inr d
  | Some (File _ _) => inl (JSONDecodeError "Expecting value")
  | Some Dir => inl (OSError "Is a directory")
  | None => inl (FileNotFoundError p)
  end.

(** Only the empty object is read from an inline string. *)
Definition loads_json (text : string) : exn + dict :=
  if String.eqb text "{}" then inr [] else inl (JSONDecodeError "Expecting value").

Definition expanduser (p : string) (w : world) : string :=
  match p with
  | String "~"%char EmptyString => home w
  | String "~"%char (String "/"%char r) => home w +:+ String sep r
  | _ => p
  end.

Definition exited (status : Z) (err : string) : exn + completed :=
  inr {| returncode := status; stdout := EmptyString; stderr := err |}.

(** The effect of a tool that runs to the end, by the shape of its
    arguments. *)
Definition tool (args : list string) (w : world) : (exn + completed) * world :=
  match args with
  | ["-jar"; _; "-f"; "d"; input; "-o"; out] =>
      match fs w !! input with
      | Some (File _ (Archive manifest)) =>
          let tree := <[out := Dir]> (fs w) in
          let tree :=
            match manifest with
            | Some root => <[path.join out "AndroidManifest.xml" := File 512 (Xml root)]> tree
            | None => tree
            end in
          (exited 0 EmptyString, with_fs tree w)
      | _ => (exited 1 "brut.androlib.AndrolibException", w)
      end
  | ["-jar"; _; "-f"; "b"; tree; "-o"; out; "--use-aapt2"] =>
      match fs w !! tree with
      | Some Dir =>
          let manifest :=
            match fs w !! path.join tree "AndroidManifest.xml" with
            | Some (File _ (Xml root)) => Some root
            | _ => None
            end in
          (exited 0 EmptyString, with_fs (<[out := File 2048 (Archive manifest)]> (fs w)) w)
      | _ => (exited 1 "brut.directory.PathNotExist", w)
      end
  | ["-p"; "-f"; "4"; input; out] =>
      match fs w !! input with
      | Some (File size d) => (exited 0 EmptyString, with_fs (<[out := File size d]> (fs w)) w)
      | _ => (exited 1 "Unable to open as zip archive", w)
      end
  | ["-verbose"; "-keystore"; _; "-keypass"; _; "-storepass"; _; "-sigalg"; _;
     "-digestalg"; _; target; _] =>
      match fs w !! target with
      | Some (File _ _) => (exited 0 EmptyString, w)
      | _ => (exited 1 "jarsigner: unable to open jar file", w)
      end
  | ["sign"; "--ks"; _; "--ks-key-alias"; _; "--ks-pass"; _; target] =>
      match fs w !! target with
      | Some (File _ _) => (exited 0 EmptyString, w)
      | _ => (exited 1 "No such file", w)
      end
  | _ => (exited 64 "usage", w)
  end.

(** The stage a command belongs to, by the shape of its arguments. *)
Definition label (args : list string) : string :=
  match args with
  | "-jar" :: _ :: "-f" :: "d" :: _ => "unpack"
  | "-jar" :: _ :: "-f" :: "b" :: _ => "repack"
  | "-p" :: _ => "align"
  | "-verbose" :: _ => "jarsigner"
  | "sign" :: _ => "apksigner"
  | _ => EmptyString
  end.

Definition run (command : list string) (w : world) : (exn + completed) * world :=
  match command with
  | [] => (inl (ValueError "empty command"), w)
  | ["which"; name] => (exited (if mem name (installed w) then 0 else 1) EmptyString, w)
  | program :: args =>
      if negb (mem program (installed w)) then (inl (FileNotFoundError program), w)
      else if mem (label args) (broken w) then (exited 1 "failed", w)
      else if mem (label args) (silent w) then (exited 0 EmptyString, w)
      else tool args w
  end.

#[global] Instance os : OS world := {|
  sys_stat := stat;
  sys_getcwd w := inr (cwd w);
  sys_expanduser := expanduser;
  sys_rmtree := rmtree;
  sys_remove := remove;
  sys_makedirs := makedirs;
  sys_write := write;
  sys_parse_xml := parse_xml;
  sys_load_json := load_json;
  sys_loads_json := loads_json;
  sys_run := run;
  builtins_int := py_int
|}.

(** A manifest with an [application] element and the given attributes on
    its top-level element. *)
Definition manifest (attrs : list (string * string)) : element :=
  Element "manifest" (list_to_map attrs)
    [Element "uses-permission" ∅ []; Element "application" ∅ []].

Definition sdk (v : string) : list (string * string) :=
  [(android_ns +:+ "compileSdkVersion", v)].

Definition all_tools : list string :=
  ["which"; "java"; "zipalign"; "jarsigner"; "apksigner"].

(** A machine with every tool installed and one bundle, [/work/app.apk]. *)
Definition machine (m : option element) : world :=
  {| fs := {[ "/work/app.apk" := File 4096 (Archive m) ]};
     cwd := "/work"; home := "/home/user"; installed := all_tools;
     broken := []; silent := []; protected := [] |}.

End Sim.

(** ** Reading a run: results, traces, plans *)

Definition value {S A W} (x : outcome A * S * list (event W)) : outcome A := fst (fst x).
Definition final {S A W} (x : outcome A * S * list (event W)) : S := snd (fst x).
Definition trace {S A W} (x : outcome A * S * list (event W)) : list (event W) := snd x.

Section Traces.
Context {world : Type}.

(** The commands started, in order. *)
Fixpoint commands (t : list (event world)) : list (list string) :=
  match t with
  | [] => []
  | Run c _ _ _ :: r => c :: commands r
  | _ :: r => commands r
  end.

(** The commands started, with the worlds around them and what came of
    them. *)
Fixpoint runs (t : list (event world))
  : list (list string * world * (exn + completed) * world) :=
  match t with
  | [] => []
  | Run c w1 r w2 :: u => (c, w1, r, w2) :: runs u
  | _ :: u => runs u
  end.

Definition is_console (e : event world) : bool :=
  match e with Console _ => true | _ => false end.

(** Nothing but printing. *)
Definition quiet (t : list (event world)) : bool := forallb is_console t.

(** What follows the first command that ended with a non-zero status. *)
Fixpoint after_failure (t : list (event world)) : option (list (event world)) :=
  match t with
  | [] => None
  | Run _ _ (inr p) _ :: r =>
      if Z.eqb (returncode p) 0 then after_failure r else Some r
  | _ :: r => after_failure r
  end.

(** The path announced by the last line that reports success. *)
Definition announced (e : event world) : option string :=
  match e with
  | Console [Txt "[+] Interceptra completed successfully: "; Txt p] => Some p
  | _ => None
  end.

Fixpoint delivered (t : list (event world)) : option string :=
  match t with
  | [] => None
  | e :: r =>
      match delivered r with
      | Some p => Some p
      | None => announced e
      end
  end.

End Traces.

(** The commands of a complete run for the platform version [v]. *)
Definition plan (self : Interceptra) (v : Z) : list (list string) :=
  [unpack_command self; repack_command self]
  ++ (if 30 <=? v then [zipalign_command self; apksign_command self]
      else [jarsign_command self; zipalign_command self]).

(** The working paths of an object. *)
Definition working_paths (self : Interceptra) : string * string * string :=
  (extraction_dir self, patched_apk self, zipaligned_apk self).

(** The name of the working files: the base name of the bundle without its
    extension. *)
Definition stem (p : string) : string := fst (path.splitext (path.basename p)).

(** A directory name is empty, made of separators, or ends with another
    character. *)
Definition dir_shaped (d : string) : Prop :=
  d = EmptyString \/ str_all sep d = true \/ endswith sep d = false.

(** [join(d, n)] is [n] appended to a prefix that depends on [d] only. *)
Definition join_head (d : string) : string :=
  if str_empty d || endswith sep d then d else d +:+ String sep EmptyString.

(** The object as the constructor leaves it: the working paths are the
    directory of the bundle joined with names made from its stem. *)
Definition constructed (self : Interceptra) : Prop :=
  file_name self = stem (apk self)
  /\ output_dir self = path.dirname (apk self)
  /\ working_paths self
     = (path.join (path.dirname (apk self)) (stem (apk self)),
        path.join (path.dirname (apk self)) (stem (apk self) +:+ "_patched.apk"),
        path.join (path.dirname (apk self))
          (stem (apk self) +:+ "_patched_zipaligned.apk")).

(** Two objects with the same input, working paths and cleaning option. *)
Definition same_paths (a b : Interceptra) : Prop :=
  apk a = apk b /\ file_name a = file_name b /\ output_dir a = output_dir b
  /\ working_paths a = working_paths b /\ keep_files a = keep_files b.

(** The messages of the stages that check their output. *)
Definition patched_missing (self : Interceptra) : string :=
  "Failed to create patched APK: " +:+ patched_apk self.

Definition aligned_missing (self : Interceptra) : string :=
  "Failed to create aligned APK: " +:+ zipaligned_apk self.

Section Stages.
Context {world : Type} {O : OS world}.

Definition manifest_path (self : Interceptra) : string :=
  path.join (extraction_dir self) "AndroidManifest.xml".

(** The version the detect stage settles on, read off the manifest as it
    is in the world [w]. *)
Definition detected_version (self : Interceptra) (w : world) : Z :=
  match sys_parse_xml (manifest_path self) w with
  | inr root =>
      match attrib_of root !! (android_ns +:+ "compileSdkVersion") with
      | Some text => default 30 (builtins_int text)
      | None => 30
      end
  | inl _ => 30
  end.

(** The ways a stage built around one command can go: it fails before the
    command, the command cannot be started, it ends with a non-zero status,
    it ends with status 0 without leaving the expected file, or all is
    well.  [P] holds of what was done before the command and of the world
    it is started in; [out] is the
    file checked afterwards, with the message raised when it is missing. *)
Inductive stage (c : list string) (P : list (event world) -> world -> Prop)
    (out : option (string * string))
    (s : Interceptra * world)
  : outcome unit -> Interceptra * world -> list (event world) -> Prop :=
| stage_early e w pre :
    commands pre = [] ->
    stage c P out s (Raise e) (fst s, w) pre
| stage_launch e w1 w2 pre post :
    commands pre = [] -> quiet post = true -> P pre w1 ->
    stage c P out s (Raise e) (fst s, w2) (pre ++ Run c w1 (inl e) w2 :: post)
| stage_exit p w1 w2 pre post :
    returncode p <> 0 -> commands pre = [] -> quiet post = true -> P pre w1 ->
    stage c P out s
      (Raise (CommandError (returncode p) (stdout p) (stderr p)))
      (fst s, w2) (pre ++ Run c w1 (inr p) w2 :: post)
| stage_missing p w1 w2 pre post dest msg :
    returncode p = 0 -> out = Some (dest, msg) -> path_exists dest w2 = false ->
    commands pre = [] -> commands post = [] -> P pre w1 ->
    stage c P out s (Raise (FileNotFoundError msg)) (fst s, w2)
      (pre ++ Run c w1 (inr p) w2 :: post)
| stage_done p w1 w2 pre post :
    returncode p = 0 ->
    (forall dest msg, out = Some (dest, msg) -> path_exists dest w2 = true) ->
    commands pre = [] -> commands post = [] -> P pre w1 ->
    stage c P out s (Return tt) (fst s, w2) (pre ++ Run c w1 (inr p) w2 :: post).

(** How [_run_command] with [check=True] can go. *)
Inductive ran (c : list string) (s : Interceptra * world)
  : outcome run_result -> Interceptra * world -> list (event world) -> Prop :=
| ran_launch e w2 pre post :
    sys_run c (snd s) = (inl e, w2) -> quiet pre = true -> quiet post = true ->
    ran c s (Raise e) (fst s, w2) (pre ++ Run c (snd s) (inl e) w2 :: post)
| ran_exit p w2 pre post :
    sys_run c (snd s) = (inr p, w2) -> returncode p <> 0 ->
    quiet pre = true -> quiet post = true ->
    ran c s (Raise (CommandError (returncode p) (stdout p) (stderr p)))
      (fst s, w2) (pre ++ Run c (snd s) (inr p) w2 :: post)
| ran_done p w2 pre post :
    sys_run c (snd s) = (inr p, w2) -> returncode p = 0 ->
    quiet pre = true -> quiet post = true ->
    ran c s (Return (CommandResult (returncode p) (stdout p) (stderr p)))
      (fst s, w2) (pre ++ Run c (snd s) (inr p) w2 :: post).

(** The world a command of the unpack stage is started in: the one the
    stage began in when there was no extraction directory, the one left by a
    removal that returned otherwise. *)
Definition cleared (p : string) (w : world) (pre : list (event world)) (w1 : world)
  : Prop :=
  (path_exists p w = false /\ w1 = w)
  \/ (path_exists p w = true /\ sys_rmtree p w = (None, w1)
      /\ In (Rmtree p None) pre).

(** No condition on the world a command is started in. *)
Definition anywhere (pre : list (event world)) (w1 : world) : Prop := True.


(** The warnings of [_cleanup_files]. *)
Definition directory_warning (e : exn) : event world :=
  Console [Txt "    Warning: Could not remove directory: "; Str e].

Definition file_warning (e : exn) : event world :=
  Console [Txt "    Warning: Could not remove file: "; Str e].

(** The object after [m] is related to the object before, however [m] ends. *)
Definition preserves (R : relation Interceptra) {A} (m : @method world A) : Prop :=
  forall s, R (fst s) (fst (final (m s))).

(** A step that leaves the object as it is. *)
Definition inert {A} (m : @method world A) : Prop := forall s, fst (final (m s)) = fst s.

End Stages.

(** ** Concrete runs on the in-memory operating system *)
Module Runs.

Definition blank : Interceptra :=
  {| verbose := false; tool_paths := []; KEYSTORE := EmptyString;
     KEYPASS := EmptyString; STOREPASS := EmptyString; SIGALG := EmptyString;
     DIGESTALG := EmptyString; ALIAS := EmptyString; APKTOOL_JAR := EmptyString;
     keep_files := false; apk := EmptyString; file_name := EmptyString;
     output_dir := EmptyString; patched_apk := EmptyString;
     zipaligned_apk := EmptyString; extraction_dir := EmptyString;
     compile_sdk := None |}.

(** The object the constructor builds for [app.apk] in the world [w]. *)
Definition object (w : Sim.world) : Interceptra :=
  match value (__init__ "app.apk" false None false w) with
  | Return self => self
  | Raise _ => blank
  end.

Definition start (w : Sim.world) : Interceptra * Sim.world := (object w, w).

(** A bundle declaring platform version 29, and one declaring 30. *)
Definition legacy : Sim.world := Sim.machine (Some (Sim.manifest (Sim.sdk "29"))).
Definition modern : Sim.world := Sim.machine (Some (Sim.manifest (Sim.sdk "30"))).

Definition breaking (labels : list string) (w : Sim.world) : Sim.world :=
  {| Sim.fs := Sim.fs w; Sim.cwd := Sim.cwd w; Sim.home := Sim.home w;
     Sim.installed := Sim.installed w; Sim.broken := labels;
     Sim.silent := Sim.silent w; Sim.protected := Sim.protected w |}.

Definition silencing (labels : list string) (w : Sim.world) : Sim.world :=
  {| Sim.fs := Sim.fs w; Sim.cwd := Sim.cwd w; Sim.home := Sim.home w;
     Sim.installed := Sim.installed w; Sim.broken := Sim.broken w;
     Sim.silent := labels; Sim.protected := Sim.protected w |}.

Definition protecting (paths : list string) (w : Sim.world) : Sim.world :=
  {| Sim.fs := Sim.fs w; Sim.cwd := Sim.cwd w; Sim.home := Sim.home w;
     Sim.installed := Sim.installed w; Sim.broken := Sim.broken w;
     Sim.silent := Sim.silent w; Sim.protected := paths |}.

(** A world that still holds the extraction tree of an earlier run. *)
Definition stale (w : Sim.world) : Sim.world :=
  Sim.with_fs
    (<["/work/app" := Sim.Dir]>
       (<["/work/app/old.txt" := Sim.File 7 Sim.Opaque]> (Sim.fs w))) w.

(** A world in which the bundle has been unpacked, with the given manifest. *)
Definition unpacked (attrs : list (string * string)) : Sim.world :=
  Sim.with_fs
    (<["/work/app" := Sim.Dir]>
       (<["/work/app/AndroidManifest.xml" := Sim.File 512 (Sim.Xml (Sim.manifest attrs))]>
          (Sim.fs (Sim.machine None))))
    (Sim.machine None).

(** The [n]-th command of a run, with the worlds around it. *)
Definition nth_run (n : nat) (s : Interceptra * Sim.world)
  : list string * Sim.world * (exn + completed) * Sim.world :=
  nth n (runs (trace (cut s))) ([], snd s, inl (ValueError EmptyString), snd s).

End Runs.


(** The options [--apk /work/none.apk] and [--apk /work/app.apk]. *)
Definition none_args : Namespace :=
  {| args_apk := "/work/none.apk"; args_verbose := false;
     args_keep_files := false; args_tools := None |}.


(** ** Vocabulary of the further properties *)

(** An event that only looks at the world or prints. *)
Definition observes {world : Type} (e : event world) : bool :=
  match e with
  | Console _ | Stat _ => true
  | _ => false
  end.

(** The tool table of an object: the built-in one, updated with the
    caller's when that is given and not empty. *)
Definition tool_table (tool_paths0 : option dict) : dict :=
  match tool_paths0 with
  | Some (kv :: more) => dict_update default_tool_paths (kv :: more)
  | _ => default_tool_paths
  end.

(** The names the program indexes the tool table with. *)
Definition tool_names : list string :=
  ["apktool"; "keystore"; "java"; "zipalign"; "jarsigner"; "apksigner"].

(** What the constructor may do: print, look at paths, read the current
    directory, and ask [which] for a tool whose path in the table is
    relative, the apktool archive and the keystore apart. *)
Definition probe {world : Type} (tools : dict) (e : event world) : Prop :=
  match e with
  | Console _ | Stat _ | Getcwd => True
  | Run c _ _ _ =>
      exists tool p,
        In (tool, p) tools /\ tool <> "apktool" /\ tool <> "keystore"
        /\ path.isabs p = false /\ c = ["which"; p]
  | _ => False
  end.

(** What a run of the pipeline on the object [o] may do: print, look at
    paths, parse the unpacked manifest, remove the extraction directory and
    the intermediate archive, create the resource directory and the
    directory of the final archive, write the trust configuration and the
    manifest, and start the five tools. *)
Definition allowed {world : Type} (o : Interceptra) (e : event world) : Prop :=
  match e with
  | Console _ | Stat _ => True
  | ParseXml p => p = manifest_path o
  | Rmtree p _ => p = extraction_dir o
  | Remove p _ => p = patched_apk o
  | Makedirs p _ =>
      p = path.join (extraction_dir o) "res/xml"
      \/ p = path.dirname (zipaligned_apk o)
  | WriteFile p c _ =>
      (p = path.join (path.join (extraction_dir o) "res/xml") "network_security_config.xml"
       /\ c = Text network_file)
      \/ (p = manifest_path o /\ exists root, c = Document manifest_prolog root)
  | Run c _ _ _ =>
      In c [unpack_command o; repack_command o; jarsign_command o;
            apksign_command o; zipalign_command o]
  | Getcwd | LoadJson _ => False
  end.

(** The object [o], possibly with a platform version assigned. *)
Definition versioned (o self : Interceptra) : Prop :=
  self = o \/ exists v, self = assign_compile_sdk v o.

Section Confinement.
Context {world S : Type}.

(** From a state that satisfies [I], the events of [m] all satisfy [P] and
    the state [m] leaves satisfies [I] again. *)
Definition confined (I : S -> Prop) (P : event world -> Prop) {A}
    (m : M world S A) : Prop :=
  forall s, I s -> Forall P (trace (m s)) /\ I (final (m s)).

End Confinement.

(** An invariant of the object, as a condition on the state of a method. *)
Definition on_object {world : Type} (J : Interceptra -> Prop)
  : Interceptra * world -> Prop :=
  fun s => J (fst s).

Section Order.
Context {world : Type}.

(** The events of a trace that precede the first start of the command
    [c]; [None] when [c] is never started. *)
Fixpoint before_command (c : list string) (t : list (event world))
  : option (list (event world)) :=
  match t with
  | [] => None
  | Run c' w r w' :: u =>
      if bool_decide (c' = c) then Some []
      else cons (Run c' w r w') <$> before_command c u
  | e :: u => cons e <$> before_command c u
  end.

End Order.

(** The path of the trust configuration in the unpacked bundle. *)
Definition network_file_path (self : Interceptra) : string :=
  path.join (path.join (extraction_dir self) "res/xml") "network_security_config.xml".

(** The attribute the manifest stage sets. *)
Definition network_attribute : string := android_ns +:+ "networkSecurityConfig".

(** A tree whose first [application] child carries the attribute. *)
Definition patched_tree (root : element) : Prop :=
  exists app,
    element_find "application" root = Some app
    /\ attrib_of app !! network_attribute = Some "@xml/network_security_config".

(** The file [p] exists in the world a command is started in. *)
Definition present {world : Type} `{OS world} (p : string)
    (pre : list (event world)) (w1 : world) : Prop :=
  path_exists p w1 = true.

(** ** Further concrete runs *)
Module Cases.

(** The object built for [app.apk] with retention requested. *)
Definition retaining (w : Sim.world) : Interceptra :=
  match value (__init__ "app.apk" false None true w) with
  | Return self => self
  | Raise _ => Runs.blank
  end.

(** The object built with a Java of the caller's. *)
Definition custom_tools : dict := [("java", "/opt/jdk/bin/java")].

Definition custom (w : Sim.world) : Interceptra :=
  match value (__init__ "app.apk" false (Some custom_tools) false w) with
  | Return self => self
  | Raise _ => Runs.blank
  end.

(** The object built for [app.apk] with verbosity on. *)
Definition loud (w : Sim.world) : Interceptra :=
  match value (__init__ "app.apk" true None false w) with
  | Return self => self
  | Raise _ => Runs.blank
  end.

(** A machine whose bundle, [/work/app], has no extension, and the object
    built for it. *)
Definition bare : Sim.world :=
  Sim.with_fs {[ "/work/app" := Sim.File 4096 (Sim.Archive None) ]} (Sim.machine None).

Definition bare_object : Interceptra :=
  match value (__init__ "/work/app" false None false bare) with
  | Return self => self
  | Raise _ => Runs.blank
  end.

(** The in-memory operating system after its current directory has been
    removed: [os.getcwd] raises. *)
Definition lost : OS Sim.world := {|
  sys_stat := Sim.stat;
  sys_getcwd w := inl (FileNotFoundError "[Errno 2] No such file or directory");
  sys_expanduser := Sim.expanduser;
  sys_rmtree := Sim.rmtree;
  sys_remove := Sim.remove;
  sys_makedirs := Sim.makedirs;
  sys_write := Sim.write;
  sys_parse_xml := Sim.parse_xml;
  sys_load_json := Sim.load_json;
  sys_loads_json := Sim.loads_json;
  sys_run := Sim.run;
  builtins_int := py_int
|}.

End Cases.

(** ** Two runs that differ in verbosity *)

(** The object with its verbosity switched off. *)
Definition silenced (self : Interceptra) : Interceptra :=
  {| verbose := false; tool_paths := tool_paths self;
     KEYSTORE := KEYSTORE self; KEYPASS := KEYPASS self;
     STOREPASS := STOREPASS self; SIGALG := SIGALG self;
     DIGESTALG := DIGESTALG self; ALIAS := ALIAS self;
     APKTOOL_JAR := APKTOOL_JAR self; keep_files := keep_files self;
     apk := apk self; file_name := file_name self;
     output_dir := output_dir self; patched_apk := patched_apk self;
     zipaligned_apk := zipaligned_apk self;
     extraction_dir := extraction_dir self; compile_sdk := compile_sdk self |}.

(** Two objects that differ at most in their verbosity. *)
Definition alike (a b : Interceptra) : Prop := silenced a = silenced b.

Section Muted.
Context {world : Type}.

(** A trace without its console lines. *)
Definition mute (t : list (event world)) : list (event world) :=
  List.filter (fun e => negb (is_console e)) t.

(** Two runs with the same result, the same world, objects that are alike,
    and the same events apart from the console. *)
Definition same_effect {A} (x y : outcome A * (Interceptra * world) * list (event world))
  : Prop :=
  value x = value y /\ alike (fst (final x)) (fst (final y))
  /\ snd (final x) = snd (final y) /\ mute (trace x) = mute (trace y).

(** [m] on an object and [m'] on one that is alike have the same effect. *)
Definition related {A} (m m' : M world (Interceptra * world) A) : Prop :=
  forall a b w, alike a b -> same_effect (m (a, w)) (m' (b, w)).

End Muted.

(** * Properties *)

Section Trace_facts.
Context {world : Type}.
Implicit Types t u : list (event world).

Lemma commands_app t u : commands (t ++ u) = commands t ++ commands u.
Proof.
  induction t as [|e t IH]; [reflexivity|].
  destruct e; simpl; rewrite ?IH; reflexivity.
Qed.

Lemma quiet_app t u : quiet (t ++ u) = quiet t && quiet u.
Proof. apply forallb_app. Qed.

Lemma quiet_commands t : quiet t = true -> commands t = [].
Proof.
  induction t as [|e t IH]; [reflexivity|].
  destruct e; simpl; try discriminate; exact IH.
Qed.

Lemma runs_app t u : runs (t ++ u) = runs t ++ runs u.
Proof.
  induction t as [|e t IH]; [reflexivity|].
  destruct e; simpl; rewrite ?IH; reflexivity.
Qed.

Lemma runs_none t : commands t = [] -> runs t = [].
Proof.
  induction t as [|e t IH]; [reflexivity|].
  destruct e; simpl; try discriminate; exact IH.
Qed.

Lemma in_runs c w1 r w2 t : In (Run c w1 r w2) t -> In (c, w1, r, w2) (runs t).
Proof.
  induction t as [|e t IH]; simpl; [tauto|].
  intros [->|H]; [left; reflexivity|].
  destruct e; simpl; auto.
Qed.

Lemma in_last (e : event world) t : In e (t ++ [e]).
Proof. apply in_or_app. right. left. reflexivity. Qed.

Lemma after_failure_skip t u : commands t = [] -> after_failure (t ++ u) = after_failure u.
Proof.
  induction t as [|e t IH]; [reflexivity|].
  destruct e; simpl; try discriminate; exact IH.
Qed.

Lemma after_failure_none t : commands t = [] -> after_failure t = None.
Proof.
  intros H. rewrite <- (app_nil_r t). rewrite after_failure_skip by exact H. reflexivity.
Qed.

End Trace_facts.

(** Symbolic execution: case analysis on the next call that the program
    waits for. *)
Ltac next_case :=
  match goal with
  | |- context [match ?x with _ => _ end] =>
      lazymatch x with
      | context [match _ with _ => _ end] => fail
      | _ => destruct x eqn:?
      end
  end.

Ltac exec := simpl; repeat (next_case; simpl).

(** Open the monad and the library calls, keeping the methods folded. *)
Ltac open_calls :=
  unfold value, final, trace;
  unfold bind, this, set_compile_sdk, print, when, ret, raise, try_except,
    try_except_of, call, subprocess_run_check, subprocess_Popen, os_path_exists,
    os_path_isfile, os_path_getsize, os_path_expanduser, os_path_abspath,
    os_getcwd, shutil_rmtree, os_remove, os_makedirs, write_file,
    ElementTree_parse, json_load, json_loads, of_sum, of_option,
    path_exists, path_isfile.

(** Bring the equations left by the case analysis into the forms the
    lemmas use. *)
Ltac tidy :=
  repeat match goal with
  | H : (_ =? _) = true |- _ => apply Z.eqb_eq in H
  | H : (_ =? _) = false |- _ => apply Z.eqb_neq in H
  | H : negb _ = true |- _ => apply negb_true_iff in H
  | H : negb _ = false |- _ => apply negb_false_iff in H
  | H : (_ <=? _) = true |- _ => apply Z.leb_le in H
  | H : (_ <=? _) = false |- _ => apply Z.leb_gt in H
  end.

(** The events of a trace before its first command, and the rest. *)
Ltac before_run t :=
  lazymatch t with
  | ?p ++ (Run _ _ _ _ :: _) => constr:(p)
  | Run _ ?w _ _ :: _ => let W := type of w in constr:(@nil (event W))
  | ?a :: ?r => let p := before_run r in constr:(a :: p)
  end.

Ltac from_run t :=
  lazymatch t with
  | _ ++ (Run ?c ?a ?r ?b :: ?post) => constr:(Run c a r b :: post)
  | Run ?c ?a ?r ?b :: ?post => constr:(Run c a r b :: post)
  | _ :: ?r => from_run r
  end.

(** Present the trace of the goal as what comes before its first command,
    the command, and what follows. *)
Ltac at_first_run :=
  repeat rewrite <- app_assoc; simpl;
  lazymatch goal with
  | |- _ ?t =>
      let pre := before_run t in
      let rest := from_run t in
      change t with (pre ++ rest)
  end.

Ltac trace_facts :=
  repeat rewrite ?commands_app, ?quiet_app; simpl;
  repeat match goal with
  | H : quiet ?t = true |- _ =>
      first [ rewrite (quiet_commands t H) | rewrite H ]
  | H : commands ?t = [] |- _ => rewrite H
  end;
  simpl; auto.

Section Stage_facts.
Context {world : Type} {O : OS world}.
Implicit Types s : Interceptra * world.

Lemma run_command_cases c description s :
  ran c s (value (_run_command c description true s))
    (final (_run_command c description true s))
    (trace (_run_command c description true s)).
Proof.
  destruct s as [self w].
  unfold _run_command. open_calls. exec; tidy; subst.
  all: at_first_run; constructor; simpl; auto.
Qed.

(** Case analysis on a call of [_run_command]. *)
Ltac run_case :=
  match goal with
  | |- context [_run_command ?c ?d true ?s] =>
      let R := fresh "R" in
      pose proof (run_command_cases c d s) as R;
      unfold value, final, trace in R;
      destruct (_run_command c d true s) as [[? ?] ?];
      simpl in R; inversion R; subst; clear R
  end.

Ltac exec_stage := simpl; repeat (first [run_case | next_case]; simpl).

Ltac start_fact :=
  unfold cleared, anywhere, path_exists;
  repeat match goal with
  | H : sys_stat _ _ = _ |- _ => rewrite H
  end;
  first [ exact I | left; split; [reflexivity | reflexivity]
        | right; split; [reflexivity | split; [assumption | simpl; tauto]] ].

Ltac close_stage :=
  first
    [ apply stage_early; reflexivity
    | at_first_run;
      first [ eapply stage_done | eapply stage_missing | eapply stage_exit
            | eapply stage_launch ];
      first [ eassumption | reflexivity | discriminate | start_fact
            | solve [trace_facts]
            | intros ? ? [= <- <-]; unfold path_exists;
              repeat match goal with H : sys_stat _ _ = _ |- _ => rewrite H end;
              reflexivity
            | unfold path_exists;
              repeat match goal with H : sys_stat _ _ = _ |- _ => rewrite H end;
              reflexivity ] ].

Lemma decompile_cases s r s' t :
  _decompile_apk s = (r, s', t) ->
  stage (unpack_command (fst s)) (cleared (extraction_dir (fst s)) (snd s)) None s r s' t.
Proof.
  destruct s as [self w]. unfold _decompile_apk. open_calls.
  exec_stage; tidy; subst; intros [= <- <- <-]; close_stage.
Qed.

Lemma repackage_cases s r s' t :
  _repackage_apk s = (r, s', t) ->
  stage (repack_command (fst s)) anywhere
    (Some (patched_apk (fst s), patched_missing (fst s))) s r s' t.
Proof.
  destruct s as [self w]. unfold _repackage_apk. open_calls.
  exec_stage; tidy; subst; intros [= <- <- <-]; close_stage.
Qed.

Lemma jarsign_cases s r s' t :
  _jarsign_apk s = (r, s', t) ->
  stage (jarsign_command (fst s)) anywhere None s r s' t.
Proof.
  destruct s as [self w]. unfold _jarsign_apk. open_calls.
  exec_stage; tidy; subst; intros [= <- <- <-]; close_stage.
Qed.

Lemma apksign_cases s r s' t :
  _apksign_apk s = (r, s', t) ->
  stage (apksign_command (fst s)) anywhere None s r s' t.
Proof.
  destruct s as [self w]. unfold _apksign_apk. open_calls.
  exec_stage; tidy; subst; intros [= <- <- <-]; close_stage.
Qed.

Lemma zipalign_cases s r s' t :
  _zipalign_apk s = (r, s', t) ->
  stage (zipalign_command (fst s)) anywhere
    (Some (zipaligned_apk (fst s), aligned_missing (fst s))) s r s' t.
Proof.
  destruct s as [self w]. unfold _zipalign_apk. open_calls.
  exec_stage; tidy; subst; intros [= <- <- <-]; close_stage.
Qed.

Lemma add_network_file_cases s r s' t :
  _add_network_file s = (r, s', t) -> fst s' = fst s /\ commands t = [].
Proof.
  destruct s as [self w]. unfold _add_network_file. open_calls.
  exec; intros [= <- <- <-]; split; reflexivity.
Qed.

Lemma add_network_attribute_cases s r s' t :
  _add_network_attribute_to_manifest s = (r, s', t) ->
  fst s' = fst s /\ commands t = [].
Proof.
  destruct s as [self w]. unfold _add_network_attribute_to_manifest. open_calls.
  exec; intros [= <- <- <-]; split; reflexivity.
Qed.

Lemma check_compile_sdk_version_cases s :
  exists t,
    _check_compile_sdk_version s
    = (Return tt, (assign_compile_sdk (detected_version (fst s) (snd s)) (fst s), snd s), t)
    /\ commands t = [].
Proof.
  destruct s as [self w].
  unfold _check_compile_sdk_version, detected_version, manifest_path. open_calls.
  exec; eexists; split; reflexivity.
Qed.

Lemma cleanup_files_cases s :
  exists w t,
    _cleanup_files s = (Return tt, (fst s, w), t) /\ commands t = [].
Proof.
  destruct s as [self w]. unfold _cleanup_files. open_calls.
  exec; do 2 eexists; split; reflexivity.
Qed.

Lemma unpack_command_assign v self :
  unpack_command (assign_compile_sdk v self) = unpack_command self.
Proof. reflexivity. Qed.

Lemma repack_command_assign v self :
  repack_command (assign_compile_sdk v self) = repack_command self.
Proof. reflexivity. Qed.

Lemma jarsign_command_assign v self :
  jarsign_command (assign_compile_sdk v self) = jarsign_command self.
Proof. reflexivity. Qed.

Lemma apksign_command_assign v self :
  apksign_command (assign_compile_sdk v self) = apksign_command self.
Proof. reflexivity. Qed.

Lemma zipalign_command_assign v self :
  zipalign_command (assign_compile_sdk v self) = zipalign_command self.
Proof. reflexivity. Qed.

End Stage_facts.

Arguments unpack_command : simpl never.
Arguments repack_command : simpl never.
Arguments jarsign_command : simpl never.
Arguments apksign_command : simpl never.
Arguments zipalign_command : simpl never.
Arguments assign_compile_sdk : simpl never.
Arguments detected_version : simpl never.
Arguments patched_missing : simpl never.
Arguments aligned_missing : simpl never.

(** Case analysis on the stage the pipeline is waiting for. *)
Ltac use_stage f lem :=
  match goal with
  | |- context [f ?s] =>
      let E := fresh "E" in
      destruct (f s) as [[? ?] ?] eqn:E;
      apply lem in E; simpl in E; inversion E; subst; clear E
  end.

Ltac use_quiet f lem :=
  match goal with
  | |- context [f ?s] =>
      let E := fresh "E" in
      destruct (f s) as [[? [? ?]] ?] eqn:E;
      apply lem in E; simpl in E; destruct E as [? ?]; subst
  end.

Ltac use_total f lem :=
  match goal with
  | |- context [f ?s] =>
      let E := fresh "E" in
      let t := fresh "t" in
      destruct (lem _ _ s) as (t & E & ?); simpl in E; rewrite E; clear E
  end.

Ltac stage_case :=
  first
    [ use_stage (@_decompile_apk) (@decompile_cases)
    | use_stage (@_repackage_apk) (@repackage_cases)
    | use_stage (@_jarsign_apk) (@jarsign_cases)
    | use_stage (@_apksign_apk) (@apksign_cases)
    | use_stage (@_zipalign_apk) (@zipalign_cases) ].

Ltac cut_step :=
  first
    [ stage_case
    | use_quiet (@_add_network_file) (@add_network_file_cases)
    | use_quiet (@_add_network_attribute_to_manifest) (@add_network_attribute_cases)
    | match goal with
      | |- context [_check_compile_sdk_version ?s] =>
          let E := fresh "E" in
          let t := fresh "t" in
          destruct (check_compile_sdk_version_cases s) as (t & E & ?);
          simpl in E; rewrite E; clear E
      | |- context [_cleanup_files ?s] =>
          let E := fresh "E" in
          let t := fresh "t" in
          let w := fresh "w" in
          destruct (cleanup_files_cases s) as (w & t & E & ?);
          simpl in E; rewrite E; clear E
      end
    | next_case ].

Ltac exec_cut :=
  simpl; repeat (cut_step; simpl;
                 rewrite ?unpack_command_assign, ?repack_command_assign,
                   ?jarsign_command_assign, ?apksign_command_assign,
                   ?zipalign_command_assign).

Section Cut_facts.
Context {world : Type} {O : OS world}.
Implicit Types s : Interceptra * world.

Lemma compile_sdk_assign v self : compile_sdk (assign_compile_sdk v self) = Some v.
Proof. reflexivity. Qed.

Lemma zipaligned_apk_assign v self :
  zipaligned_apk (assign_compile_sdk v self) = zipaligned_apk self.
Proof. reflexivity. Qed.

Lemma keep_files_assign v self :
  keep_files (assign_compile_sdk v self) = keep_files self.
Proof. reflexivity. Qed.

Lemma working_paths_assign v self :
  working_paths (assign_compile_sdk v self) = working_paths self.
Proof. reflexivity. Qed.

Lemma plan_modern self v :
  30 <= v ->
  plan self v = [unpack_command self; repack_command self;
                 zipalign_command self; apksign_command self].
Proof. intros H. unfold plan. apply Z.leb_le in H. rewrite H. reflexivity. Qed.

Lemma plan_legacy self v :
  v < 30 ->
  plan self v = [unpack_command self; repack_command self;
                 jarsign_command self; zipalign_command self].
Proof. intros H. unfold plan. apply Z.leb_gt in H. rewrite H. reflexivity. Qed.

(** The argument vectors of a plan differ from one another, whatever the
    tool table holds. *)
Lemma plan_NoDup self v : NoDup (plan self v).
Proof.
  unfold plan, unpack_command, repack_command, zipalign_command, apksign_command,
    jarsign_command.
  destruct (30 <=? v); simpl.
  all: repeat (apply NoDup_cons_2; [rewrite ?not_elem_of_cons; repeat split;
                                    try discriminate; apply not_elem_of_nil|]).
  all: apply NoDup_nil_2.
Qed.

Lemma prefix_NoDup (l k : list (list string)) : l `prefix_of` k -> NoDup k -> NoDup l.
Proof. intros [m ->] H. apply NoDup_app in H. tauto. Qed.

Lemma after_failure_here c (w1 w2 : world) p u :
  returncode p <> 0 -> after_failure (Run c w1 (inr p) w2 :: u) = Some u.
Proof. intros H. simpl. apply Z.eqb_neq in H. rewrite H. reflexivity. Qed.

Lemma after_failure_past c (w1 w2 : world) p u :
  returncode p = 0 -> after_failure (Run c w1 (inr p) w2 :: u) = after_failure u.
Proof. intros H. simpl. rewrite H. reflexivity. Qed.

Lemma in_run_commands c (w1 w2 : world) r t :
  In (Run c w1 r w2) t -> In c (commands t).
Proof.
  induction t as [|e t IH]; simpl; [tauto|].
  intros [->|H]; [left; reflexivity|].
  destruct e; simpl; auto.
Qed.

Lemma no_run c (w1 w2 : world) r t :
  commands t = [] -> In (Run c w1 r w2) t -> False.
Proof. intros H Hin. apply in_run_commands in Hin. rewrite H in Hin. exact Hin. Qed.

Lemma patched_missing_assign v self :
  patched_missing (assign_compile_sdk v self) = patched_missing self.
Proof. reflexivity. Qed.

Lemma aligned_missing_assign v self :
  aligned_missing (assign_compile_sdk v self) = aligned_missing self.
Proof. reflexivity. Qed.

Lemma delivered_app (t u : list (event world)) :
  delivered (t ++ u) = match delivered u with Some p => Some p | None => delivered t end.
Proof.
  induction t as [|e t IH]; simpl.
  - destruct (delivered u); reflexivity.
  - rewrite IH. destruct (delivered u); reflexivity.
Qed.

End Cut_facts.

(** Compute what a trace made of known and unknown parts says. *)
Ltac calc :=
  repeat (progress
    (rewrite ?commands_app, ?delivered_app, ?quiet_app, ?app_nil_r; simpl;
     repeat match goal with
     | H : commands ?t = [] |- context [commands ?t] => rewrite H
     | H : quiet ?t = true |- context [commands ?t] => rewrite (quiet_commands t H)
     | H : quiet ?t = true |- context [quiet ?t] => rewrite H
     end)).

(** Find the first failed command of a trace made of known and unknown
    parts. *)
Ltac calc_failure :=
  repeat rewrite <- app_assoc; simpl;
  repeat
    (match goal with
     | H : commands ?t = [] |- context [after_failure (?t ++ ?u)] =>
         rewrite (after_failure_skip t u H)
     | H : quiet ?t = true |- context [after_failure (?t ++ ?u)] =>
         rewrite (after_failure_skip t u (quiet_commands t H))
     | H : commands ?t = [] |- context [after_failure ?t] =>
         rewrite (after_failure_none t H)
     | H : returncode ?p = 0 |- context [returncode ?p =? 0] =>
         rewrite (proj2 (Z.eqb_eq (returncode p) 0) H)
     | H : returncode ?p <> 0 |- context [returncode ?p =? 0] =>
         rewrite (proj2 (Z.eqb_neq (returncode p) 0) H)
     end; repeat rewrite <- app_assoc; simpl).

Ltac unassign :=
  rewrite ?compile_sdk_assign, ?zipaligned_apk_assign, ?keep_files_assign,
    ?working_paths_assign, ?patched_missing_assign, ?aligned_missing_assign in *.

(** Where in a trace a command that is known to be there can be. *)
Ltac in_cases H :=
  apply in_runs in H;
  repeat (progress
    (rewrite ?runs_app in H; simpl in H;
     repeat match goal with
     | C : commands ?t = [] |- _ =>
         match type of H with context [runs t] => rewrite (runs_none t C) in H end
     | C : quiet ?t = true |- _ =>
         match type of H with context [runs t] =>
           rewrite (runs_none t (quiet_commands t C)) in H end
     end));
  repeat match goal with
  | H' : _ \/ _ |- _ => destruct H' as [H'|H']
  | H' : False |- _ => destruct H'
  | H' : (_, _, _, _) = (_, _, _, _) |- _ =>
      first [ discriminate H'
            | exfalso;
              unfold unpack_command, repack_command, jarsign_command,
                apksign_command, zipalign_command in H';
              discriminate H'
            | inversion H'; subst; clear H' ]
  end.

(** The last event of a trace is in the trace. *)
Ltac in_trace_end := repeat apply in_cons; apply in_last.

(** Run [cut] symbolically under the property to be proved of it. *)
Ltac run_cut s :=
  destruct s as [? ?];
  match goal with
  | |- context [cut ?x] =>
      pattern (cut x);
      match goal with
      | |- ?P _ =>
          let Q := fresh "Q" in
          set (Q := P);
          unfold cut, cut_stages, cut_verify; open_calls;
          exec_cut; tidy; subst Q; cbv beta; unfold value, final, trace;
          cbn [fst snd]; unassign
      end
  end.

Section Pipeline_properties.
Context {world : Type} {O : OS world}.
Implicit Types s : Interceptra * world.

(** The commands of a run follow the plan of the version that [cut] has
    stored: they are an initial part of it, and all of it when [cut]
    returns [True]. *)
Lemma commands_of_a_run s v :
  compile_sdk (fst (final (cut s))) = Some v ->
  (30 <= v ->
   commands (trace (cut s))
     `prefix_of` [unpack_command (fst s); repack_command (fst s);
                  zipalign_command (fst s); apksign_command (fst s)])
  /\ (v < 30 ->
      commands (trace (cut s))
        `prefix_of` [unpack_command (fst s); repack_command (fst s);
                     jarsign_command (fst s); zipalign_command (fst s)])
  /\ (value (cut s) = Return true ->
      commands (trace (cut s)) = plan (fst s) v
      /\ delivered (trace (cut s)) = Some (zipaligned_apk (fst s))).
Proof.
  run_cut s.
  all: intros Hv; try injection Hv as <-.
  all: calc.
  all: repeat split; try discriminate; try lia; intros.
  all: try (eexists; reflexivity).
  all: first [rewrite plan_modern by lia | rewrite plan_legacy by lia]; reflexivity.
Qed.

(** C1. The pipeline branches exactly at platform version 30.  From 30 on
    it runs [zipalign] from the intermediate archive to the aligned archive
    and then [apksigner sign] on the aligned archive; below 30 it runs
    [jarsigner] on the intermediate archive and then [zipalign] from the
    intermediate archive to the aligned archive.  The commands of every run
    are an initial part of that sequence, after the unpacking and the
    repacking; a run that returns [True] has executed all of it, and the
    artifact it announces is the aligned archive in both branches. *)
Theorem signing_strategy_branches_at_30 s v :
  let self := fst s in
  let tool := dict_item (tool_paths self) in
  let unpack :=
    [tool "java"; "-jar"; APKTOOL_JAR self; "-f"; "d"; apk self;
     "-o"; extraction_dir self] in
  let repack :=
    [tool "java"; "-jar"; APKTOOL_JAR self; "-f"; "b"; extraction_dir self;
     "-o"; patched_apk self; "--use-aapt2"] in
  let align :=
    [tool "zipalign"; "-p"; "-f"; "4"; patched_apk self; zipaligned_apk self] in
  let sign_aligned :=
    [tool "apksigner"; "sign"; "--ks"; KEYSTORE self; "--ks-key-alias"; ALIAS self;
     "--ks-pass"; "pass:" +:+ STOREPASS self; zipaligned_apk self] in
  let sign_intermediate :=
    [tool "jarsigner"; "-verbose"; "-keystore"; KEYSTORE self;
     "-keypass"; KEYPASS self; "-storepass"; STOREPASS self;
     "-sigalg"; SIGALG self; "-digestalg"; DIGESTALG self;
     patched_apk self; ALIAS self] in
  compile_sdk (fst (final (cut s))) = Some v ->
  (30 <= v ->
   commands (trace (cut s)) `prefix_of` [unpack; repack; align; sign_aligned])
  /\ (v < 30 ->
      commands (trace (cut s)) `prefix_of` [unpack; repack; sign_intermediate; align])
  /\ (value (cut s) = Return true ->
      (30 <= v -> commands (trace (cut s)) = [unpack; repack; align; sign_aligned])
      /\ (v < 30 ->
          commands (trace (cut s)) = [unpack; repack; sign_intermediate; align])
      /\ delivered (trace (cut s)) = Some (zipaligned_apk self)).
Proof.
  intros self tool unpack repack align sign_aligned sign_intermediate Hv.
  destruct (commands_of_a_run s v Hv) as (Hmodern & Hlegacy & Hall).
  split; [exact Hmodern|]. split; [exact Hlegacy|].
  intros Htrue. destruct (Hall Htrue) as [Hplan Hout].
  split; [|split; [|exact Hout]]; intros Hcmp; rewrite Hplan.
  - exact (plan_modern self v Hcmp).
  - exact (plan_legacy self v Hcmp).
Qed.

(** C3. A command that ends with a non-zero exit status aborts the run:
    nothing but the printing of diagnostics follows it, [cut] returns
    [False], and no command is started twice in a run. *)
Theorem failed_command_aborts s rest :
  after_failure (trace (cut s)) = Some rest ->
  value (cut s) = Return false
  /\ quiet rest = true
  /\ NoDup (commands (trace (cut s))).
Proof.
  run_cut s.
  all: calc_failure; try (intros Hnone; discriminate Hnone).
  all: intros [= <-]; split; [reflexivity|split].
  all: calc; try reflexivity.
  all: match goal with
       | |- NoDup ?l => apply (prefix_NoDup l (plan i 30));
                        [eexists; reflexivity | apply plan_NoDup]
       | |- NoDup ?l => apply (prefix_NoDup l (plan i 0));
                        [eexists; reflexivity | apply plan_NoDup]
       end.
Qed.

(** When every command that is started ends, [cut] returns a boolean and
    lets no exception reach its caller: an exception raised anywhere in the
    [try] block becomes [False], and [True] is returned only after a run in
    which no command failed and the aligned archive was announced.  That
    every started command ends is built into [subprocess_Popen]; the loop of
    [_run_command] does not ensure it. *)
Theorem cut_returns_a_boolean s :
  (exists b, value (cut s) = Return b)
  /\ (forall e, value ((final_apk <- cut_stages;; cut_verify final_apk) s) = Raise e ->
      value (cut s) = Return false)
  /\ (value (cut s) = Return true ->
      after_failure (trace (cut s)) = None
      /\ delivered (trace (cut s)) = Some (zipaligned_apk (fst s))).
Proof.
  split; [|split].
  - destruct s as [self w]. unfold cut. open_calls. simpl.
    destruct (sys_stat (apk self) w) as [e|st]; simpl; [eexists; reflexivity|].
    destruct (st_kind st); simpl; [|eexists; reflexivity].
    destruct (cut_stages (self, w)) as [[[f|e] s1] t1]; simpl;
      [|eexists; reflexivity].
    destruct (cut_verify f s1) as [[[b|e] s2] t2]; simpl; eexists; reflexivity.
  - intros e. destruct s as [self w]. unfold cut. open_calls. simpl.
    destruct (sys_stat (apk self) w) as [e'|st]; simpl; [reflexivity|].
    destruct (st_kind st); simpl; [|reflexivity].
    destruct (cut_stages (self, w)) as [[[f|e'] s1] t1]; simpl; [|reflexivity].
    destruct (cut_verify f s1) as [[[b|e'] s2] t2]; simpl; [discriminate|reflexivity].
  - run_cut s.
    all: try (intros Hb; discriminate Hb).
    all: intros _; split; [calc_failure; reflexivity | calc; reflexivity].
Qed.

(** C4. A repack command that ends with status 0 without leaving the
    intermediate archive makes the repack stage raise and the run return
    [False], with no further command; and so does an alignment command that
    ends with status 0 without leaving the aligned archive. *)
Theorem missing_output_fails_the_run s w1 p w2 :
  (In (Run (repack_command (fst s)) w1 (inr p) w2) (trace (cut s)) ->
   returncode p = 0 ->
   path_exists (patched_apk (fst s)) w2 = false ->
   value (cut s) = Return false
   /\ commands (trace (cut s)) = [unpack_command (fst s); repack_command (fst s)]
   /\ In (Console [Txt "[!] Error during APK modification: ";
                   Str (FileNotFoundError (patched_missing (fst s)))])
        (trace (cut s)))
  /\ (In (Run (zipalign_command (fst s)) w1 (inr p) w2) (trace (cut s)) ->
      returncode p = 0 ->
      path_exists (zipaligned_apk (fst s)) w2 = false ->
      value (cut s) = Return false
      /\ last (commands (trace (cut s))) = Some (zipalign_command (fst s))
      /\ In (Console [Txt "[!] Error during APK modification: ";
                      Str (FileNotFoundError (aligned_missing (fst s)))])
           (trace (cut s))).
Proof.
  run_cut s.
  all: split; intros Hin Hp Hout; in_cases Hin.
  all: try congruence.
  all: try match goal with
       | H : forall dest msg, Some _ = Some (dest, msg) -> path_exists dest ?w = true,
         H' : path_exists _ ?w = false |- _ =>
           rewrite (H _ _ eq_refl) in H'; discriminate H'
       end.
  all: match goal with
       | H : Some _ = Some (_, _) |- _ => injection H as <- <-
       end.
  all: split; [reflexivity|split]; [calc; reflexivity|in_trace_end].
Qed.

Section With_laws.
Context {Laws : OSLaws O}.

(** C8. The unpack tool is only ever started in a world where the
    extraction directory does not exist: when the directory is there at the
    start of the run, a recursive removal that returned precedes the
    command. *)
Theorem stale_extraction_tree_is_removed s w1 r w2 :
  In (Run (unpack_command (fst s)) w1 r w2) (trace (cut s)) ->
  path_exists (extraction_dir (fst s)) w1 = false
  /\ (path_exists (extraction_dir (fst s)) (snd s) = true ->
      In (Rmtree (extraction_dir (fst s)) None) (trace (cut s))).
Proof.
  run_cut s.
  all: intros Hin; in_cases Hin.
  all: match goal with
       | H : cleared _ _ _ _ |- _ =>
           destruct H as [[Hno ->]|(Hyes & Hrm & Hev)]
       end.
  all: split;
    [ first [assumption | exact (rmtree_gone _ _ _ Hrm)]
    | first [ intros Hc; rewrite Hno in Hc; discriminate Hc
            | intros _; repeat apply in_cons; repeat (apply in_or_app; left); exact Hev ] ].
Qed.

End With_laws.

End Pipeline_properties.

Lemma append_nil (b : string) : EmptyString +:+ b = b.
Proof. reflexivity. Qed.

Lemma append_cons c (a b : string) : String c a +:+ b = String c (a +:+ b).
Proof. reflexivity. Qed.

Ltac ssimpl := rewrite ?append_cons, ?append_nil; simpl.

(** ** Facts about paths *)

Lemma app_empty_r (s : string) : s +:+ EmptyString = s.
Proof. induction s as [|c s IH]; ssimpl; [reflexivity|]. f_equal. exact IH. Qed.

Lemma app_assoc_str (a b c : string) : (a +:+ b) +:+ c = a +:+ (b +:+ c).
Proof. induction a as [|x a IH]; ssimpl; [reflexivity|]. f_equal. exact IH. Qed.

Lemma str_mem_app c a b : str_mem c (a +:+ b) = str_mem c a || str_mem c b.
Proof.
  induction a as [|x a IH]; ssimpl; [reflexivity|].
  rewrite IH. apply orb_assoc.
Qed.

Lemma rsplit_after_none c n : str_mem c n = false -> rsplit_after c n = (EmptyString, n).
Proof.
  destruct n as [|d r]; ssimpl; [reflexivity|].
  intros H. apply orb_false_iff in H as [Hd Hr]. rewrite Hr, Hd. reflexivity.
Qed.

Lemma rsplit_after_app c x n :
  str_mem c n = false ->
  rsplit_after c (x +:+ String c n) = (x +:+ String c EmptyString, n).
Proof.
  intros Hn. induction x as [|d x IH]; ssimpl.
  - rewrite Hn, Ascii.eqb_refl. reflexivity.
  - rewrite str_mem_app. ssimpl. rewrite Ascii.eqb_refl, orb_true_r. ssimpl.
    rewrite IH. reflexivity.
Qed.

(** The tail of a split holds no separator. *)
Lemma rsplit_after_tail c p : str_mem c (snd (rsplit_after c p)) = false.
Proof.
  induction p as [|d r IH]; ssimpl; [reflexivity|].
  destruct (str_mem c r) eqn:Hr; ssimpl; [exact IH|].
  destruct (Ascii.eqb d c) eqn:Hd; ssimpl; [exact Hr|].
  rewrite Hd, Hr. reflexivity.
Qed.

Lemma basename_no_sep p : str_mem sep (path.basename p) = false.
Proof. apply rsplit_after_tail. Qed.

Lemma rsplit_at_app c t a b : rsplit_at c t = Some (a, b) -> t = a +:+ b.
Proof.
  revert a b. induction t as [|d r IH]; ssimpl; [discriminate|].
  intros a b. destruct (rsplit_at c r) as [[a' b']|].
  - intros [= <- <-]. ssimpl. f_equal. apply IH. reflexivity.
  - destruct (Ascii.eqb d c); [|discriminate]. intros [= <- <-]. reflexivity.
Qed.

(** The root of a name is an initial part of it, so it holds no separator
    when the name holds none, and it is not empty unless the name is. *)
Lemma splitext_name_root t :
  exists ext, t = fst (path.splitext_name t) +:+ ext.
Proof.
  unfold path.splitext_name.
  destruct (rsplit_at extsep t) as [[a b]|] eqn:E.
  - destruct (str_all extsep a).
    + exists EmptyString. ssimpl. symmetry. apply app_empty_r.
    + exists b. ssimpl. exact (rsplit_at_app _ _ _ _ E).
  - exists EmptyString. ssimpl. symmetry. apply app_empty_r.
Qed.

Lemma splitext_name_nonempty t :
  t <> EmptyString -> fst (path.splitext_name t) <> EmptyString.
Proof.
  unfold path.splitext_name. intros Ht.
  destruct (rsplit_at extsep t) as [[a b]|]; [|exact Ht].
  destruct (str_all extsep a) eqn:Ha; [exact Ht|].
  ssimpl. intros ->. discriminate Ha.
Qed.

Lemma splitext_no_sep t :
  str_mem sep t = false ->
  path.splitext t = path.splitext_name t
  /\ str_mem sep (fst (path.splitext t)) = false.
Proof.
  intros Ht. unfold path.splitext. rewrite (rsplit_after_none _ _ Ht).
  destruct (path.splitext_name t) as [root ext] eqn:E. ssimpl. split; [reflexivity|].
  destruct (splitext_name_root t) as [ext' Hroot]. rewrite E in Hroot. rewrite ?append_cons, ?append_nil in *; simpl in Hroot.
  rewrite Hroot, str_mem_app in Ht. apply orb_false_iff in Ht. tauto.
Qed.

Lemma stem_no_sep p : str_mem sep (stem p) = false.
Proof. apply splitext_no_sep, basename_no_sep. Qed.

Lemma stem_nonempty p : path.basename p <> EmptyString -> stem p <> EmptyString.
Proof.
  intros H. unfold stem.
  rewrite (proj1 (splitext_no_sep _ (basename_no_sep p))).
  apply splitext_name_nonempty, H.
Qed.

Lemma endswith_app c a d b : endswith c (a +:+ String d b) = endswith c (String d b).
Proof.
  induction a as [|x a IH]; [reflexivity|].
  rewrite ?append_cons, ?append_nil. rewrite <- IH.
  destruct a; reflexivity.
Qed.

Lemma endswith_mem c s : endswith c s = true -> str_mem c s = true.
Proof.
  induction s as [|d r IH]; ssimpl; [discriminate|].
  destruct r as [|e r']; [intros ->; reflexivity|].
  intros H. rewrite (IH H). apply orb_true_r.
Qed.

Lemma rstrip_app_sep c d :
  d <> EmptyString -> endswith c d = false -> rstrip c (d +:+ String c EmptyString) = d.
Proof.
  induction d as [|x d IH]; [congruence|]. intros _ H.
  destruct d as [|y d'].
  - simpl in *. rewrite H, Ascii.eqb_refl. reflexivity.
  - change (endswith c (String x (String y d'))) with (endswith c (String y d')) in H.
    rewrite append_cons. change (rstrip c (String x ?r)) with
      (if Ascii.eqb x c && str_empty (rstrip c r) then EmptyString
       else String x (rstrip c r)).
    rewrite IH by (congruence || exact H).
    rewrite andb_false_r. reflexivity.
Qed.

Lemma str_all_app c a b : str_all c (a +:+ b) = str_all c a && str_all c b.
Proof.
  induction a as [|x a IH]; ssimpl; [reflexivity|].
  rewrite IH. apply andb_assoc.
Qed.

Lemma str_all_endswith c d : d <> EmptyString -> str_all c d = true -> endswith c d = true.
Proof.
  induction d as [|x d IH]; [congruence|]. intros _ H. rewrite ?append_cons, ?append_nil in *; simpl in H.
  apply andb_true_iff in H as [Hx Hd].
  destruct d as [|y d']; [exact Hx|].
  change (endswith c (String x (String y d'))) with (endswith c (String y d')).
  apply IH; [congruence|exact Hd].
Qed.

Lemma endswith_rstrip c s : endswith c (rstrip c s) = false.
Proof.
  induction s as [|d r IH]; [reflexivity|]. ssimpl.
  destruct (Ascii.eqb d c) eqn:Hd; ssimpl.
  - destruct (rstrip c r) as [|e r'] eqn:E; ssimpl; [reflexivity|].
    exact IH.
  - destruct (rstrip c r) as [|e r'] eqn:E; ssimpl; [exact Hd|exact IH].
Qed.

Lemma rstrip_nonempty c s : str_all c s = false -> rstrip c s <> EmptyString.
Proof.
  induction s as [|d r IH]; ssimpl; [discriminate|].
  destruct (Ascii.eqb d c) eqn:Hd; ssimpl; [|discriminate].
  intros H. specialize (IH H).
  destruct (rstrip c r); [congruence|discriminate].
Qed.

Lemma dirname_shaped p : dir_shaped (path.dirname p).
Proof.
  unfold path.dirname, path.split, dir_shaped.
  destruct (rsplit_after sep p) as [head tail]. ssimpl.
  destruct head as [|c h]; ssimpl; [left; reflexivity|].
  destruct (Ascii.eqb c sep && str_all sep h) eqn:E; ssimpl.
  - right. left. exact E.
  - right. right. apply (endswith_rstrip sep (String c h)).
Qed.

Lemma join_no_sep d n : str_mem sep n = false -> path.join d n = join_head d +:+ n.
Proof.
  intros Hn. unfold path.join, join_head.
  destruct n as [|c n']; ssimpl.
  - destruct (str_empty d || endswith sep d); [reflexivity|].
    rewrite app_assoc_str. reflexivity.
  - rewrite ?append_cons, ?append_nil in *; simpl in Hn. apply orb_false_iff in Hn as [Hc _]. rewrite Hc.
    destruct (str_empty d || endswith sep d); [reflexivity|].
    rewrite app_assoc_str. reflexivity.
Qed.

Lemma rsplit_after_all c d n :
  d <> EmptyString -> str_all c d = true -> str_mem c n = false ->
  rsplit_after c (d +:+ n) = (d, n).
Proof.
  intros Hd Hall Hn.
  assert (exists x, d = x +:+ String c EmptyString) as [x ->].
  { clear Hn. induction d as [|y d IH]; [congruence|]. rewrite ?append_cons, ?append_nil in *; simpl in Hall.
    apply andb_true_iff in Hall as [Hy Hall]. apply Ascii.eqb_eq in Hy. subst y.
    destruct d as [|z d'].
    - exists EmptyString. reflexivity.
    - destruct IH as [x Hx]; [congruence|exact Hall|].
      exists (String c x). ssimpl. f_equal. exact Hx. }
  rewrite app_assoc_str. ssimpl. apply rsplit_after_app, Hn.
Qed.

(** A file joined to a directory name lies in that directory. *)
Lemma dirname_join d n :
  dir_shaped d -> str_mem sep n = false -> path.dirname (path.join d n) = d.
Proof.
  intros Hd Hn. rewrite (join_no_sep d n Hn). unfold join_head.
  unfold path.dirname, path.split.
  destruct d as [|c d']; [ssimpl; rewrite (rsplit_after_none _ _ Hn); reflexivity|].
  assert (Hne : String c d' <> EmptyString) by discriminate.
  cbn [str_empty orb].
  destruct Hd as [Hd|[Hd|Hd]]; [discriminate| |].
  - rewrite (str_all_endswith sep _ Hne Hd).
    rewrite (rsplit_after_all sep _ n Hne Hd Hn).
    cbn [fst]. rewrite Hd. reflexivity.
  - rewrite Hd. rewrite app_assoc_str.
    replace (String sep EmptyString +:+ n) with (String sep n) by reflexivity.
    rewrite (rsplit_after_app sep (String c d') n Hn). cbn [fst].
    assert (str_all sep (String c d' +:+ String sep EmptyString) = false) as Hall.
    { rewrite str_all_app.
      destruct (str_all sep (String c d')) eqn:E; [|reflexivity].
      rewrite (str_all_endswith sep _ Hne E) in Hd. discriminate Hd. }
    rewrite Hall. rewrite append_cons. cbn [str_empty negb andb].
    rewrite <- append_cons.
    apply (rstrip_app_sep sep (String c d')); [discriminate|exact Hd].
Qed.

(** ** What a method leaves of the object *)

Section Preserves.
Context {world : Type} {O : OS world}.
Context (R : relation Interceptra) {HR : PreOrder R}.

Lemma preserves_bind {A B} (m : @method world A) (k : A -> @method world B) :
  preserves R m -> (forall a, preserves R (k a)) -> preserves R (bind m k).
Proof.
  intros Hm Hk s. specialize (Hm s). unfold bind, final in *.
  destruct (m s) as [[[a|e] s1] t1]; simpl in *; [|exact Hm].
  specialize (Hk a s1). unfold final in Hk.
  destruct (k a s1) as [[r s2] t2]; simpl in *.
  etransitivity; eassumption.
Qed.

Lemma preserves_try_of {A} classes (m : @method world A) (h : exn -> @method world A) :
  preserves R m -> (forall e, preserves R (h e)) -> preserves R (try_except_of classes m h).
Proof.
  intros Hm Hh s. specialize (Hm s). unfold try_except_of, final in *.
  destruct (m s) as [[[a|e] s1] t1]; simpl in *; [exact Hm|].
  destruct (classes e); [|exact Hm].
  specialize (Hh e s1). unfold final in Hh.
  destruct (h e s1) as [[r s2] t2]; simpl in *.
  etransitivity; eassumption.
Qed.

Lemma preserves_try {A} (m : @method world A) (h : exn -> @method world A) :
  preserves R m -> (forall e, preserves R (h e)) -> preserves R (try_except m h).
Proof.
  intros Hm Hh s. specialize (Hm s). unfold try_except, final in *.
  destruct (m s) as [[[a|e] s1] t1]; simpl in *; [exact Hm|].
  specialize (Hh e s1). unfold final in Hh.
  destruct (h e s1) as [[r s2] t2]; simpl in *.
  etransitivity; eassumption.
Qed.

Lemma preserves_inert {A} (m : @method world A) : inert (world := world) m -> preserves R m.
Proof. intros H s. rewrite H. reflexivity. Qed.

Lemma inert_ret {A} (a : A) : inert (world := world) (ret a).
Proof. intros s. reflexivity. Qed.

Lemma inert_raise {A} e : inert (world := world) (@raise world _ A e).
Proof. intros s. reflexivity. Qed.

Lemma inert_print l : inert (world := world) (print l).
Proof. intros s. reflexivity. Qed.

Lemma inert_this : inert (world := world) this.
Proof. intros s. reflexivity. Qed.

Lemma inert_exists p : inert (world := world) (os_path_exists p).
Proof. intros s. reflexivity. Qed.

Lemma inert_isfile p : inert (world := world) (os_path_isfile p).
Proof. intros s. reflexivity. Qed.

Lemma inert_getsize p : inert (world := world) (os_path_getsize p).
Proof. intros s. reflexivity. Qed.

Lemma inert_rmtree p : inert (world := world) (shutil_rmtree p).
Proof. intros [self w]. unfold shutil_rmtree, final. simpl. destruct (sys_rmtree p w). reflexivity. Qed.

Lemma inert_remove p : inert (world := world) (os_remove p).
Proof. intros [self w]. unfold os_remove, final. simpl. destruct (sys_remove p w). reflexivity. Qed.

Lemma inert_makedirs p : inert (world := world) (os_makedirs p).
Proof. intros [self w]. unfold os_makedirs, final. simpl. destruct (sys_makedirs p w). reflexivity. Qed.

Lemma inert_write p c : inert (world := world) (write_file p c).
Proof. intros [self w]. unfold write_file, final. simpl. destruct (sys_write p c w). reflexivity. Qed.

Lemma inert_parse p : inert (world := world) (ElementTree_parse p).
Proof. intros s. reflexivity. Qed.

Lemma inert_popen c : inert (world := world) (subprocess_Popen c).
Proof. intros [self w]. unfold subprocess_Popen, final. simpl. destruct (sys_run c w). reflexivity. Qed.

End Preserves.

Ltac preserve_step :=
  first
    [ apply preserves_bind; [exact _| |intros ?]
    | apply preserves_try; [exact _| |intros ?]
    | apply preserves_try_of; [exact _| |intros ?]
    | apply preserves_inert;
      [ exact _
      | first [ apply inert_ret | apply inert_raise | apply inert_print
              | apply inert_this | apply inert_exists | apply inert_isfile
              | apply inert_getsize | apply inert_rmtree | apply inert_remove
              | apply inert_makedirs | apply inert_write | apply inert_parse
              | apply inert_popen ] ]
    | match goal with
      | |- preserves _ (when ?b _) => unfold when; destruct b
      | |- preserves _ (if ?b then _ else _) => destruct b
      | |- preserves _ (match ?x with _ => _ end) => destruct x
      | |- preserves _ (subprocess_run_check _) => unfold subprocess_run_check
      end ].

Ltac preserve := repeat preserve_step.

Section Object_facts.
Context {world : Type} {O : OS world}.

Lemma check_tools_inert items : forall missing_tools,
  preserves eq (check_tools (world := world) items missing_tools).
Proof.
  induction items as [|[tool path] rest IH]; intros missing_tools;
    cbn [check_tools].
  - preserve.
  - destruct (String.eqb tool "apktool" || String.eqb tool "keystore"); [apply IH|].
    preserve; apply IH.
Qed.

Lemma print_tool_paths_inert items :
  preserves eq (print_tool_paths (world := world) items).
Proof.
  induction items as [|[tool path] rest IH]; cbn [print_tool_paths]; preserve.
  exact IH.
Qed.

Lemma check_dependencies_inert : preserves eq (_check_dependencies (world := world)).
Proof.
  unfold _check_dependencies. preserve.
  - apply check_tools_inert.
  - apply print_tool_paths_inert.
Qed.

#[local] Instance same_paths_preorder : PreOrder same_paths.
Proof.
  split.
  - intros a. unfold same_paths. tauto.
  - intros a b c (H1 & H2 & H3 & H4 & H5) (K1 & K2 & K3 & K4 & K5).
    unfold same_paths. repeat split; etransitivity; eassumption.
Qed.

Lemma init_constructed apk0 verbose0 tools0 keep0 (w : world) self w' t :
  __init__ apk0 verbose0 tools0 keep0 w = (Return self, w', t) ->
  constructed self
  /\ (path.isabs (sys_expanduser apk0 w) = true ->
      apk self = path.normpath (sys_expanduser apk0 w))
  /\ (forall cwd, sys_getcwd w = inr cwd ->
      apk self = path.abspath cwd (sys_expanduser apk0 w)).
Proof.
  unfold __init__, path.abspath. unfold bind at 1. unfold os_path_expanduser at 1.
  cbn [world_of world_has_world].
  unfold bind at 1. unfold os_path_abspath at 1.
  destruct (path.isabs (sys_expanduser apk0 w)) eqn:Habs.
  - unfold ret at 1. unfold bind at 1. unfold call at 1.
    match goal with |- context [_check_dependencies (?x, w)] =>
      pose proof (check_dependencies_inert (x, w)) as H; unfold final in H;
      destruct (_check_dependencies (x, w)) as [[[a|e] [self' w1]] t1]; simpl in H
    end; [|discriminate].
    unfold ret. simpl. intros [= <- <- <-]. subst self'.
    unfold constructed, working_paths, stem. simpl. auto.
  - unfold bind at 1. unfold os_getcwd at 1. cbn [world_of world_has_world].
    destruct (sys_getcwd w) as [e|cwd] eqn:Hcwd; simpl; [discriminate|].
    unfold bind at 1. unfold call at 1.
    match goal with |- context [_check_dependencies (?x, w)] =>
      pose proof (check_dependencies_inert (x, w)) as H; unfold final in H;
      destruct (_check_dependencies (x, w)) as [[[a|e] [self' w1]] t1]; simpl in H
    end; [|discriminate].
    unfold ret. simpl. intros [= <- <- <-]. subst self'.
    unfold constructed, working_paths, stem. simpl.
    repeat split; try discriminate. intros cwd' [= <-]. reflexivity.
Qed.

Lemma run_command_inert c d check : preserves eq (_run_command (world := world) c d check).
Proof. unfold _run_command. preserve. Qed.

Lemma set_compile_sdk_same_paths v :
  preserves same_paths (set_compile_sdk (world := world) v).
Proof. intros [self w]. unfold same_paths. simpl. tauto. Qed.

Lemma pipeline_same_paths :
  preserves same_paths (cut (world := world))
  /\ preserves same_paths (cut_stages (world := world)).
Proof.
  split.
  all: unfold cut, cut_stages, cut_verify, _decompile_apk, _add_network_file,
    _add_network_attribute_to_manifest, _check_compile_sdk_version, _repackage_apk,
    _zipalign_apk, _apksign_apk, _jarsign_apk, _cleanup_files, _run_command.
  all: preserve.
  all: apply set_compile_sdk_same_paths.
Qed.

End Object_facts.

Section Path_properties.
Context {world : Type} {O : OS world}.

(** C7. The three working paths are fixed by the constructor from the
    absolute path of the bundle: the extraction directory, the intermediate
    archive and the final archive are the directory of the bundle joined with
    its stem, its stem followed by [_patched.apk] and its stem followed by
    [_patched_zipaligned.apk]; each of them lies in the directory of the
    bundle; and a run of [cut] leaves all three as they are. *)
Theorem working_paths_are_fixed apk0 verbose0 tools0 keep0 (w : world) self :
  value (__init__ apk0 verbose0 tools0 keep0 w) = Return self ->
  let dir := path.dirname (apk self) in
  let base := fst (path.splitext (path.basename (apk self))) in
  (path.isabs (sys_expanduser apk0 w) = true ->
   apk self = path.normpath (sys_expanduser apk0 w))
  /\ (forall cwd, sys_getcwd w = inr cwd ->
      apk self = path.abspath cwd (sys_expanduser apk0 w))
  /\ working_paths self
     = (path.join dir base, path.join dir (base +:+ "_patched.apk"),
        path.join dir (base +:+ "_patched_zipaligned.apk"))
  /\ path.dirname (extraction_dir self) = dir
  /\ path.dirname (patched_apk self) = dir
  /\ path.dirname (zipaligned_apk self) = dir
  /\ (forall w1, working_paths (fst (final (cut (self, w1)))) = working_paths self).
Proof.
  intros Hinit dir base.
  destruct (__init__ apk0 verbose0 tools0 keep0 w) as [[r w'] t] eqn:E.
  unfold value in Hinit. simpl in Hinit. subst r.
  destruct (init_constructed _ _ _ _ _ _ _ _ E) as ((_ & _ & Hpaths) & Habs & Hcwd).
  subst dir base. fold (stem (apk self)).
  split; [exact Habs|]. split; [exact Hcwd|]. split; [exact Hpaths|].
  unfold working_paths in Hpaths. injection Hpaths as He Hp Hz.
  assert (Hbase : str_mem sep (stem (apk self)) = false) by apply stem_no_sep.
  repeat split.
  - rewrite He. apply dirname_join; [apply dirname_shaped|exact Hbase].
  - rewrite Hp. apply dirname_join; [apply dirname_shaped|].
    rewrite str_mem_app, Hbase. reflexivity.
  - rewrite Hz. apply dirname_join; [apply dirname_shaped|].
    rewrite str_mem_app, Hbase. reflexivity.
  - intros w1. destruct (proj1 pipeline_same_paths (self, w1)) as (_ & _ & _ & H & _).
    symmetry. exact H.
Qed.

End Path_properties.

Section Entry_properties.
Context {world : Type} {O : OS world}.
Implicit Types s : Interceptra * world.

(** C2. The detect stage never raises.  It parses the manifest of the
    extraction directory and looks up the attribute [compileSdkVersion] of
    the Android namespace on its top-level element.  It sets the platform
    version to the integer that [int] makes of the value when the attribute
    is there and [int] returns, and to 30 when the attribute is absent, when
    [int] raises on its value, and when the manifest cannot be parsed. *)
Theorem detect_version_defaults_to_30 s :
  let manifest := path.join (extraction_dir (fst s)) "AndroidManifest.xml" in
  let attribute := "{http://schemas.android.com/apk/res/android}compileSdkVersion" in
  let sets v :=
    exists t,
      _check_compile_sdk_version s
      = (Return tt, (assign_compile_sdk v (fst s), snd s), t) in
  (exists v, sets v)
  /\ (forall root text n,
        sys_parse_xml manifest (snd s) = inr root ->
        attrib_of root !! attribute = Some text ->
        builtins_int text = Some n ->
        sets n)
  /\ (forall root,
        sys_parse_xml manifest (snd s) = inr root ->
        attrib_of root !! attribute = None ->
        sets 30)
  /\ (forall root text,
        sys_parse_xml manifest (snd s) = inr root ->
        attrib_of root !! attribute = Some text ->
        builtins_int text = None ->
        sets 30)
  /\ (forall e,
        sys_parse_xml manifest (snd s) = inl e ->
        sets 30).
Proof.
  intros manifest attribute sets.
  destruct (check_compile_sdk_version_cases s) as (t & E & _).
  assert (Hsets : sets (detected_version (fst s) (snd s))) by (exists t; exact E).
  clear t E. revert Hsets.
  unfold detected_version, manifest_path.
  change (android_ns +:+ "compileSdkVersion") with attribute.
  fold manifest. intros Hsets.
  split; [eexists; exact Hsets|].
  repeat split; intros.
  all: repeat match goal with
              | H : _ = _ |- _ => rewrite H in Hsets; clear H
              end.
  all: exact Hsets.
Qed.

(** A bundle path that does not exist or is not a regular file is rejected
    where the pipeline is entered: [cut] returns [False] at once, having
    done nothing but test the path and print the error, and [main] returns
    1 before it builds the object. *)
Lemma missing_input_at_entry s argv args w :
  (path_isfile (apk (fst s)) (snd s) = false ->
   cut s
   = (Return false, s,
      [Stat (apk (fst s));
       Console [Txt "[!] Error: APK file not found: "; Txt (apk (fst s))]]))
  /\ (handle_args argv = inr args ->
      path_isfile (sys_expanduser (args_apk args) w) w = false ->
      main argv w
      = (Return (Returned 1), w,
         [Console [Txt "[+] Interceptra v"; Txt VERSION];
          Stat (sys_expanduser (args_apk args) w);
          Console [Txt "Error: APK file not found: ";
                   Txt (sys_expanduser (args_apk args) w)]])).
Proof.
  split.
  - destruct s as [self w0]. simpl. intros H.
    unfold cut, bind, this, os_path_isfile, print, ret. simpl.
    rewrite H. reflexivity.
  - intros Hargs H. unfold main. rewrite Hargs.
    unfold bind, os_path_expanduser, os_path_isfile, print, ret. simpl.
    rewrite H. reflexivity.
Qed.






End Entry_properties.

(** ** The working paths are apart from one another *)

Lemma prefix_cons a s1 b s2 :
  String.prefix (String a s1) (String b s2)
  = (if ascii_dec a b then String.prefix s1 s2 else false).
Proof. reflexivity. Qed.

Lemma prefix_app_cancel (a b c : string) :
  String.prefix (a +:+ b) (a +:+ c) = String.prefix b c.
Proof.
  induction a as [|x a IH]; [reflexivity|].
  rewrite !append_cons, prefix_cons. destruct (ascii_dec x x); [exact IH|congruence].
Qed.

Lemma length_app (a b : string) :
  String.length (a +:+ b) = (String.length a + String.length b)%nat.
Proof.
  induction a as [|x a IH]; [reflexivity|].
  rewrite append_cons. simpl. rewrite IH. reflexivity.
Qed.

Lemma app_not_longer (a : string) c r : a <> a +:+ String c r.
Proof.
  intros H. apply (f_equal String.length) in H.
  rewrite length_app in H. simpl in H. lia.
Qed.

Lemma no_sep_endswith n : str_mem sep n = false -> endswith sep n = false.
Proof.
  intros H. destruct (endswith sep n) eqn:E; [|reflexivity].
  rewrite (endswith_mem _ _ E) in H. discriminate H.
Qed.

(** A name joined to a directory is neither a longer name joined to it nor
    a directory above that one. *)
Lemma join_apart d n c r :
  n <> EmptyString -> str_mem sep n = false ->
  Ascii.eqb c sep = false -> str_mem sep r = false ->
  inside (path.join d n) (path.join d (n +:+ String c r)) = false.
Proof.
  intros Hne Hn Hc Hr.
  assert (Hlong : str_mem sep (n +:+ String c r) = false).
  { rewrite str_mem_app, Hn. simpl. rewrite Hc, Hr. reflexivity. }
  rewrite (join_no_sep d n Hn), (join_no_sep d _ Hlong).
  unfold inside. apply orb_false_iff. split.
  - apply String.eqb_neq. intros H. apply String.app_inj in H.
    exact (app_not_longer _ _ _ H).
  - destruct n as [|x n']; [congruence|].
    rewrite endswith_app, (no_sep_endswith _ Hn).
    rewrite !app_assoc_str, !prefix_app_cancel.
    rewrite ?append_nil, prefix_cons.
    destruct (ascii_dec sep c) as [E|]; [|reflexivity].
    rewrite <- E, Ascii.eqb_refl in Hc. discriminate Hc.
Qed.

Lemma join_inj d n m :
  str_mem sep n = false -> str_mem sep m = false ->
  path.join d n = path.join d m -> n = m.
Proof.
  intros Hn Hm. rewrite (join_no_sep d n Hn), (join_no_sep d m Hm).
  apply String.app_inj.
Qed.

Lemma paths_apart self :
  constructed self -> path.basename (apk self) <> EmptyString ->
  inside (extraction_dir self) (zipaligned_apk self) = false
  /\ inside (extraction_dir self) (patched_apk self) = false
  /\ patched_apk self <> zipaligned_apk self
  /\ patched_apk self <> extraction_dir self.
Proof.
  intros (_ & _ & Hpaths) Hbase.
  unfold working_paths in Hpaths. injection Hpaths as He Hp Hz.
  rewrite He, Hp, Hz.
  pose proof (stem_no_sep (apk self)) as Hn.
  pose proof (stem_nonempty (apk self) Hbase) as Hne.
  assert (forall r, str_mem sep r = false ->
            str_mem sep (stem (apk self) +:+ r) = false) as Hmem.
  { intros r Hr. rewrite str_mem_app, Hn, Hr. reflexivity. }
  repeat split.
  - apply join_apart; auto.
  - apply join_apart; auto.
  - intros H. apply join_inj in H; [|apply Hmem; reflexivity..].
    apply String.app_inj in H. discriminate H.
  - intros H. apply join_inj in H; [|apply Hmem; reflexivity|exact Hn].
    symmetry in H. exact (app_not_longer _ _ _ H).
Qed.

Section Cleanup.
Context {world : Type} {O : OS world} {Laws : OSLaws O}.

(** What [_cleanup_files] does to the three working paths. *)
Lemma cleanup_files_spec self (w : world) :
  constructed self -> path.basename (apk self) <> EmptyString ->
  exists w2 t2,
    _cleanup_files (self, w) = (Return tt, (self, w2), t2)
    /\ sys_stat (zipaligned_apk self) w2 = sys_stat (zipaligned_apk self) w
    /\ (forall e, In (Rmtree (extraction_dir self) (Some e)) t2 ->
        In (directory_warning e) t2)
    /\ (forall e, In (Remove (patched_apk self) (Some e)) t2 ->
        In (file_warning e) t2)
    /\ ((forall e, ~ In (Rmtree (extraction_dir self) (Some e)) t2) ->
        path_exists (extraction_dir self) w2 = false)
    /\ ((forall e, ~ In (Remove (patched_apk self) (Some e)) t2) ->
        path_exists (patched_apk self) w2 = false).
Proof.
  intros Hc Hb.
  destruct (paths_apart self Hc Hb) as (Hez & Hep & Hpz & Hpe).
  apply String.eqb_neq in Hpz as Hpz'.
  unfold _cleanup_files, directory_warning, file_warning. open_calls.
  simpl. rewrite Hpz'. exec.
  all: repeat match goal with
       | H : sys_rmtree ?p ?w0 = (?r, ?w1) |- _ =>
           pose proof (rmtree_frame _ _ w0 Hez) as Fz;
           pose proof (rmtree_frame _ _ w0 Hep) as Fp;
           pose proof (rmtree_gone p w0 w1) as Ge;
           rewrite H in Fz, Fp; simpl in Fz, Fp;
           revert H
       end; intros.
  all: repeat match goal with
       | H : sys_remove ?p ?w1 = (_, ?w2) |- _ =>
           pose proof (remove_frame _ _ w1 Hpz) as Rz;
           pose proof (remove_frame _ _ w1 Hpe) as Re;
           pose proof (remove_gone p w1 w2) as Gp;
           rewrite H in Rz, Re; simpl in Rz, Re;
           revert H
       end; intros.
  all: do 2 eexists; split; [reflexivity|].
  all: unfold path_exists in *.
  all: split; [congruence|].
  all: split; [intros e' Hin; simpl in Hin |- *;
               repeat (destruct Hin as [Hin|Hin]; try discriminate Hin);
               try contradiction; injection Hin as <-; tauto|].
  all: split; [intros e' Hin; simpl in Hin |- *;
               repeat (destruct Hin as [Hin|Hin]; try discriminate Hin);
               try contradiction; injection Hin as <-; tauto|].
  all: split; intros Hno.
  all: try (exfalso; eapply Hno; simpl; tauto).
  all: try (apply Gp; assumption).
  all: rewrite ?Re.
  all: try (apply Ge; assumption).
  all: match goal with
       | |- match ?x with _ => _ end = false =>
           destruct x eqn:?; [reflexivity|congruence]
       end.
Qed.

Lemma cut_stages_final (s : Interceptra * world) final_apk s1 t1 :
  cut_stages s = (Return final_apk, s1, t1) ->
  final_apk = zipaligned_apk (fst s) /\ same_paths (fst s) (fst s1).
Proof.
  intros H. split.
  - revert H. destruct s as [self w]. unfold cut_stages. open_calls.
    exec_cut; unassign; intros [= <- <- <-]; reflexivity.
  - pose proof (proj2 pipeline_same_paths s) as P. unfold final in P.
    rewrite H in P. exact P.
Qed.

(** C9. After a run whose stages succeeded and whose final artifact is in
    place, with retention not requested: cleanup never raises, [cut] returns
    [True] whether or not the removals succeeded, and the final artifact is
    as it was before cleanup.  A removal that raises is reported by a warning
    line; the extraction directory and the intermediate archive are gone
    unless their removal raised. *)
Theorem cleanup_is_advisory (s : Interceptra * world) final_apk :
  let s1 := final (cut_stages s) in
  constructed (fst s) ->
  path.basename (apk (fst s)) <> EmptyString ->
  keep_files (fst s) = false ->
  path_isfile (apk (fst s)) (snd s) = true ->
  value (cut_stages s) = Return final_apk ->
  path_exists final_apk (snd s1) = true ->
  exists w2 t2,
    _cleanup_files s1 = (Return tt, (fst s1, w2), t2)
    /\ value (cut s) = Return true
    /\ snd (final (cut s)) = w2
    /\ final_apk = zipaligned_apk (fst s)
    /\ sys_stat final_apk w2 = sys_stat final_apk (snd s1)
    /\ (forall e, In (Rmtree (extraction_dir (fst s)) (Some e)) t2 ->
        In (directory_warning e) t2)
    /\ (forall e, In (Remove (patched_apk (fst s)) (Some e)) t2 ->
        In (file_warning e) t2)
    /\ ((forall e, ~ In (Rmtree (extraction_dir (fst s)) (Some e)) t2) ->
        path_exists (extraction_dir (fst s)) w2 = false)
    /\ ((forall e, ~ In (Remove (patched_apk (fst s)) (Some e)) t2) ->
        path_exists (patched_apk (fst s)) w2 = false).
Proof.
  intros s1 Hc Hb Hkeep Hfile Hvalue Hfinal. subst s1.
  destruct (cut_stages s) as [[r s1] t1] eqn:Hstages.
  unfold value, final in Hvalue, Hfinal |- *. simpl in Hvalue, Hfinal |- *. subst r.
  destruct (cut_stages_final _ _ _ _ Hstages) as (-> & Ha & Hn & Ho & Hp & Hk).
  destruct s as [self w], s1 as [self1 w1]. simpl in *.
  assert (Hc1 : constructed self1).
  { destruct Hc as (C1 & C2 & C3). unfold constructed.
    rewrite <- Ha, <- Hn, <- Ho, <- Hp. auto. }
  assert (Hb1 : path.basename (apk self1) <> EmptyString) by (rewrite <- Ha; exact Hb).
  destruct (cleanup_files_spec self1 w1 Hc1 Hb1) as (w2 & t2 & Hclean & Fz & W1 & W2 & G1 & G2).
  unfold working_paths in Hp. injection Hp as He Hpa Hz.
  rewrite <- He, <- Hpa, <- Hz in *.
  exists w2, t2. split; [exact Hclean|].
  assert (Hcut : exists t, cut (self, w) = (Return true, (self1, w2), t)).
  { unfold cut. unfold bind, this, os_path_isfile, try_except, print, ret. simpl.
    rewrite Hfile. simpl. rewrite Hstages.
    unfold cut_verify. unfold bind, this, os_path_exists, when, os_path_getsize,
      print, ret. simpl.
    rewrite Hfinal. rewrite <- Hk, Hkeep. simpl. rewrite Hclean. simpl.
    unfold path_exists in Hfinal. rewrite Fz.
    destruct (sys_stat (zipaligned_apk self) w1); [discriminate|].
    eexists. reflexivity. }
  destruct Hcut as [t Hcut]. rewrite Hcut. simpl.
  repeat split; auto.
Qed.

End Cleanup.

(** * Further properties of the code *)

Section Command_runner.
Context {world : Type} {O : OS world}.
Implicit Types s : Interceptra * world.

(** X1. [_run_command] with [check=False] never raises: the command is
    started once; when it cannot be started the exception is returned as a
    value, and otherwise its exit status, zero or not, comes back in the
    result. *)
Theorem run_command_unchecked_returns c description s :
  exists pre post,
    quiet pre = true /\ quiet post = true
    /\ _run_command c description false s
       = (Return match fst (sys_run c (snd s)) with
                 | inl e => Caught e
                 | inr p => CommandResult (returncode p) (stdout p) (stderr p)
                 end,
          (fst s, snd (sys_run c (snd s))),
          pre ++ Run c (snd s) (fst (sys_run c (snd s))) (snd (sys_run c (snd s)))
              :: post).
Proof.
  destruct s as [self w]. cbn [fst snd].
  destruct (sys_run c w) as [[e|p] w2] eqn:Hrun; cbn [fst snd].
  all: unfold _run_command; open_calls; simpl.
  all: destruct (verbose self); simpl; rewrite Hrun; simpl.
  all: match goal with
       | |- context [(?a1, (?b1, ?c1), ?t)] =>
           let p := before_run t in
           exists p;
           lazymatch from_run t with
           | Run _ _ _ _ :: ?rest => exists rest
           end
       end.
  all: repeat split; reflexivity.
Qed.

(** X2. A command that ends with a non-zero status under [check=True] is
    reported twice: the check prints the status (and the error output when
    there is some) after [Done], and the [CommandError] it raises is caught
    by the handler of the same function, which prints [Failed] and the
    error before raising it again. *)
Theorem failed_command_is_reported_twice c description s p w2 :
  sys_run c (snd s) = (inr p, w2) ->
  returncode p <> 0 ->
  let e := CommandError (returncode p) (stdout p) (stderr p) in
  exists pre,
    quiet pre = true
    /\ _run_command c description true s
       = (Raise e, (fst s, w2),
          pre ++ [Run c (snd s) (inr p) w2;
                  Console [Txt (backspace +:+ "Done")];
                  Console [Txt "[!] "; Txt "Command failed with return code ";
                           Int (returncode p)]]
              ++ (if str_empty (stderr p) then []
                  else [Console [Txt "    Error output: "; Txt (strip (stderr p))]])
              ++ [Console [Txt (backspace +:+ "Failed")];
                  Console [Txt "[!] Error executing command: "; Str e]]).
Proof.
  intros Hrun Hrc e. subst e.
  destruct s as [self w]. simpl in Hrun. unfold _run_command. open_calls. simpl.
  apply Z.eqb_neq in Hrc.
  destruct (verbose self); simpl; rewrite Hrun; simpl; rewrite Hrc; simpl.
  all: destruct (str_empty (stderr p)); simpl.
  all: match goal with
       | |- context [(?a1, (?b1, ?c1), ?t)] =>
           let q := before_run t in exists q
       end.
  all: split; reflexivity.
Qed.

End Command_runner.

Section Verification.
Context {world : Type} {O : OS world}.
Implicit Types s : Interceptra * world.

(** X3. With retention requested nothing is removed after the stages: the
    world in which [cut] returns is the world the last stage left, what
    follows the stages only looks at the final artifact and prints, and
    [cut] returns [True] exactly when the final artifact exists. *)
Theorem retention_leaves_the_world s final_apk :
  keep_files (fst s) = true ->
  path_isfile (apk (fst s)) (snd s) = true ->
  value (cut_stages s) = Return final_apk ->
  exists t,
    forallb observes t = true
    /\ trace (cut s) = Stat (apk (fst s)) :: trace (cut_stages s) ++ t
    /\ snd (final (cut s)) = snd (final (cut_stages s))
    /\ value (cut s) = Return (path_exists final_apk (snd (final (cut_stages s)))).
Proof.
  intros Hkeep Hfile Hvalue.
  pose proof (proj2 pipeline_same_paths s) as (_ & _ & _ & _ & Hk).
  rewrite Hkeep in Hk.
  destruct s as [self w]. cbn [fst snd] in *.
  unfold path_isfile in Hfile. unfold value, final, trace in *.
  unfold cut, cut_verify. open_calls. cbn [fst snd world_of pair_has_world].
  destruct (sys_stat (apk self) w) as [e|st]; [discriminate|].
  destruct (st_kind st); [|discriminate]. cbn [negb].
  destruct (cut_stages (self, w)) as [[r [self1 w1]] t1].
  cbn [fst snd] in Hvalue, Hk |- *. subst r. rewrite <- Hk. cbn [negb].
  destruct (sys_stat final_apk w1) as [e|st1] eqn:Hst; simpl; rewrite ?Hst; simpl.
  all: eexists; split; [|split; [rewrite <- ?app_assoc; reflexivity|split; reflexivity]].
  all: reflexivity.
Qed.

(** X4. Below platform version 30 the existence test on the final artifact
    in [cut] cannot fail: when the stages return, the alignment stage, which
    runs last, has just found the aligned archive in the same world. *)
Theorem legacy_branch_delivers s final_apk v :
  value (cut_stages s) = Return final_apk ->
  compile_sdk (fst (final (cut_stages s))) = Some v ->
  v < 30 ->
  path_exists final_apk (snd (final (cut_stages s))) = true.
Proof.
  destruct s as [self w]. unfold cut_stages. open_calls.
  exec_cut; tidy; unfold value, final; cbn [fst snd]; unassign.
  all: try (intros Hv; discriminate Hv).
  all: intros [= <-] [= <-] Hlt; try lia.
  all: try reflexivity.
  all: match goal with
       | H : forall dest msg, Some _ = Some _ -> path_exists _ ?w = true,
         E : sys_stat _ ?w = inl _ |- _ =>
           specialize (H _ _ eq_refl); unfold path_exists in H;
           rewrite E in H; discriminate H
       end.
Qed.

End Verification.

Section Manifest.
Context {world : Type} {O : OS world}.
Implicit Types s : Interceptra * world.

Lemma set_first_split tag key value cs app :
  List.find (fun c => String.eqb (tag_of c) tag) cs = Some app ->
  exists before after,
    cs = before ++ app :: after
    /\ set_first tag key value cs = before ++ element_set key value app :: after
    /\ List.find (fun c => String.eqb (tag_of c) tag) before = None.
Proof.
  induction cs as [|c r IH]; simpl; [discriminate|].
  destruct (String.eqb (tag_of c) tag) eqn:E.
  - intros [= ->]. exists [], r. repeat split; reflexivity.
  - intros H. destruct (IH H) as (before & after & -> & Hset & Hnone).
    exists (c :: before), after. simpl. rewrite Hset, E. repeat split. exact Hnone.
Qed.

Lemma tag_of_element_set key value e : tag_of (element_set key value e) = tag_of e.
Proof. destruct e. reflexivity. Qed.

Lemma find_app_here {A} (f : A -> bool) before x after :
  List.find f before = None -> f x = true ->
  List.find f (before ++ x :: after) = Some x.
Proof.
  intros Hb Hx. induction before as [|b r IH]; simpl in *; [rewrite Hx; reflexivity|].
  destruct (f b); [discriminate|]. apply IH. exact Hb.
Qed.

(** X5. The manifest stage fails without writing anything, leaving the
    world as it was, when the manifest is not a regular file (a
    [FileNotFoundError], raised before the file is parsed), when it cannot be
    parsed (the parser's exception), and when its top-level element has no
    [application] child (a [ValueError], reported by two lines). *)
Theorem manifest_errors_write_nothing s :
  let xml_path := manifest_path (fst s) in
  (path_isfile xml_path (snd s) = false ->
   _add_network_attribute_to_manifest s
   = (Raise (FileNotFoundError ("AndroidManifest.xml not found at " +:+ xml_path)), s,
      [Stat xml_path;
       Console [Txt "[!] Error: AndroidManifest.xml not found at "; Txt xml_path]]))
  /\ (forall e,
        path_isfile xml_path (snd s) = true ->
        sys_parse_xml xml_path (snd s) = inl e ->
        _add_network_attribute_to_manifest s
        = (Raise e, s,
           [Stat xml_path; ParseXml xml_path;
            Console [Txt "[!] Error modifying AndroidManifest.xml: "; Str e]]))
  /\ (forall root,
        path_isfile xml_path (snd s) = true ->
        sys_parse_xml xml_path (snd s) = inr root ->
        element_find "application" root = None ->
        let e := ValueError "application element not found in AndroidManifest.xml" in
        _add_network_attribute_to_manifest s
        = (Raise e, s,
           [Stat xml_path; ParseXml xml_path;
            Console [Txt "[!] Error: application element not found in AndroidManifest.xml"];
            Console [Txt "[!] Error modifying AndroidManifest.xml: "; Str e]])).
Proof.
  destruct s as [self w]. unfold manifest_path. cbn [fst snd].
  repeat split.
  - intros H. unfold _add_network_attribute_to_manifest. open_calls.
    unfold path_isfile in H. cbn [fst snd world_of pair_has_world].
    destruct (sys_stat _ w) as [e|st]; [reflexivity|].
    destruct (st_kind st); [discriminate|reflexivity].
  - intros e H Hparse. unfold _add_network_attribute_to_manifest. open_calls.
    unfold path_isfile in H. simpl in H, Hparse |- *.
    destruct (sys_stat _ w) as [e'|st]; [discriminate|].
    destruct (st_kind st); [|discriminate]. simpl.
    rewrite Hparse. reflexivity.
  - intros root H Hparse Hfind. unfold _add_network_attribute_to_manifest. open_calls.
    unfold path_isfile in H. simpl in H, Hparse |- *.
    destruct (sys_stat _ w) as [e'|st]; [discriminate|].
    destruct (st_kind st); [|discriminate]. simpl.
    rewrite Hparse. simpl. rewrite Hfind. reflexivity.
Qed.

(** X6. When the manifest is a regular file that parses and has an
    [application] child, the document the stage writes back is the parsed
    tree in which the first [application] child, and nothing else, has got
    the attribute [networkSecurityConfig], whatever it held before: the tag
    and the attributes of the top-level element, the children before and
    after, and the other attributes of that child are as they were.  The
    stage returns exactly when the write does. *)
Theorem manifest_gets_the_attribute s root app :
  let xml_path := manifest_path (fst s) in
  let key := android_ns +:+ "networkSecurityConfig" in
  path_isfile xml_path (snd s) = true ->
  sys_parse_xml xml_path (snd s) = inr root ->
  element_find "application" root = Some app ->
  exists before after patched post,
    children_of root = before ++ app :: after
    /\ element_find "application" (Element (tag_of root) (attrib_of root) before) = None
    /\ patched = Element (tag_of app)
                   (<[key := "@xml/network_security_config"]> (attrib_of app))
                   (children_of app)
    /\ trace (_add_network_attribute_to_manifest s)
       = [Stat xml_path; ParseXml xml_path;
          WriteFile xml_path
            (Document manifest_prolog
               (Element (tag_of root) (attrib_of root) (before ++ patched :: after)))
            (fst (sys_write xml_path
                    (Document manifest_prolog
                       (Element (tag_of root) (attrib_of root)
                          (before ++ patched :: after))) (snd s)))]
         ++ post
    /\ (value (_add_network_attribute_to_manifest s) = Return tt
        <-> fst (sys_write xml_path
                   (Document manifest_prolog
                      (Element (tag_of root) (attrib_of root)
                         (before ++ patched :: after))) (snd s)) = None)
    /\ element_find "application"
         (Element (tag_of root) (attrib_of root) (before ++ patched :: after))
       = Some patched
    /\ attrib_of patched !! key = Some "@xml/network_security_config"
    /\ (forall k, k <> key -> attrib_of patched !! k = attrib_of app !! k).
Proof.
  intros xml_path key H Hparse Hfind. subst xml_path.
  destruct s as [self w]. unfold manifest_path in *. cbn [fst snd] in *.
  destruct root as [t a cs]. unfold element_find in Hfind. cbn [children_of] in Hfind.
  destruct (set_first_split "application" key "@xml/network_security_config" cs app Hfind)
    as (before & after & Hcs & Hset & Hnone).
  set (patched := Element (tag_of app)
                    (<[key := "@xml/network_security_config"]> (attrib_of app))
                    (children_of app)).
  assert (Hp : element_set key "@xml/network_security_config" app = patched)
    by (destruct app; reflexivity).
  rewrite Hp in Hset.
  assert (Htag : String.eqb (tag_of patched) "application" = true).
  { apply find_some in Hfind. exact (proj2 Hfind). }
  unfold path_isfile in H.
  assert (Hrun :
    _add_network_attribute_to_manifest (self, w)
    = let r := fst (sys_write (path.join (extraction_dir self) "AndroidManifest.xml")
                      (Document manifest_prolog (Element t a (before ++ patched :: after)))
                      w) in
      let w' := snd (sys_write (path.join (extraction_dir self) "AndroidManifest.xml")
                      (Document manifest_prolog (Element t a (before ++ patched :: after)))
                      w) in
      (of_option r, (self, w'),
       [Stat (path.join (extraction_dir self) "AndroidManifest.xml");
        ParseXml (path.join (extraction_dir self) "AndroidManifest.xml");
        WriteFile (path.join (extraction_dir self) "AndroidManifest.xml")
          (Document manifest_prolog (Element t a (before ++ patched :: after))) r]
       ++ match r with
          | None => [Console [Txt "[+] STEP 2/5: Updated AndroidManifest.xml with network security config attribute"]]
          | Some e => [Console [Txt "[!] Error modifying AndroidManifest.xml: "; Str e]]
          end)).
  { unfold _add_network_attribute_to_manifest. open_calls.
    cbn [fst snd world_of pair_has_world with_world].
    destruct (sys_stat _ w) as [e'|st]; [discriminate|].
    destruct (st_kind st); [|discriminate]. cbn [negb]. cbv beta iota.
    cbn [fst snd world_of pair_has_world with_world].
    rewrite Hparse. cbv beta iota.
    unfold element_find. cbn [children_of]. rewrite Hfind. cbv beta iota.
    unfold set_on_child. fold key. rewrite Hset.
    cbn [fst snd world_of pair_has_world with_world].
    destruct (sys_write _ _ w) as [[e|] w']; reflexivity. }
  exists before, after, patched. eexists.
  split; [exact Hcs|]. split; [exact Hnone|]. split; [reflexivity|].
  unfold value, trace. rewrite Hrun. cbn [tag_of attrib_of fst snd].
  split; [reflexivity|]. split; [|split; [|split]].
  - destruct (fst (sys_write _ _ w)); simpl; split; congruence.
  - unfold element_find. cbn [children_of]. apply find_app_here; assumption.
  - subst patched. cbn [attrib_of]. apply lookup_insert_eq.
  - intros k Hk. subst patched. cbn [attrib_of]. apply lookup_insert_ne. congruence.
Qed.

(** X7. Patching is idempotent on the tree: setting the attribute on a tree
    on which it has been set gives the same tree. *)
Theorem patching_twice_is_patching_once tag key value root :
  set_on_child tag key value (set_on_child tag key value root)
  = set_on_child tag key value root.
Proof.
  destruct root as [t a cs]. unfold set_on_child. f_equal.
  induction cs as [|c r IH]; [reflexivity|]. simpl.
  destruct (String.eqb (tag_of c) tag) eqn:E; simpl.
  - rewrite tag_of_element_set, E. f_equal.
    destruct c as [t' a' cs']. unfold element_set. f_equal. apply insert_insert_eq.
  - rewrite E. f_equal. exact IH.
Qed.

End Manifest.

Section Dictionaries.

Lemma dict_get_set k k' v d :
  dict_get k (dict_set k' v d) = if String.eqb k' k then Some v else dict_get k d.
Proof.
  induction d as [|[k0 v0] r IH]; simpl.
  - destruct (String.eqb k' k); reflexivity.
  - destruct (String.eqb k0 k') eqn:E0; simpl.
    + apply String.eqb_eq in E0. subst k0.
      destruct (String.eqb k' k); reflexivity.
    + destruct (String.eqb k0 k) eqn:E1; [|exact IH].
      apply String.eqb_eq in E1. subst k0. rewrite String.eqb_sym, E0. reflexivity.
Qed.

Lemma dict_get_app k d e :
  dict_get k (d ++ e) = match dict_get k d with Some v => Some v | None => dict_get k e end.
Proof.
  induction d as [|[k0 v0] r IH]; simpl; [reflexivity|].
  destruct (String.eqb k0 k); [reflexivity|exact IH].
Qed.

(** After [d.update(other)] a key holds what its last binding in [other]
    gives it, and what it held in [d] when [other] does not bind it. *)
Lemma dict_get_update k other : forall d,
  dict_get k (dict_update d other)
  = match dict_get k (rev other) with Some v => Some v | None => dict_get k d end.
Proof.
  unfold dict_update.
  induction other as [|[k0 v0] r IH]; intros d; simpl; [reflexivity|].
  rewrite IH, dict_get_app, dict_get_set. simpl.
  destruct (dict_get k (rev r)); [reflexivity|].
  destruct (String.eqb k0 k); reflexivity.
Qed.

Lemma dict_get_rev_none k d : dict_get k d = None -> dict_get k (rev d) = None.
Proof.
  induction d as [|[k0 v0] r IH]; simpl; [reflexivity|].
  destruct (String.eqb k0 k) eqn:E; [discriminate|].
  intros H. rewrite dict_get_app, (IH H). simpl. rewrite E. reflexivity.
Qed.

End Dictionaries.

Section Construction.
Context {world : Type} {O : OS world}.

(** The object as the constructor assigns its attributes. *)
Lemma init_attributes apk0 verbose0 tools0 keep0 (w : world) self :
  value (__init__ apk0 verbose0 tools0 keep0 w) = Return self ->
  tool_paths self = tool_table tools0
  /\ KEYSTORE self = dict_item (tool_table tools0) "keystore"
  /\ APKTOOL_JAR self = dict_item (tool_table tools0) "apktool"
  /\ verbose self = verbose0 /\ keep_files self = keep0 /\ compile_sdk self = None.
Proof.
  unfold value, __init__, tool_table.
  unfold bind at 1. unfold os_path_expanduser at 1. cbn [world_of world_has_world].
  unfold bind at 1.
  destruct (os_path_abspath (sys_expanduser apk0 w) w) as [[[apk1|e] w1] t1];
    [|discriminate].
  unfold bind at 1. unfold call at 1.
  match goal with |- context [_check_dependencies (?x, w1)] =>
    pose proof (check_dependencies_inert (x, w1)) as H; unfold final in H;
    destruct (_check_dependencies (x, w1)) as [[[a|e] [self' w2]] t2]; simpl in H
  end; [|discriminate].
  unfold ret. simpl. intros [= <-]. subst self'. simpl. repeat split; reflexivity.
Qed.

(** X8. The tool table of a constructed object is the built-in table
    updated with the caller's: a name the caller binds holds the caller's
    (last) value, any other name holds what the built-in table gives it, and
    the six built-in names are always bound, so that no lookup of the program
    can miss.  The keystore and the apktool archive are read from the table,
    so they follow an override. *)
Theorem tool_table_after_construction apk0 verbose0 tools0 keep0 (w : world) self :
  value (__init__ apk0 verbose0 tools0 keep0 w) = Return self ->
  let given := default [] tools0 in
  (forall k v, dict_get k (rev given) = Some v -> dict_get k (tool_paths self) = Some v)
  /\ (forall k, dict_get k given = None ->
      dict_get k (tool_paths self) = dict_get k default_tool_paths)
  /\ (forall k, In k tool_names -> dict_get k (tool_paths self) <> None)
  /\ KEYSTORE self = dict_item (tool_paths self) "keystore"
  /\ APKTOOL_JAR self = dict_item (tool_paths self) "apktool".
Proof.
  intros H given.
  destruct (init_attributes _ _ _ _ _ _ H) as (Ht & Hk & Ha & _).
  rewrite Hk, Ha, Ht.
  assert (Hget : forall k,
    dict_get k (tool_table tools0)
    = match dict_get k (rev given) with
      | Some v => Some v
      | None => dict_get k default_tool_paths
      end).
  { intros k. subst given. unfold tool_table.
    destruct tools0 as [[|kv more]|]; try reflexivity.
    apply dict_get_update. }
  repeat split.
  - intros k v Hv. rewrite Hget, Hv. reflexivity.
  - intros k Hn. rewrite Hget, (dict_get_rev_none _ _ Hn). reflexivity.
  - intros k Hin. rewrite Hget. destruct (dict_get k (rev given)); [discriminate|].
    unfold tool_names in Hin. simpl in Hin.
    repeat (destruct Hin as [<-|Hin]; [discriminate|]). destruct Hin.
Qed.

End Construction.

Section Confinement_rules.
Context {world S : Type} {O : OS world} {L : HasWorld world S}.
Context (I : S -> Prop) (P : event world -> Prop).
Hypothesis I_world : forall w s, I s -> I (with_world w s).

Lemma confined_ret {A} (a : A) : confined I P (ret a).
Proof. intros s Hs. split; [constructor|exact Hs]. Qed.

Lemma confined_raise {A} e : confined I P (@raise world S A e).
Proof. intros s Hs. split; [constructor|exact Hs]. Qed.

Lemma confined_print l : P (Console l) -> confined I P (print l).
Proof. intros H s Hs. split; [repeat constructor; exact H|exact Hs]. Qed.

Lemma confined_bind {A B} (m : M world S A) (k : A -> M world S B) :
  confined I P m -> (forall a, confined I P (k a)) -> confined I P (bind m k).
Proof.
  intros Hm Hk s Hs. destruct (Hm s Hs) as [Ht Hi].
  unfold bind, trace, final in *.
  destruct (m s) as [[[a|e] s1] t1]; simpl in *; [|split; assumption].
  destruct (Hk a s1 Hi) as [Ht2 Hi2]. unfold trace, final in *.
  destruct (k a s1) as [[r s2] t2]; simpl in *.
  split; [apply Forall_app; split; assumption|exact Hi2].
Qed.

Lemma confined_try {A} (m : M world S A) (h : exn -> M world S A) :
  confined I P m -> (forall e, confined I P (h e)) -> confined I P (try_except m h).
Proof.
  intros Hm Hh s Hs. destruct (Hm s Hs) as [Ht Hi].
  unfold try_except, trace, final in *.
  destruct (m s) as [[[a|e] s1] t1]; simpl in *; [split; assumption|].
  destruct (Hh e s1 Hi) as [Ht2 Hi2]. unfold trace, final in *.
  destruct (h e s1) as [[r s2] t2]; simpl in *.
  split; [apply Forall_app; split; assumption|exact Hi2].
Qed.

Lemma confined_try_of {A} classes (m : M world S A) (h : exn -> M world S A) :
  confined I P m -> (forall e, confined I P (h e)) ->
  confined I P (try_except_of classes m h).
Proof.
  intros Hm Hh s Hs. destruct (Hm s Hs) as [Ht Hi].
  unfold try_except_of, trace, final in *.
  destruct (m s) as [[[a|e] s1] t1]; simpl in *; [split; assumption|].
  destruct (classes e); [|split; assumption].
  destruct (Hh e s1 Hi) as [Ht2 Hi2]. unfold trace, final in *.
  destruct (h e s1) as [[r s2] t2]; simpl in *.
  split; [apply Forall_app; split; assumption|exact Hi2].
Qed.

Lemma confined_exists p : P (Stat p) -> confined I P (os_path_exists p).
Proof. intros H s Hs. split; [repeat constructor; exact H|exact Hs]. Qed.

Lemma confined_isfile p : P (Stat p) -> confined I P (os_path_isfile p).
Proof. intros H s Hs. split; [repeat constructor; exact H|exact Hs]. Qed.

Lemma confined_getsize p : P (Stat p) -> confined I P (os_path_getsize p).
Proof. intros H s Hs. split; [repeat constructor; exact H|exact Hs]. Qed.

Lemma confined_expanduser p : confined I P (os_path_expanduser p).
Proof. intros s Hs. split; [constructor|exact Hs]. Qed.

Lemma confined_getcwd : P Getcwd -> confined I P os_getcwd.
Proof. intros H s Hs. split; [repeat constructor; exact H|exact Hs]. Qed.

Lemma confined_parse p : P (ParseXml p) -> confined I P (ElementTree_parse p).
Proof. intros H s Hs. split; [repeat constructor; exact H|exact Hs]. Qed.

Lemma confined_load p : P (LoadJson p) -> confined I P (json_load p).
Proof. intros H s Hs. split; [repeat constructor; exact H|exact Hs]. Qed.

Lemma confined_loads text : confined I P (json_loads text).
Proof. intros s Hs. split; [constructor|exact Hs]. Qed.

Lemma confined_rmtree p : (forall r, P (Rmtree p r)) -> confined I P (shutil_rmtree p).
Proof.
  intros H s Hs. unfold shutil_rmtree, trace, final.
  destruct (sys_rmtree p (world_of s)) as [r w]. simpl.
  split; [repeat constructor; apply H|apply I_world; exact Hs].
Qed.

Lemma confined_remove p : (forall r, P (Remove p r)) -> confined I P (os_remove p).
Proof.
  intros H s Hs. unfold os_remove, trace, final.
  destruct (sys_remove p (world_of s)) as [r w]. simpl.
  split; [repeat constructor; apply H|apply I_world; exact Hs].
Qed.

Lemma confined_makedirs p : (forall r, P (Makedirs p r)) -> confined I P (os_makedirs p).
Proof.
  intros H s Hs. unfold os_makedirs, trace, final.
  destruct (sys_makedirs p (world_of s)) as [r w]. simpl.
  split; [repeat constructor; apply H|apply I_world; exact Hs].
Qed.

Lemma confined_write p c : (forall r, P (WriteFile p c r)) -> confined I P (write_file p c).
Proof.
  intros H s Hs. unfold write_file, trace, final.
  destruct (sys_write p c (world_of s)) as [r w]. simpl.
  split; [repeat constructor; apply H|apply I_world; exact Hs].
Qed.

Lemma confined_popen c :
  (forall w r w', P (Run c w r w')) -> confined I P (subprocess_Popen c).
Proof.
  intros H s Hs. unfold subprocess_Popen, trace, final.
  destruct (sys_run c (world_of s)) as [r w]. simpl.
  split; [repeat constructor; apply H|apply I_world; exact Hs].
Qed.

End Confinement_rules.

Section Confinement_of_methods.
Context {world : Type} {O : OS world}.
Context (J : Interceptra -> Prop) (P : event world -> Prop).

Lemma on_object_world w (s : Interceptra * world) :
  on_object J s -> on_object J (with_world w s).
Proof. intros H. exact H. Qed.

(** What follows a read of [self] is only run on an object that
    satisfies the invariant. *)
Lemma confined_this {B} (k : Interceptra -> @method world B) :
  (forall self, J self -> confined (on_object J) P (k self)) ->
  confined (on_object J) P (bind this k).
Proof.
  intros Hk [self w] Hs. specialize (Hk self Hs (self, w) Hs).
  unfold bind, this, trace, final in *. simpl in *.
  destruct (k self (self, w)) as [[r s2] t2]. exact Hk.
Qed.

Lemma confined_set_compile_sdk v :
  (forall self, J self -> J (assign_compile_sdk v self)) ->
  confined (on_object J) P (set_compile_sdk (world := world) v).
Proof. intros H [self w] Hs. split; [constructor|apply H; exact Hs]. Qed.

End Confinement_of_methods.

(** Reduce the confinement of a program to that of its calls. *)
Ltac confine_step :=
  first
    [ apply confined_this; intros ? ?
    | apply confined_bind; [|intros ?]
    | apply confined_try; [|intros ?]
    | apply confined_try_of; [|intros ?]
    | apply confined_ret
    | apply confined_raise
    | apply confined_print
    | apply confined_exists
    | apply confined_isfile
    | apply confined_getsize
    | apply confined_expanduser
    | apply confined_getcwd
    | apply confined_parse
    | apply confined_load
    | apply confined_loads
    | apply confined_rmtree; [intros ? ? ?; assumption|intros ?]
    | apply confined_remove; [intros ? ? ?; assumption|intros ?]
    | apply confined_makedirs; [intros ? ? ?; assumption|intros ?]
    | apply confined_write; [intros ? ? ?; assumption|intros ?]
    | apply confined_popen; [intros ? ? ?; assumption|intros ? ? ?]
    | match goal with
      | |- confined _ _ (when ?b _) => unfold when; destruct b
      | |- confined _ _ (if ?b then _ else _) => destruct b
      | |- confined _ _ (match ?x with _ => _ end) => destruct x
      | |- confined _ _ (subprocess_run_check _) => unfold subprocess_run_check
      | |- confined _ _ (os_path_abspath _) => unfold os_path_abspath
      end ].

Ltac confine := repeat confine_step.

Section Footprint.
Context {world : Type} {O : OS world}.

Lemma run_command_confined J (P : event world -> Prop) c description check :
  (forall l, P (Console l)) -> (forall w r w', P (Run c w r w')) ->
  confined (on_object J) P (_run_command c description check).
Proof.
  intros Hc Hr. unfold _run_command. confine; auto.
Qed.

Lemma versioned_assign o v self : versioned o self -> versioned o (assign_compile_sdk v self).
Proof. intros [->|[v' ->]]; right; exists v; reflexivity. Qed.

(** Settle what an event of a stage has to satisfy. *)
Ltac settle :=
  repeat match goal with
  | H : versioned _ _ |- _ => destruct H as [->|[? ->]]
  end;
  unfold allowed, manifest_path; cbn [In];
  first [ exact I | reflexivity | left; reflexivity | right; reflexivity
        | left; split; reflexivity
        | right; split; [reflexivity|eexists; reflexivity]
        | repeat (first [left; reflexivity | right]) ].

Ltac confine_stage :=
  confine;
  try (apply run_command_confined; [intros ?|intros ? ? ?]);
  confine;
  try (apply confined_set_compile_sdk; intros ?; apply versioned_assign);
  try settle.

Lemma cut_confined o :
  confined (on_object (versioned o)) (allowed (world := world) o) cut.
Proof.
  unfold cut, cut_stages, cut_verify, _decompile_apk, _add_network_file,
    _add_network_attribute_to_manifest, _check_compile_sdk_version, _repackage_apk,
    _zipalign_apk, _apksign_apk, _jarsign_apk, _cleanup_files.
  confine_stage.
Qed.

(** X9. A run of the pipeline touches nothing but its working paths: it
    removes only the extraction directory and the intermediate archive,
    creates only the resource directory and the directory of the final
    archive, writes only the trust configuration and the unpacked manifest,
    parses only that manifest, and starts only the five tool commands of the
    object; it never reads the current directory or a JSON file. *)
Theorem pipeline_touches_only_its_paths (s : Interceptra * world) :
  Forall (allowed (fst s)) (trace (cut s)).
Proof.
  apply (cut_confined (fst s) s). left. reflexivity.
Qed.

End Footprint.

Section Constructor_footprint.
Context {world : Type} {O : OS world}.

Lemma confined_call J (P : event world -> Prop) {A} self (m : @method world A) :
  confined (on_object J) P m -> J self ->
  confined (fun _ : world => True) P (call self m).
Proof.
  intros Hm Hs w _. destruct (Hm (self, w) Hs) as [Ht _].
  unfold call, trace in *.
  destruct (m (self, w)) as [[[a|e] [self' w']] t]; simpl in *; split; auto.
Qed.

Lemma check_tools_confined J tools items : forall missing_tools,
  incl items tools ->
  confined (on_object J) (probe (world := world) tools) (check_tools items missing_tools).
Proof.
  induction items as [|[tool p] rest IH]; intros missing_tools Hin.
  - apply confined_ret.
  - assert (Hrest : incl rest tools) by (intros x Hx; apply Hin; right; exact Hx).
    assert (Hhere : In (tool, p) tools) by (apply Hin; left; reflexivity).
    cbn [check_tools].
    destruct (String.eqb tool "apktool" || String.eqb tool "keystore") eqn:Hskip;
      [apply IH; exact Hrest|].
    apply orb_false_iff in Hskip as [Ha Hk].
    apply String.eqb_neq in Ha, Hk.
    destruct (path.isabs p) eqn:Habs.
    + confine; try exact I; apply IH; exact Hrest.
    + confine; try exact I; try (apply IH; exact Hrest).
      exists tool, p. auto.
Qed.

Lemma print_tool_paths_confined J (P : event world -> Prop) items :
  (forall l, P (Console l)) ->
  confined (on_object J) P (print_tool_paths items).
Proof.
  intros Hc. induction items as [|[tool p] rest IH]; cbn [print_tool_paths].
  - apply confined_ret.
  - confine; [apply Hc|exact IH].
Qed.

Lemma check_dependencies_confined tools :
  confined (on_object (fun self => tool_paths self = tools))
    (probe (world := world) tools) _check_dependencies.
Proof.
  unfold _check_dependencies. apply confined_this. intros self Hself.
  confine; try exact I.
  - apply check_tools_confined. rewrite Hself. apply incl_refl.
  - apply print_tool_paths_confined. intros l. exact I.
Qed.

(** X10. The constructor changes nothing by its own calls and starts no
    program but [which]: all it does is print, look at paths, read the
    current directory, and run [which] on the relative tool paths of the
    table, the apktool archive and the keystore apart. *)
Theorem constructor_only_probes apk0 verbose0 tools0 keep0 (w : world) :
  Forall (probe (tool_table tools0)) (trace (__init__ apk0 verbose0 tools0 keep0 w)).
Proof.
  assert (H : confined (fun _ : world => True) (probe (tool_table tools0))
                (__init__ apk0 verbose0 tools0 keep0)).
  { unfold __init__. fold (tool_table tools0).
    confine; try exact I.
    eapply confined_call; [apply check_dependencies_confined|reflexivity]. }
  exact (proj1 (H w I)).
Qed.

End Constructor_footprint.

(** The rest of the loop raises: the induction hypothesis gives the probe. *)
Ltac in_the_rest IH e :=
  match goal with
  | |- context [check_tools ?r ?m ?s1] =>
      let H := fresh "H" in
      let Hm := fresh "Hm" in
      let Hq := fresh "Hq" in
      specialize (IH m s1 e); unfold value, trace in IH;
      destruct (check_tools r m s1) as [[? ?] ?]; simpl in *;
      let Hr := fresh "Hr" in
      intros H; destruct (IH H) as (Hm & ? & ? & ? & Hr & Hq);
      split; [exact Hm|];
      do 3 eexists; split; [exact Hr|];
      first [exact Hq | right; exact Hq | right; right; exact Hq]
  end.

Section Constructor_failure.
Context {world : Type} {O : OS world}.

Lemma check_tools_raises items : forall missing_tools (s : Interceptra * world) e,
  value (check_tools items missing_tools s) = Raise e ->
  is_missing_tool_error e = false
  /\ exists p w1 w2,
       sys_run ["which"; p] w1 = (inl e, w2)
       /\ In (Run ["which"; p] w1 (inl e) w2)
            (trace (check_tools items missing_tools s)).
Proof.
  induction items as [|[tool p] rest IH]; intros missing_tools s e.
  - discriminate.
  - cbn [check_tools].
    destruct (String.eqb tool "apktool" || String.eqb tool "keystore");
      [apply IH|].
    destruct s as [self w]. unfold subprocess_run_check. open_calls.
    destruct (path.isabs p); simpl.
    + destruct (sys_stat p w); simpl; in_the_rest IH e.
    + destruct (sys_run ["which"; p] w) as [[e'|c] w2] eqn:Hrun; simpl.
      * destruct (is_missing_tool_error e') eqn:He; simpl; [in_the_rest IH e|].
        intros [= <-]. split; [exact He|]. exists p, w, w2.
        split; [exact Hrun|left; reflexivity].
      * destruct (returncode c =? 0); simpl; in_the_rest IH e.
Qed.

Lemma print_tool_paths_returns items : forall (s : Interceptra * world),
  exists t, print_tool_paths items s = (Return tt, s, t).
Proof.
  induction items as [|[tool p] rest IH]; intros s; cbn [print_tool_paths].
  - eexists. reflexivity.
  - destruct (IH s) as [t Ht]. unfold bind, print. rewrite Ht. eexists. reflexivity.
Qed.

Lemma check_dependencies_raises (s : Interceptra * world) e :
  value (_check_dependencies s) = Raise e ->
  is_missing_tool_error e = false
  /\ exists p w1 w2,
       sys_run ["which"; p] w1 = (inl e, w2)
       /\ In (Run ["which"; p] w1 (inl e) w2) (trace (_check_dependencies s)).
Proof.
  destruct s as [self w]. unfold _check_dependencies. open_calls.
  repeat (simpl; first
    [ match goal with
      | |- context [print_tool_paths ?i ?s1] =>
          let t := fresh "t" in
          let Ht := fresh "Ht" in
          destruct (print_tool_paths_returns i s1) as [t Ht]; rewrite Ht
      | |- context [check_tools ?i ?m ?s1] =>
          let IH := fresh "IH" in
          pose proof (check_tools_raises i m s1 e) as IH; unfold value, trace in IH;
          destruct (check_tools i m s1) as [[[?|?] ?] ?]; simpl in IH
      end
    | next_case ]).
  all: try discriminate.
  all: intros H; injection H as ->.
  all: match goal with
       | IH : _ -> _ /\ _ |- _ => destruct (IH eq_refl) as (Hm & q & w1 & w2 & Hr & Hq)
       end.
  all: split; [exact Hm|]; exists q, w1, w2; split; [exact Hr|].
  all: repeat (first [exact Hq | right]).
Qed.

(** The two ways in which construction raises. *)
Lemma init_raises apk0 verbose0 tools0 keep0 (w : world) e :
  value (__init__ apk0 verbose0 tools0 keep0 w) = Raise e ->
  (path.isabs (sys_expanduser apk0 w) = false /\ sys_getcwd w = inl e)
  \/ (is_missing_tool_error e = false
      /\ exists p w1 w2,
           sys_run ["which"; p] w1 = (inl e, w2)
           /\ In (Run ["which"; p] w1 (inl e) w2)
                (trace (__init__ apk0 verbose0 tools0 keep0 w))).
Proof.
  unfold value, trace.
  destruct (__init__ apk0 verbose0 tools0 keep0 w) as [[r w'] t] eqn:Hinit.
  cbn [fst snd]. intros ->. revert Hinit.
  unfold __init__.
  unfold bind at 1. unfold os_path_expanduser at 1. cbn [world_of world_has_world].
  unfold bind at 1. unfold os_path_abspath at 1.
  destruct (path.isabs (sys_expanduser apk0 w)) eqn:Habs.
  - unfold ret at 1. unfold bind at 1. unfold call at 1.
    match goal with |- context [_check_dependencies ?s] =>
      pose proof (check_dependencies_raises s e) as H; unfold value, trace in H;
      destruct (_check_dependencies s) as [[[a|e'] [self' w1]] t1]; simpl in H |- *
    end; [discriminate|].
    intros [= -> <- <-]. right. exact (H eq_refl).
  - unfold bind at 1. unfold os_getcwd at 1. cbn [world_of world_has_world].
    destruct (sys_getcwd w) as [e0|cwd] eqn:Hcwd; simpl.
    + intros [= -> <- <-]. left. split; reflexivity.
    + unfold bind at 1. unfold call at 1.
      match goal with |- context [_check_dependencies ?s] =>
        pose proof (check_dependencies_raises s e) as H; unfold value, trace in H;
        destruct (_check_dependencies s) as [[[a|e'] [self' w1]] t1]; simpl in H |- *
      end; [discriminate|].
      intros [= -> <- <-]. right. destruct (H eq_refl) as (Hm & q & w2 & w3 & Hr & Hq).
      split; [exact Hm|]. exists q, w2, w3. split; [exact Hr|]. right. exact Hq.
Qed.

(** X11. With a tool table whose values are strings, construction fails in
    two ways only: the current directory cannot be read when the bundle path
    is relative, or [which] cannot be started for a reason other than its
    absence; the exception is then the one of that call.  A tool that is
    missing, and a [which] that is missing or exits with a non-zero status,
    only add to the warning. *)
Theorem construction_fails_only_on apk0 verbose0 (tools0 : option (list (string * string)))
    keep0 (w : world) e :
  value (__init__ apk0 verbose0 tools0 keep0 w) = Raise e ->
  (path.isabs (sys_expanduser apk0 w) = false /\ sys_getcwd w = inl e)
  \/ (is_missing_tool_error e = false
      /\ exists p w1 w2,
           sys_run ["which"; p] w1 = (inl e, w2)
           /\ In (Run ["which"; p] w1 (inl e) w2)
                (trace (__init__ apk0 verbose0 tools0 keep0 w))).
Proof. exact (init_raises apk0 verbose0 tools0 keep0 w e). Qed.

(** C5, as the code has it.  Construction does not look at the bundle path:
    whether or not the path names a regular file, the object is built as
    soon as the current directory can be read, or the path is absolute, and
    [which] raises nothing but the errors that [_check_dependencies]
    catches.  A path that does not exist or is not a regular file is
    rejected where the pipeline is entered: [cut] returns [False] at once,
    having done nothing but test the path and print the error, and [main]
    returns 1 before it builds the object. *)
Theorem missing_input_is_rejected_on_entry apk0 verbose0 tools0 keep0 s argv args
    (w : world) :
  (path.isabs (sys_expanduser apk0 w) = true \/ (exists cwd, sys_getcwd w = inr cwd) ->
   (forall p w1 e w2,
      sys_run ["which"; p] w1 = (inl e, w2) -> is_missing_tool_error e = true) ->
   exists self, value (__init__ apk0 verbose0 tools0 keep0 w) = Return self)
  /\ (path_isfile (apk (fst s)) (snd s) = false ->
      cut s
      = (Return false, s,
         [Stat (apk (fst s));
          Console [Txt "[!] Error: APK file not found: "; Txt (apk (fst s))]]))
  /\ (handle_args argv = inr args ->
      path_isfile (sys_expanduser (args_apk args) w) w = false ->
      main argv w
      = (Return (Returned 1), w,
         [Console [Txt "[+] Interceptra v"; Txt VERSION];
          Stat (sys_expanduser (args_apk args) w);
          Console [Txt "Error: APK file not found: ";
                   Txt (sys_expanduser (args_apk args) w)]])).
Proof.
  split; [|exact (missing_input_at_entry s argv args w)].
  intros Hcwd Hwhich.
  destruct (value (__init__ apk0 verbose0 tools0 keep0 w)) as [self|e] eqn:Hinit;
    [exists self; reflexivity|exfalso].
  destruct (init_raises _ _ _ _ _ _ Hinit) as [[Habs Hget]|(Hm & p & w1 & w2 & Hrun & _)].
  - destruct Hcwd as [Hcwd|[cwd Hcwd]]; congruence.
  - rewrite (Hwhich p w1 e w2 Hrun) in Hm. discriminate Hm.
Qed.

End Constructor_failure.

Section Order_facts.
Context {world : Type}.
Implicit Types t u : list (event world).

Lemma before_command_skip c t u :
  commands t = [] -> before_command c (t ++ u) = app t <$> before_command c u.
Proof.
  induction t as [|e t IH]; simpl.
  - intros _. destruct (before_command c u); reflexivity.
  - destruct e; simpl; try discriminate.
    all: intros H; rewrite (IH H); destruct (before_command c u); reflexivity.
Qed.

Lemma before_command_none c t : commands t = [] -> before_command c t = None.
Proof.
  induction t as [|e t IH]; simpl; [reflexivity|].
  destruct e; simpl; try discriminate.
  all: intros H; rewrite (IH H); reflexivity.
Qed.

Lemma before_command_here c (w1 w2 : world) r u :
  before_command c (Run c w1 r w2 :: u) = Some [].
Proof. simpl. rewrite bool_decide_eq_true_2 by reflexivity. reflexivity. Qed.

Lemma before_command_past c c' (w1 w2 : world) r u :
  c' <> c ->
  before_command c (Run c' w1 r w2 :: u) = cons (Run c' w1 r w2) <$> before_command c u.
Proof. intros H. simpl. rewrite bool_decide_eq_false_2 by exact H. reflexivity. Qed.

End Order_facts.

Section Patch_facts.
Context {world : Type} {O : OS world}.
Implicit Types s : Interceptra * world.

Lemma add_network_file_returns s s' t :
  _add_network_file s = (Return tt, s', t) ->
  In (WriteFile (network_file_path (fst s)) (Text network_file) None) t.
Proof.
  destruct s as [self w]. unfold _add_network_file, network_file_path. open_calls.
  exec; intros [= <- <-]; simpl; auto.
Qed.

Lemma add_network_attribute_returns s s' t :
  _add_network_attribute_to_manifest s = (Return tt, s', t) ->
  exists root,
    In (WriteFile (manifest_path (fst s)) (Document manifest_prolog root) None) t
    /\ patched_tree root.
Proof.
  destruct s as [self w].
  unfold _add_network_attribute_to_manifest, manifest_path. open_calls.
  exec; intros [= <- <-].
  match goal with
  | H : sys_parse_xml _ _ = inr ?root, F : element_find _ ?root = Some ?a |- _ =>
      exists (set_on_child "application" network_attribute
                "@xml/network_security_config" root);
      split; [simpl; auto|];
      destruct root as [t0 a0 cs]; unfold element_find in F; cbn [children_of] in F;
      destruct (set_first_split "application" network_attribute
                  "@xml/network_security_config" cs a F)
        as (before & after & Hcs & Hset & Hnone);
      exists (element_set network_attribute "@xml/network_security_config" a);
      split;
      [ unfold set_on_child, element_find; cbn [children_of]; rewrite Hset;
        apply find_app_here; [exact Hnone|];
        rewrite tag_of_element_set; apply find_some in F; exact (proj2 F)
      | destruct a; cbn [element_set attrib_of]; apply lookup_insert_eq ]
  end.
Qed.

Lemma unpack_is_not_repack self : unpack_command self <> repack_command self.
Proof. unfold unpack_command, repack_command. discriminate. Qed.

End Patch_facts.

Arguments before_command : simpl never.

Section Order_steps.
Context {world : Type}.

Lemma before_command_quiet c (e : event world) u :
  commands [e] = [] -> before_command c (e :: u) = cons e <$> before_command c u.
Proof. destruct e; try discriminate; reflexivity. Qed.

Lemma before_command_nil c : before_command (world := world) c [] = None.
Proof. reflexivity. Qed.

End Order_steps.

(** Case analysis on the two stages that patch the unpacked bundle, keeping
    what a stage that returned has written. *)
Ltac use_patch f cases returns :=
  match goal with
  | |- context [f ?s] =>
      let E := fresh "E" in
      let R := fresh "R" in
      destruct (f s) as [[[[]|?] [? ?]] ?] eqn:E;
      [ pose proof (returns _ _ _ _ _ E) as R; simpl in R | ];
      apply cases in E; simpl in E; destruct E as [? ?]; subst
  end.

(** Symbolic execution of the pipeline with a step of its own for some
    stages. *)
Ltac exec_with step :=
  simpl; repeat (first [step | cut_step]; simpl;
                 rewrite ?unpack_command_assign, ?repack_command_assign,
                   ?jarsign_command_assign, ?apksign_command_assign,
                   ?zipalign_command_assign).

Ltac run_with step :=
  match goal with
  | |- context [cut ?x] =>
      pattern (cut x);
      match goal with
      | |- ?P _ =>
          let Q := fresh "Q" in
          set (Q := P);
          unfold cut, cut_stages, cut_verify; open_calls;
          exec_with step; tidy; subst Q; cbv beta; unfold value, final, trace;
          cbn [fst snd]; unassign
      end
  end.

Ltac patch_step :=
  first
    [ use_patch (@_add_network_file) (@add_network_file_cases)
        (@add_network_file_returns)
    | use_patch (@_add_network_attribute_to_manifest) (@add_network_attribute_cases)
        (@add_network_attribute_returns) ].

(** Compute the events before a command in a trace made of known and
    unknown parts. *)
Ltac calc_before :=
  repeat rewrite <- app_assoc; cbn [app];
  repeat
    (match goal with
     | H : commands ?t = [] |- context [before_command ?c (?t ++ ?u)] =>
         rewrite (before_command_skip c t u H)
     | H : quiet ?t = true |- context [before_command ?c (?t ++ ?u)] =>
         rewrite (before_command_skip c t u (quiet_commands t H))
     | |- context [before_command ?c (Run ?c ?w1 ?r ?w2 :: ?u)] =>
         rewrite (before_command_here c w1 w2 r u)
     | |- context [before_command ?c (Run ?c' ?w1 ?r ?w2 :: ?u)] =>
         rewrite (before_command_past c c' w1 w2 r u) by apply unpack_is_not_repack
     | |- context [before_command ?c (?e :: ?u)] =>
         rewrite (before_command_quiet c e u eq_refl)
     | H : commands ?t = [] |- context [before_command ?c ?t] =>
         rewrite (before_command_none c t H)
     | H : quiet ?t = true |- context [before_command ?c ?t] =>
         rewrite (before_command_none c t (quiet_commands t H))
     | |- context [before_command ?c []] => rewrite (before_command_nil c)
     end; repeat rewrite <- app_assoc; cbn [app fmap option_fmap option_map]).

(** Find an event in a trace made of known and unknown parts. *)
Ltac find_event :=
  repeat first
    [ eassumption
    | apply in_eq
    | apply in_cons
    | apply in_or_app; first [left; eassumption | right] ].

Section Patch_order.
Context {world : Type} {O : OS world}.

(** X12. The repack tool is never started on an unpatched tree: whatever
    precedes its first start in a run contains an unpack command that ended
    with status 0, a write of the trust configuration that returned, and a
    write of the manifest that returned, of a tree whose first
    [application] child carries the attribute. *)
Theorem repack_follows_the_patch (s : Interceptra * world) t1 :
  before_command (repack_command (fst s)) (trace (cut s)) = Some t1 ->
  (exists w1 p w2,
     In (Run (unpack_command (fst s)) w1 (inr p) w2) t1 /\ returncode p = 0)
  /\ In (WriteFile (network_file_path (fst s)) (Text network_file) None) t1
  /\ exists root,
       In (WriteFile (manifest_path (fst s)) (Document manifest_prolog root) None) t1
       /\ patched_tree root.
Proof.
  destruct s as [self w]. run_with patch_step.
  all: calc_before.
  all: try (intros Hnone; discriminate Hnone).
  all: intros [= <-].
  all: repeat match goal with H : exists _, _ |- _ => destruct H as (? & ? & ?) end.
  all: split; [do 3 eexists; split; [find_event|assumption]|].
  all: split; [find_event|].
  all: eexists; split; [find_event|assumption].
Qed.

End Patch_order.

Section More_path_facts.

Lemma endswith_split c d : endswith c d = true -> exists x, d = x +:+ String c EmptyString.
Proof.
  induction d as [|a r IH]; [discriminate|].
  destruct r as [|b r']; simpl.
  - intros H. apply Ascii.eqb_eq in H. subst a. exists EmptyString. reflexivity.
  - intros H. destruct (IH H) as [x Hx]. exists (String a x). rewrite Hx. reflexivity.
Qed.

Lemma basename_join d n : str_mem sep n = false -> path.basename (path.join d n) = n.
Proof.
  intros Hn. rewrite (join_no_sep d n Hn). unfold join_head, path.basename.
  destruct (str_empty d) eqn:Hd; simpl.
  - destruct d; [|discriminate]. rewrite append_nil, (rsplit_after_none _ _ Hn). reflexivity.
  - destruct (endswith sep d) eqn:He.
    + destruct (endswith_split _ _ He) as [x ->].
      rewrite app_assoc_str, append_cons, append_nil, (rsplit_after_app _ _ _ Hn).
      reflexivity.
    + rewrite app_assoc_str, append_cons, append_nil, (rsplit_after_app _ _ _ Hn).
      reflexivity.
Qed.

Lemma rsplit_at_none c t : str_mem c t = false -> rsplit_at c t = None.
Proof.
  induction t as [|d r IH]; simpl; [reflexivity|].
  intros H. apply orb_false_iff in H as [Hd Hr]. rewrite (IH Hr), Hd. reflexivity.
Qed.

Lemma rsplit_at_last c a t :
  str_mem c t = false -> rsplit_at c (a +:+ String c t) = Some (a, String c t).
Proof.
  intros Ht. induction a as [|d a' IH]; ssimpl.
  - rewrite (rsplit_at_none _ _ Ht), Ascii.eqb_refl. reflexivity.
  - rewrite IH. reflexivity.
Qed.

(** A name without a dot has no extension. *)
Lemma stem_without_extension p :
  str_mem extsep (path.basename p) = false -> stem p = path.basename p.
Proof.
  intros H. unfold stem.
  rewrite (proj1 (splitext_no_sep _ (basename_no_sep p))).
  unfold path.splitext_name. rewrite (rsplit_at_none _ _ H). reflexivity.
Qed.

(** The stem of a name that ends with the suffix [u.ext] of a working file
    ends with [u]. *)
Lemma stem_of_suffixed x u ext p :
  path.basename p = x +:+ u +:+ String extsep ext ->
  str_all extsep (x +:+ u) = false -> str_mem extsep ext = false ->
  stem p = x +:+ u.
Proof.
  intros Hb Hall Hext. unfold stem.
  rewrite (proj1 (splitext_no_sep _ (basename_no_sep p))), Hb.
  unfold path.splitext_name. rewrite <- app_assoc_str.
  rewrite (rsplit_at_last _ _ _ Hext), Hall. reflexivity.
Qed.

End More_path_facts.

Section Output_paths.

(** X13. The outputs never take the place of the input: for an object built
    by the constructor, the intermediate archive and the final archive both
    differ from the bundle, whatever its name (a bundle [x_patched.apk]
    gives [x_patched_patched.apk]). *)
Theorem outputs_differ_from_the_input self :
  constructed self ->
  patched_apk self <> apk self /\ zipaligned_apk self <> apk self.
Proof.
  intros (_ & _ & Hpaths). unfold working_paths in Hpaths.
  injection Hpaths as _ Hp Hz.
  assert (Hstem : str_mem sep (stem (apk self)) = false) by apply stem_no_sep.
  assert (Hne : forall u ext,
    str_mem sep (u +:+ String extsep ext) = false ->
    str_all extsep u = false -> str_mem extsep ext = false ->
    u <> EmptyString ->
    path.join (path.dirname (apk self)) (stem (apk self) +:+ u +:+ String extsep ext)
    <> apk self).
  { intros u ext Hsep Hall Hext Hu Heq.
    apply (f_equal path.basename) in Heq.
    rewrite basename_join in Heq
      by (rewrite str_mem_app, Hstem; exact Hsep).
    symmetry in Heq.
    apply stem_of_suffixed in Heq; [| |exact Hext].
    - destruct u as [|c r]; [congruence|].
      exact (app_not_longer _ _ _ Heq).
    - rewrite str_all_app, Hall. apply andb_false_r. }
  split.
  - rewrite Hp. apply (Hne "_patched" "apk"); try reflexivity. discriminate.
  - rewrite Hz. apply (Hne "_patched_zipaligned" "apk"); try reflexivity. discriminate.
Qed.

End Output_paths.

Section Decompile_on_existing.
Context {world : Type} {O : OS world}.

(** When the extraction directory exists, the unpack stage removes it, and
    raises what the removal raises without having started a command. *)
Lemma decompile_on_existing (s : Interceptra * world) r s' t :
  path_exists (extraction_dir (fst s)) (snd s) = true ->
  _decompile_apk s = (r, s', t) ->
  let ro := fst (sys_rmtree (extraction_dir (fst s)) (snd s)) in
  In (Rmtree (extraction_dir (fst s)) ro) t
  /\ fst s' = fst s
  /\ (forall e, ro = Some e -> r = Raise e /\ commands t = []).
Proof.
  destruct s as [self w]. cbn [fst snd]. unfold path_exists. intros Hex.
  unfold _decompile_apk. open_calls. simpl.
  destruct (sys_stat (extraction_dir self) w) as [e|st]; [discriminate|]. simpl.
  destruct (verbose self); simpl.
  all: destruct (sys_rmtree (extraction_dir self) w) as [[e|] w1]; simpl.
  all: repeat (first
         [ match goal with
           | |- context [_run_command ?c ?d true ?s1] =>
               let Hi := fresh "Hi" in
               pose proof (run_command_inert c d true s1) as Hi; unfold final in Hi;
               destruct (_run_command c d true s1) as [[[?|?] [? ?]] ?];
               simpl in Hi; subst
           end
         | next_case ]; simpl).
  all: intros [= <- <- <-].
  all: split; [simpl; tauto|split; [reflexivity|]].
  all: intros e' [= <-]; split; reflexivity.
Qed.

End Decompile_on_existing.

Lemma isfile_exists `{OS world} p (w : world) :
  path_isfile p w = true -> path_exists p w = true.
Proof.
  unfold path_isfile, path_exists. destruct (sys_stat p w); [discriminate|reflexivity].
Qed.

(** Case analysis on the unpack stage when the extraction directory
    exists. *)
Ltac use_existing Hex :=
  match goal with
  | |- context [_decompile_apk ?s] =>
      let E := fresh "E" in
      destruct (_decompile_apk s) as [[? [? ?]] ?] eqn:E;
      apply (decompile_on_existing s _ _ _ Hex) in E; cbn [fst snd] in E;
      destruct E as (? & -> & ?)
  end.

Section Bundle_without_extension.
Context {world : Type} {O : OS world}.

(** X14. A bundle whose name has no extension is its own extraction
    directory.  A run on such a bundle calls [shutil.rmtree] on the bundle
    itself before it starts any tool, and when that removal raises, as it
    does on a regular file, [cut] returns [False] without having started a
    command. *)
Theorem bundle_without_extension_is_removed (s : Interceptra * world) d n :
  constructed (fst s) ->
  apk (fst s) = path.join d n ->
  dir_shaped d -> str_mem sep n = false -> str_mem extsep n = false ->
  extraction_dir (fst s) = apk (fst s)
  /\ (path_isfile (apk (fst s)) (snd s) = true ->
      let ro := fst (sys_rmtree (apk (fst s)) (snd s)) in
      In (Rmtree (apk (fst s)) ro) (trace (cut s))
      /\ (forall e, ro = Some e ->
          value (cut s) = Return false /\ commands (trace (cut s)) = [])).
Proof.
  intros (_ & _ & Hpaths) Hapk Hd Hn Hdot.
  destruct s as [self w]. cbn [fst snd] in *.
  assert (Hext : extraction_dir self = apk self).
  { unfold working_paths in Hpaths. injection Hpaths as He _ _. rewrite He.
    rewrite stem_without_extension; rewrite Hapk.
    - rewrite (dirname_join d n Hd Hn), (basename_join d n Hn). reflexivity.
    - rewrite (basename_join d n Hn). exact Hdot. }
  split; [exact Hext|]. intros Hfile.
  assert (Hex : path_exists (extraction_dir self) w = true)
    by (rewrite Hext; apply isfile_exists; exact Hfile).
  rewrite <- Hext. unfold path_isfile in Hfile. clear Hpaths Hapk Hext.
  run_with ltac:(idtac; use_existing Hex).
  all: try discriminate Hfile.
  all: try congruence.
  all: repeat rewrite <- app_assoc.
  all: split; [find_event|].
  all: intros e' He'.
  all: match goal with
       | H : forall e, _ = Some e -> _ |- _ => destruct (H e' He') as [Hr Hc]
       end.
  all: try discriminate Hr.
  all: split; [reflexivity|calc; rewrite ?Hc; reflexivity].
Qed.

End Bundle_without_extension.

Section Arguments_facts.

Lemma not_the_separator p : startswith "-"%char p = false -> String.eqb p "--" = false.
Proof.
  destruct p as [|c r]; [reflexivity|]. simpl. intros H. rewrite H. reflexivity.
Qed.

Lemma plain_argument_is_positional p :
  startswith "-"%char p = false -> argparse.parse_optional p = argparse.Positional.
Proof. intros H. unfold argparse.parse_optional. rewrite H. reflexivity. Qed.

Lemma plain_argument_is_value p :
  startswith "-"%char p = false -> argparse.is_value p = true.
Proof.
  intros H. unfold argparse.is_value.
  rewrite (not_the_separator p H), (plain_argument_is_positional p H). reflexivity.
Qed.

(** X15. The usual command lines are read as written: a path that does not
    start with a dash is taken as it is after [--apk] or [-a], the flags
    are off unless given, and there is no tool table unless [--tools] gives
    one. *)
Theorem handle_args_reads_the_usual_forms p :
  startswith "-"%char p = false ->
  handle_args ["--apk"; p]
  = inr {| args_apk := p; args_verbose := false; args_keep_files := false;
           args_tools := None |}
  /\ handle_args ["-a"; p; "-v"; "-k"]
     = inr {| args_apk := p; args_verbose := true; args_keep_files := true;
              args_tools := None |}
  /\ handle_args ["--verbose"; "--keep-files"; "--apk"; p]
     = inr {| args_apk := p; args_verbose := true; args_keep_files := true;
              args_tools := None |}
  /\ (forall j, startswith "-"%char j = false ->
      handle_args ["--apk"; p; "--tools"; j]
      = inr {| args_apk := p; args_verbose := false; args_keep_files := false;
               args_tools := Some j |}).
Proof.
  intros H.
  pose proof (not_the_separator p H) as Hs.
  pose proof (plain_argument_is_positional p H) as Hp.
  pose proof (plain_argument_is_value p H) as Hv.
  unfold handle_args, argparse.parse_args.
  repeat split.
  4: intros j Hj; pose proof (not_the_separator j Hj) as Hsj;
     pose proof (plain_argument_is_positional j Hj) as Hpj;
     pose proof (plain_argument_is_value j Hj) as Hvj.
  all: repeat (progress (simpl; rewrite ?Hs, ?Hp, ?Hv)).
  all: try reflexivity.
  repeat (progress (simpl; rewrite ?Hsj, ?Hpj, ?Hvj)). reflexivity.
Qed.

End Arguments_facts.

Section Tools_argument.
Context {world : Type} {O : OS world}.

(** X16. [parse_tool_paths] never raises and leaves the world as it is.
    Without a text, or with an empty one, it returns [None] without looking
    at anything.  A text that names a regular file is loaded as a file and
    never read as JSON itself, also when the file cannot be loaded; any
    other text is read as JSON.  What cannot be loaded or read gives [None]
    and one line on the console. *)
Theorem parse_tool_paths_swallows_errors tools_json (w : world) :
  match tools_json with
  | None | Some EmptyString => parse_tool_paths tools_json w = (Return None, w, [])
  | Some text =>
      if path_isfile text w then
        match sys_load_json text w with
        | inr d =>
            parse_tool_paths tools_json w = (Return (Some d), w, [Stat text; LoadJson text])
        | inl e =>
            parse_tool_paths tools_json w
            = (Return None, w,
               [Stat text; LoadJson text;
                Console [Txt "[!] Error loading tools config file: "; Str e]])
        end
      else
        match sys_loads_json text with
        | inr d => parse_tool_paths tools_json w = (Return (Some d), w, [Stat text])
        | inl e =>
            parse_tool_paths tools_json w
            = (Return None, w,
               [Stat text; Console [Txt "[!] Error parsing tools JSON: "; Str e]])
        end
  end.
Proof.
  destruct tools_json as [[|c text]|]; try reflexivity.
  unfold parse_tool_paths. open_calls. simpl.
  unfold path_isfile.
  destruct (sys_stat (String c text) w) as [e|st]; simpl.
  - destruct (sys_loads_json (String c text)); reflexivity.
  - destruct (st_kind st); simpl.
    + destruct (sys_load_json (String c text) w); reflexivity.
    + destruct (sys_loads_json (String c text)); reflexivity.
Qed.

End Tools_argument.

Section Failed_run.
Context {world : Type} {O : OS world}.

(** X17. A failed run is not cleaned up: when a stage raises, [cut] prints
    the error and returns [False], and the world is left as the failing
    stage left it, with whatever the earlier stages have produced. *)
Theorem failed_run_is_not_cleaned (s : Interceptra * world) e :
  path_isfile (apk (fst s)) (snd s) = true ->
  value (cut_stages s) = Raise e ->
  cut s
  = (Return false, final (cut_stages s),
     Stat (apk (fst s)) :: trace (cut_stages s)
       ++ [Console [Txt "[!] Error during APK modification: "; Str e]]).
Proof.
  intros Hfile Hvalue.
  destruct s as [self w]. cbn [fst snd] in *.
  unfold path_isfile in Hfile. unfold value, final, trace in *.
  unfold cut, cut_verify. open_calls. cbn [fst snd world_of pair_has_world].
  destruct (sys_stat (apk self) w) as [e'|st]; [discriminate|].
  destruct (st_kind st); [|discriminate]. cbn [negb].
  destruct (cut_stages (self, w)) as [[r s1] t1].
  cbn [fst snd] in Hvalue |- *. subst r. reflexivity.
Qed.

End Failed_run.

(** Case analysis on a call of [_run_command] inside a stage, and on the
    stage around it. *)
Ltac run_step :=
  match goal with
  | |- context [_run_command ?c ?d true ?s] =>
      let R := fresh "R" in
      pose proof (run_command_cases c d s) as R;
      unfold value, final, trace in R;
      destruct (_run_command c d true s) as [[? ?] ?];
      simpl in R; inversion R; subst; clear R
  end.

Ltac exec_started := simpl; repeat (first [run_step | next_case]; simpl).

Ltac stat_fact :=
  unfold present, path_exists;
  repeat match goal with
  | H : sys_stat _ _ = _ |- _ => rewrite H
  end;
  reflexivity.

Ltac close_started :=
  first
    [ apply stage_early; reflexivity
    | at_first_run;
      first [ eapply stage_done | eapply stage_missing | eapply stage_exit
            | eapply stage_launch ];
      first [ eassumption | reflexivity | discriminate
            | solve [trace_facts]
            | intros ? ? [= <- <-]; stat_fact
            | stat_fact ] ].

Section Started_on.
Context {world : Type} {O : OS world}.
Implicit Types s : Interceptra * world.

Lemma decompile_starts s r s' t :
  _decompile_apk s = (r, s', t) ->
  stage (unpack_command (fst s)) (present (apk (fst s))) None s r s' t.
Proof.
  destruct s as [self w]. unfold _decompile_apk. open_calls.
  exec_started; tidy; subst; intros [= <- <- <-]; close_started.
Qed.

Lemma jarsign_starts s r s' t :
  _jarsign_apk s = (r, s', t) ->
  stage (jarsign_command (fst s)) (present (patched_apk (fst s))) None s r s' t.
Proof.
  destruct s as [self w]. unfold _jarsign_apk. open_calls.
  exec_started; tidy; subst; intros [= <- <- <-]; close_started.
Qed.

Lemma apksign_starts s r s' t :
  _apksign_apk s = (r, s', t) ->
  stage (apksign_command (fst s)) (present (zipaligned_apk (fst s))) None s r s' t.
Proof.
  destruct s as [self w]. unfold _apksign_apk. open_calls.
  exec_started; tidy; subst; intros [= <- <- <-]; close_started.
Qed.

Lemma zipalign_starts s r s' t :
  _zipalign_apk s = (r, s', t) ->
  stage (zipalign_command (fst s)) (present (patched_apk (fst s)))
    (Some (zipaligned_apk (fst s), aligned_missing (fst s))) s r s' t.
Proof.
  destruct s as [self w]. unfold _zipalign_apk. open_calls.
  exec_started; tidy; subst; intros [= <- <- <-]; close_started.
Qed.

End Started_on.

Ltac started_step :=
  first
    [ use_stage (@_decompile_apk) (@decompile_starts)
    | use_stage (@_jarsign_apk) (@jarsign_starts)
    | use_stage (@_apksign_apk) (@apksign_starts)
    | use_stage (@_zipalign_apk) (@zipalign_starts) ].

Section Inputs_exist.
Context {world : Type} {O : OS world}.

(** X18. A tool that reads an archive is only started in a world in which
    that archive exists, its size having just been read: the unpack tool on
    the bundle, jarsigner and zipalign on the intermediate archive, apksigner
    on the aligned archive. *)
Theorem tools_start_on_existing_inputs (s : Interceptra * world) c w1 r w2 :
  In (Run c w1 r w2) (trace (cut s)) ->
  (c = unpack_command (fst s) -> path_exists (apk (fst s)) w1 = true)
  /\ (c = jarsign_command (fst s) -> path_exists (patched_apk (fst s)) w1 = true)
  /\ (c = zipalign_command (fst s) -> path_exists (patched_apk (fst s)) w1 = true)
  /\ (c = apksign_command (fst s) -> path_exists (zipaligned_apk (fst s)) w1 = true).
Proof.
  destruct s as [self w]. run_with started_step.
  all: intros Hin; in_cases Hin.
  all: unfold present in *.
  all: repeat split; intros Hc.
  all: first
         [ assumption
         | exfalso;
           unfold unpack_command, repack_command, jarsign_command, apksign_command,
             zipalign_command in Hc;
           discriminate Hc ].
Qed.

End Inputs_exist.

Section Verbosity_rules.
Context {world : Type} {O : OS world}.

Lemma mute_app (t u : list (event world)) : mute (t ++ u) = mute t ++ mute u.
Proof. apply List.filter_app. Qed.

Lemma related_ret {A} (x : A) : related (world := world) (ret x) (ret x).
Proof. intros a b w H. repeat split; auto. Qed.

Lemma related_raise {A} e : related (@raise world _ A e) (raise e).
Proof. intros a b w H. repeat split; auto. Qed.

Lemma related_print l l' : related (world := world) (print l) (print l').
Proof. intros a b w H. repeat split; auto. Qed.

Lemma related_print_left l : related (world := world) (print l) (ret tt).
Proof. intros a b w H. repeat split; auto. Qed.

Lemma related_print_right l : related (world := world) (ret tt) (print l).
Proof. intros a b w H. repeat split; auto. Qed.

Lemma related_bind {A B} (m m' : @method world A) (k k' : A -> @method world B) :
  related m m' -> (forall x, related (k x) (k' x)) -> related (bind m k) (bind m' k').
Proof.
  intros Hm Hk a b w Hab. destruct (Hm a b w Hab) as (Hv & Ho & Hw & Ht).
  unfold bind, same_effect, value, final, trace in *.
  destruct (m (a, w)) as [[[x|e] [a1 w1]] t1], (m' (b, w)) as [[[x'|e'] [b1 w1']] t1'];
    simpl in *; try discriminate.
  - injection Hv as <-. subst w1'.
    destruct (Hk x a1 b1 w1 Ho) as (Hv2 & Ho2 & Hw2 & Ht2).
    unfold value, final, trace in *.
    destruct (k x (a1, w1)) as [[r2 s2] t2], (k' x (b1, w1)) as [[r2' s2'] t2'].
    simpl in *. rewrite !mute_app, Ht, Ht2. repeat split; auto.
  - injection Hv as <-. repeat split; auto.
Qed.

Lemma related_this {B} (k k' : Interceptra -> @method world B) :
  (forall a b, alike a b -> related (k a) (k' b)) ->
  related (bind this k) (bind this k').
Proof.
  intros Hk a b w Hab. specialize (Hk a b Hab a b w Hab).
  unfold bind, this, same_effect, value, final, trace in *. simpl in *.
  destruct (k a (a, w)) as [[r s2] t2], (k' b (b, w)) as [[r' s2'] t2'].
  exact Hk.
Qed.

Lemma related_try {A} (m m' : @method world A) (h h' : exn -> @method world A) :
  related m m' -> (forall e, related (h e) (h' e)) ->
  related (try_except m h) (try_except m' h').
Proof.
  intros Hm Hh a b w Hab. destruct (Hm a b w Hab) as (Hv & Ho & Hw & Ht).
  unfold try_except, same_effect, value, final, trace in *.
  destruct (m (a, w)) as [[[x|e] [a1 w1]] t1], (m' (b, w)) as [[[x'|e'] [b1 w1']] t1'];
    simpl in *; try discriminate.
  - repeat split; auto.
  - injection Hv as <-. subst w1'.
    destruct (Hh e a1 b1 w1 Ho) as (Hv2 & Ho2 & Hw2 & Ht2).
    unfold value, final, trace in *.
    destruct (h e (a1, w1)) as [[r2 s2] t2], (h' e (b1, w1)) as [[r2' s2'] t2'].
    simpl in *. rewrite !mute_app, Ht, Ht2. repeat split; auto.
Qed.

Lemma related_exists p : related (world := world) (os_path_exists p) (os_path_exists p).
Proof. intros a b w H. repeat split; auto. Qed.

Lemma related_isfile p : related (world := world) (os_path_isfile p) (os_path_isfile p).
Proof. intros a b w H. repeat split; auto. Qed.

Lemma related_getsize p : related (world := world) (os_path_getsize p) (os_path_getsize p).
Proof. intros a b w H. repeat split; auto. Qed.

Lemma related_parse p : related (world := world) (ElementTree_parse p) (ElementTree_parse p).
Proof. intros a b w H. repeat split; auto. Qed.

Lemma related_rmtree p : related (world := world) (shutil_rmtree p) (shutil_rmtree p).
Proof.
  intros a b w H. unfold shutil_rmtree, same_effect, value, final, trace. simpl.
  destruct (sys_rmtree p w). simpl. auto.
Qed.

Lemma related_remove p : related (world := world) (os_remove p) (os_remove p).
Proof.
  intros a b w H. unfold os_remove, same_effect, value, final, trace. simpl.
  destruct (sys_remove p w). simpl. auto.
Qed.

Lemma related_makedirs p : related (world := world) (os_makedirs p) (os_makedirs p).
Proof.
  intros a b w H. unfold os_makedirs, same_effect, value, final, trace. simpl.
  destruct (sys_makedirs p w). simpl. auto.
Qed.

Lemma related_write p c : related (world := world) (write_file p c) (write_file p c).
Proof.
  intros a b w H. unfold write_file, same_effect, value, final, trace. simpl.
  destruct (sys_write p c w). simpl. auto.
Qed.

Lemma related_popen c : related (world := world) (subprocess_Popen c) (subprocess_Popen c).
Proof.
  intros a b w H. unfold subprocess_Popen, same_effect, value, final, trace. simpl.
  destruct (sys_run c w). simpl. auto.
Qed.

Lemma related_set_compile_sdk v :
  related (world := world) (set_compile_sdk v) (set_compile_sdk v).
Proof.
  intros a b w H. unfold set_compile_sdk, same_effect, value, final, trace. simpl.
  repeat split. unfold alike, silenced in *. unfold assign_compile_sdk. simpl.
  injection H as -> -> -> -> -> -> -> -> -> -> -> -> -> -> -> _. reflexivity.
Qed.

Lemma alike_fields a b :
  alike a b ->
  tool_paths b = tool_paths a /\ KEYSTORE b = KEYSTORE a /\ KEYPASS b = KEYPASS a
  /\ STOREPASS b = STOREPASS a /\ SIGALG b = SIGALG a /\ DIGESTALG b = DIGESTALG a
  /\ ALIAS b = ALIAS a /\ APKTOOL_JAR b = APKTOOL_JAR a /\ keep_files b = keep_files a
  /\ apk b = apk a /\ file_name b = file_name a /\ output_dir b = output_dir a
  /\ patched_apk b = patched_apk a /\ zipaligned_apk b = zipaligned_apk a
  /\ extraction_dir b = extraction_dir a /\ compile_sdk b = compile_sdk a.
Proof.
  unfold alike, silenced. intros H.
  injection H as -> -> -> -> -> -> -> -> -> -> -> -> -> -> -> ->.
  repeat split.
Qed.

End Verbosity_rules.

(** Reduce the relation of two copies of a program to that of their calls. *)
Ltac relate_step :=
  first
    [ apply related_this;
      let a := fresh "a" in
      let b := fresh "b" in
      let H := fresh "H" in
      intros a b H;
      let E := fresh "E" in
      pose proof (alike_fields a b H) as E;
      repeat match type of E with
             | _ /\ _ => let E1 := fresh "E" in destruct E as [E1 E]; rewrite ?E1
             | _ = _ => rewrite ?E
             end
    | apply related_bind; [|intros ?]
    | apply related_try; [|intros ?]
    | apply related_ret
    | apply related_raise
    | apply related_print
    | apply related_print_left
    | apply related_print_right
    | apply related_exists
    | apply related_isfile
    | apply related_getsize
    | apply related_parse
    | apply related_rmtree
    | apply related_remove
    | apply related_makedirs
    | apply related_write
    | apply related_popen
    | apply related_set_compile_sdk
    | match goal with
      | |- related (when (verbose ?a) _) (when (verbose ?b) _) =>
          unfold when; destruct (verbose a), (verbose b)
      | |- related (if verbose ?a then _ else _) (if verbose ?b then _ else _) =>
          destruct (verbose a), (verbose b)
      | |- related (when ?c _) (when ?c _) => unfold when; destruct c
      | |- related (if ?c then _ else _) (if ?c then _ else _) => destruct c
      | |- related (match ?x with _ => _ end) (match ?x with _ => _ end) => destruct x
      end ].

Ltac relate := repeat relate_step.

Section Verbosity.
Context {world : Type} {O : OS world}.

(** X19. Verbosity is cosmetic: two runs of the pipeline from the same
    world, on objects that differ at most in their verbosity, return the
    same value, leave the same world, and make the same calls in the same
    order, the lines on the console apart. *)
Theorem verbosity_is_cosmetic a b (w : world) :
  alike a b -> same_effect (cut (a, w)) (cut (b, w)).
Proof.
  revert a b w. change (related (world := world) cut cut).
  unfold cut, cut_stages, cut_verify, _decompile_apk, _add_network_file,
    _add_network_attribute_to_manifest, _check_compile_sdk_version, _repackage_apk,
    _zipalign_apk, _apksign_apk, _jarsign_apk, _cleanup_files, _run_command,
    unpack_command, repack_command, jarsign_command, apksign_command,
    zipalign_command.
  relate.
Qed.

End Verbosity.

(** * Runs on the in-memory operating system *)

(** ** The in-memory operating system keeps the laws of removal *)

#[global] Instance sim_laws : OSLaws Sim.os.
Proof.
  split.
  - intros p w w'. simpl. unfold Sim.rmtree, path_exists. simpl. unfold Sim.stat.
    destruct (Sim.fs w !! p) as [[size d|]|] eqn:E; try discriminate.
    destruct (Sim.refused p w); [discriminate|].
    intros [= <-]. simpl.
    rewrite map_lookup_filter_None_2; [reflexivity|].
    right. intros x _. simpl. unfold inside. rewrite String.eqb_refl. discriminate.
  - intros p w w'. simpl. unfold Sim.remove, path_exists. simpl. unfold Sim.stat.
    destruct (Sim.fs w !! p) as [[size d|]|] eqn:E; try discriminate.
    destruct (Sim.refused p w); [discriminate|].
    intros [= <-]. simpl. rewrite lookup_delete_eq. reflexivity.
  - intros p q w Hq. simpl. unfold Sim.rmtree, Sim.stat.
    destruct (Sim.fs w !! p) as [[size d|]|] eqn:E; try reflexivity.
    destruct (Sim.refused p w); [reflexivity|]. simpl.
    destruct (Sim.fs w !! q) as [x|] eqn:Eq.
    + rewrite (map_lookup_filter_Some_2 _ _ q x Eq Hq). reflexivity.
    + rewrite map_lookup_filter_None_2; [reflexivity|]. left. exact Eq.
  - intros p q w Hq. simpl. unfold Sim.remove, Sim.stat.
    destruct (Sim.fs w !! p) as [[size d|]|] eqn:E; try reflexivity.
    destruct (Sim.refused p w); [reflexivity|]. simpl.
    rewrite lookup_delete_ne by exact Hq. reflexivity.
Qed.

Section Run_facts.
Context {world : Type}.

Lemma runs_in c (w1 w2 : world) r t :
  In (c, w1, r, w2) (runs t) -> In (Run c w1 r w2) t.
Proof.
  induction t as [|e t IH]; simpl; [tauto|].
  destruct e; simpl; try (intros H; right; exact (IH H)).
  intros [[= -> -> -> ->]|H]; [left; reflexivity|right; exact (IH H)].
Qed.

End Run_facts.

Import Runs.

Lemma signing_strategy_branches_at_30_witness :
  commands (trace (cut (start legacy)))
  = [["java"; "-jar"; "apktool_2.11.0.jar"; "-f"; "d"; "/work/app.apk";
      "-o"; "/work/app"];
     ["java"; "-jar"; "apktool_2.11.0.jar"; "-f"; "b"; "/work/app";
      "-o"; "/work/app_patched.apk"; "--use-aapt2"];
     ["jarsigner"; "-verbose"; "-keystore"; "debug.keystore"; "-keypass"; "android";
      "-storepass"; "android"; "-sigalg"; "SHA1withRSA"; "-digestalg"; "SHA1";
      "/work/app_patched.apk"; "androiddebugkey"];
     ["zipalign"; "-p"; "-f"; "4"; "/work/app_patched.apk";
      "/work/app_patched_zipaligned.apk"]]
  /\ delivered (trace (cut (start legacy))) = Some "/work/app_patched_zipaligned.apk"
  /\ commands (trace (cut (start modern)))
     = [["java"; "-jar"; "apktool_2.11.0.jar"; "-f"; "d"; "/work/app.apk";
         "-o"; "/work/app"];
        ["java"; "-jar"; "apktool_2.11.0.jar"; "-f"; "b"; "/work/app";
         "-o"; "/work/app_patched.apk"; "--use-aapt2"];
        ["zipalign"; "-p"; "-f"; "4"; "/work/app_patched.apk";
         "/work/app_patched_zipaligned.apk"];
        ["apksigner"; "sign"; "--ks"; "debug.keystore";
         "--ks-key-alias"; "androiddebugkey"; "--ks-pass"; "pass:android";
         "/work/app_patched_zipaligned.apk"]].
Proof.
  assert (H29 : compile_sdk (fst (final (cut (start legacy)))) = Some 29)
    by (vm_compute; reflexivity).
  assert (H30 : compile_sdk (fst (final (cut (start modern)))) = Some 30)
    by (vm_compute; reflexivity).
  destruct (signing_strategy_branches_at_30 (start legacy) 29 H29) as (_ & _ & L).
  destruct (signing_strategy_branches_at_30 (start modern) 30 H30) as (_ & _ & M).
  destruct L as (_ & L1 & L2); [vm_compute; reflexivity|].
  destruct M as (M1 & _ & _); [vm_compute; reflexivity|].
  split; [rewrite L1 by lia; vm_compute; reflexivity|].
  split; [rewrite L2; vm_compute; reflexivity|].
  rewrite M1 by lia. vm_compute. reflexivity.
Defined.

Lemma failed_command_aborts_witness :
  exists rest,
    after_failure (trace (cut (start (breaking ["align"] modern)))) = Some rest
    /\ value (cut (start (breaking ["align"] modern))) = Return false
    /\ quiet rest = true
    /\ NoDup (commands (trace (cut (start (breaking ["align"] modern))))).
Proof.
  destruct (after_failure (trace (cut (start (breaking ["align"] modern)))))
    as [rest|] eqn:E; [|vm_compute in E; discriminate E].
  exists rest. split; [reflexivity|].
  exact (failed_command_aborts (start (breaking ["align"] modern)) rest E).
Defined.

Lemma cut_returns_a_boolean_witness :
  value (cut (start legacy)) = Return true
  /\ after_failure (trace (cut (start legacy))) = None
  /\ value (cut (start (breaking ["unpack"] legacy))) = Return false.
Proof.
  destruct (cut_returns_a_boolean (start legacy)) as (_ & _ & H).
  destruct H as [H1 _]; [vm_compute; reflexivity|].
  destruct (cut_returns_a_boolean (start (breaking ["unpack"] legacy))) as (_ & K & _).
  split; [vm_compute; reflexivity|]. split; [exact H1|].
  vm_compute. reflexivity.
Defined.

Lemma missing_output_fails_the_run_witness :
  value (cut (start (silencing ["repack"] legacy))) = Return false
  /\ commands (trace (cut (start (silencing ["repack"] legacy))))
     = [unpack_command (object legacy); repack_command (object legacy)]
  /\ value (cut (start (silencing ["align"] modern))) = Return false.
Proof.
  pose (s := start (silencing ["repack"] legacy)).
  pose (z := start (silencing ["align"] modern)).
  assert (Hs : exists w1 p w2,
             In (Run (repack_command (fst s)) w1 (inr p) w2) (trace (cut s))
             /\ returncode p = 0 /\ path_exists (patched_apk (fst s)) w2 = false).
  { destruct (nth_run 1 s) as [[[c w1] [e|p]] w2] eqn:E;
      [apply (f_equal (fun x => snd (fst x))) in E; vm_compute in E; discriminate E|].
    exists w1, p, w2. split; [|split].
    - apply runs_in.
      replace (repack_command (fst s)) with c
        by (apply (f_equal (fun x => fst (fst (fst x)))) in E; simpl in E;
            rewrite <- E; vm_compute; reflexivity).
      rewrite <- E. apply nth_In. vm_compute. lia.
    - apply (f_equal (fun x => snd (fst x))) in E. simpl in E.
      vm_compute in E. injection E as <-. reflexivity.
    - apply (f_equal snd) in E. simpl in E. rewrite <- E. vm_compute. reflexivity. }
  assert (Hz : exists w1 p w2,
             In (Run (zipalign_command (fst z)) w1 (inr p) w2) (trace (cut z))
             /\ returncode p = 0 /\ path_exists (zipaligned_apk (fst z)) w2 = false).
  { destruct (nth_run 2 z) as [[[c w1] [e|p]] w2] eqn:E;
      [apply (f_equal (fun x => snd (fst x))) in E; vm_compute in E; discriminate E|].
    exists w1, p, w2. split; [|split].
    - apply runs_in.
      replace (zipalign_command (fst z)) with c
        by (apply (f_equal (fun x => fst (fst (fst x)))) in E; simpl in E;
            rewrite <- E; vm_compute; reflexivity).
      rewrite <- E. apply nth_In. vm_compute. lia.
    - apply (f_equal (fun x => snd (fst x))) in E. simpl in E.
      vm_compute in E. injection E as <-. reflexivity.
    - apply (f_equal snd) in E. simpl in E. rewrite <- E. vm_compute. reflexivity. }
  destruct Hs as (w1 & p & w2 & Hin & Hp & Hout).
  destruct Hz as (w1' & p' & w2' & Hin' & Hp' & Hout').
  destruct (proj1 (missing_output_fails_the_run s w1 p w2) Hin Hp Hout) as (A & B & _).
  destruct (proj2 (missing_output_fails_the_run z w1' p' w2') Hin' Hp' Hout') as (C & _).
  split; [exact A|]. split; [exact B|exact C].
Defined.

Lemma stale_extraction_tree_is_removed_witness :
  path_exists "/work/app" (stale legacy) = true
  /\ In (Rmtree "/work/app" None) (trace (cut (start (stale legacy))))
  /\ path_exists "/work/app" (snd (fst (fst (nth_run 0 (start (stale legacy)))))) = false.
Proof.
  set (s := start (stale legacy)).
  destruct (nth_run 0 s) as [[[c w1] r] w2] eqn:E.
  assert (Hin : In (Run (unpack_command (fst s)) w1 r w2) (trace (cut s))).
  { apply runs_in.
    replace (unpack_command (fst s)) with c
      by (apply (f_equal (fun x => fst (fst (fst x)))) in E; simpl in E;
          rewrite <- E; vm_compute; reflexivity).
    rewrite <- E. apply nth_In. vm_compute. lia. }
  destruct (stale_extraction_tree_is_removed s w1 r w2 Hin) as [A B].
  split; [vm_compute; reflexivity|]. split.
  - apply B. vm_compute. reflexivity.
  - exact A.
Defined.

Lemma working_paths_are_fixed_witness :
  working_paths (object legacy)
  = ("/work/app", "/work/app_patched.apk", "/work/app_patched_zipaligned.apk")
  /\ working_paths (fst (final (cut (start legacy)))) = working_paths (object legacy).
Proof.
  assert (E : value (__init__ "app.apk" false None false legacy) = Return (object legacy))
    by (vm_compute; reflexivity).
  destruct (working_paths_are_fixed _ _ _ _ _ _ E) as (_ & _ & _ & _ & _ & _ & H).
  split; [vm_compute; reflexivity|apply H].
Defined.

Lemma cleanup_is_advisory_witness :
  value (cut (start (protecting ["/work/app_patched.apk"] legacy))) = Return true
  /\ path_exists "/work/app_patched.apk"
       (snd (final (cut (start (protecting ["/work/app_patched.apk"] legacy))))) = true
  /\ path_exists "/work/app"
       (snd (final (cut (start (protecting ["/work/app_patched.apk"] legacy))))) = false.
Proof.
  set (s := start (protecting ["/work/app_patched.apk"] legacy)).
  assert (E : value (cut_stages s) = Return "/work/app_patched_zipaligned.apk")
    by (vm_compute; reflexivity).
  assert (Hc : constructed (fst s)) by (vm_compute; repeat split; reflexivity).
  assert (Hb : path.basename (apk (fst s)) <> EmptyString) by (vm_compute; discriminate).
  assert (Hk : keep_files (fst s) = false) by (vm_compute; reflexivity).
  assert (Hf : path_isfile (apk (fst s)) (snd s) = true) by (vm_compute; reflexivity).
  assert (Hx : path_exists "/work/app_patched_zipaligned.apk"
                 (snd (final (cut_stages s))) = true) by (vm_compute; reflexivity).
  destruct (cleanup_is_advisory s _ Hc Hb Hk Hf E Hx) as (w2 & t2 & _ & Hv & _).
  split; [exact Hv|]. split; vm_compute; reflexivity.
Defined.

Lemma detect_version_defaults_to_30_witness :
  (exists t,
     _check_compile_sdk_version (object legacy, unpacked (Sim.sdk "29"))
     = (Return tt,
        (assign_compile_sdk 29 (object legacy), unpacked (Sim.sdk "29")), t))
  /\ (exists t,
        _check_compile_sdk_version (object legacy, unpacked (Sim.sdk "abc"))
        = (Return tt,
           (assign_compile_sdk 30 (object legacy), unpacked (Sim.sdk "abc")), t))
  /\ (exists t,
        _check_compile_sdk_version (object legacy, unpacked [])
        = (Return tt, (assign_compile_sdk 30 (object legacy), unpacked []), t))
  /\ (exists t,
        _check_compile_sdk_version (object legacy, legacy)
        = (Return tt, (assign_compile_sdk 30 (object legacy), legacy), t)).
Proof.
  destruct (detect_version_defaults_to_30 (object legacy, unpacked (Sim.sdk "29")))
    as (_ & A & _).
  destruct (detect_version_defaults_to_30 (object legacy, unpacked (Sim.sdk "abc")))
    as (_ & _ & _ & B & _).
  destruct (detect_version_defaults_to_30 (object legacy, unpacked []))
    as (_ & _ & C & _).
  destruct (detect_version_defaults_to_30 (object legacy, legacy))
    as (_ & _ & _ & _ & D).
  split; [|split; [|split]].
  - apply (A (Sim.manifest (Sim.sdk "29")) "29" 29); vm_compute; reflexivity.
  - apply (B (Sim.manifest (Sim.sdk "abc")) "abc"); vm_compute; reflexivity.
  - apply (C (Sim.manifest [])); vm_compute; reflexivity.
  - apply (D (FileNotFoundError "/work/app/AndroidManifest.xml")); vm_compute; reflexivity.
Defined.

(** C5, as the specification states it, fails: the constructor builds the
    object for a path at which there is no file. *)
Lemma construction_accepts_a_missing_input :
  path_isfile "/work/none.apk" legacy = false
  /\ exists self,
       value (__init__ "/work/none.apk" false None false legacy) = Return self
       /\ apk self = "/work/none.apk".
Proof.
  split; [vm_compute; reflexivity|].
  eexists. split; vm_compute; reflexivity.
Defined.

Lemma missing_input_is_rejected_on_entry_witness :
  (exists self, value (__init__ "/work/none.apk" false None false legacy) = Return self)
  /\ value (cut (object legacy, Sim.with_fs ∅ legacy)) = Return false
  /\ value (main ["--apk"; "/work/none.apk"] legacy) = Return (Returned 1).
Proof.
  destruct (missing_input_is_rejected_on_entry "/work/none.apk" false None false
              (object legacy, Sim.with_fs ∅ legacy)
              ["--apk"; "/work/none.apk"] none_args legacy) as (I & A & B).
  split; [|split].
  - apply I; [left; vm_compute; reflexivity|].
    intros p w1 e w2 H. vm_compute in H. discriminate H.
  - unfold value. rewrite A; [reflexivity|vm_compute; reflexivity].
  - unfold value. rewrite B; [reflexivity|vm_compute; reflexivity..].
Defined.



(** * Further runs on the in-memory operating system *)

Import Cases.

Lemma failed_command_is_reported_twice_witness :
  value (_run_command (zipalign_command (object (breaking ["align"] modern))) []
           true (start (breaking ["align"] modern)))
  = Raise (CommandError 1 EmptyString "failed").
Proof.
  destruct (failed_command_is_reported_twice
              (zipalign_command (object (breaking ["align"] modern))) []
              (start (breaking ["align"] modern))
              {| returncode := 1; stdout := EmptyString; stderr := "failed" |}
              (breaking ["align"] modern)) as (pre & _ & H);
    [vm_compute; reflexivity|vm_compute; discriminate|].
  unfold value. rewrite H. reflexivity.
Defined.

Lemma retention_leaves_the_world_witness :
  value (cut (retaining legacy, legacy)) = Return true
  /\ snd (final (cut (retaining legacy, legacy)))
     = snd (final (cut_stages (retaining legacy, legacy))).
Proof.
  destruct (retention_leaves_the_world (retaining legacy, legacy)
              "/work/app_patched_zipaligned.apk") as (t & _ & _ & Hw & Hv);
    [vm_compute; reflexivity..|].
  split; [rewrite Hv; vm_compute; reflexivity|exact Hw].
Defined.

Lemma legacy_branch_delivers_witness :
  path_exists "/work/app_patched_zipaligned.apk"
    (snd (final (cut_stages (start legacy)))) = true.
Proof.
  apply (legacy_branch_delivers (start legacy) _ 29);
    [vm_compute; reflexivity|vm_compute; reflexivity|lia].
Defined.

Lemma manifest_gets_the_attribute_witness :
  exists before after patched,
    children_of (Sim.manifest (Sim.sdk "29"))
    = before ++ Element "application" ∅ [] :: after
    /\ attrib_of patched !! (android_ns +:+ "networkSecurityConfig")
       = Some "@xml/network_security_config".
Proof.
  destruct (manifest_gets_the_attribute
              (object legacy, unpacked (Sim.sdk "29"))
              (Sim.manifest (Sim.sdk "29")) (Element "application" ∅ []))
    as (before & after & patched & post & A & _ & _ & _ & _ & _ & B & _);
    [vm_compute; reflexivity..|].
  exists before, after, patched. split; [exact A|exact B].
Defined.

Lemma tool_table_after_construction_witness :
  dict_get "java" (tool_paths (custom legacy)) = Some "/opt/jdk/bin/java"
  /\ dict_get "zipalign" (tool_paths (custom legacy)) = Some "zipalign".
Proof.
  destruct (tool_table_after_construction "app.apk" false (Some custom_tools) false
              legacy (custom legacy)) as (A & B & _);
    [vm_compute; reflexivity|].
  split; [apply A; vm_compute; reflexivity|].
  rewrite B; vm_compute; reflexivity.
Defined.

Lemma construction_fails_only_on_witness :
  (path.isabs (sys_expanduser (OS := lost) "app.apk" legacy) = false
   /\ sys_getcwd (OS := lost) legacy
      = inl (FileNotFoundError "[Errno 2] No such file or directory"))
  \/ (is_missing_tool_error (FileNotFoundError "[Errno 2] No such file or directory")
      = false
      /\ exists p w1 w2,
           sys_run (OS := lost) ["which"; p] w1
           = (inl (FileNotFoundError "[Errno 2] No such file or directory"), w2)
           /\ In (Run ["which"; p] w1
                   (inl (FileNotFoundError "[Errno 2] No such file or directory")) w2)
                (trace (__init__ (O := lost) "app.apk" false None false legacy))).
Proof.
  apply (construction_fails_only_on (O := lost)). vm_compute. reflexivity.
Defined.

Lemma repack_follows_the_patch_witness :
  In (WriteFile (network_file_path (object legacy)) (Text network_file) None)
    (default [] (before_command (repack_command (object legacy))
                   (trace (cut (start legacy))))).
Proof.
  destruct (repack_follows_the_patch (start legacy)
              (default [] (before_command (repack_command (object legacy))
                             (trace (cut (start legacy))))))
    as (_ & A & _); [vm_compute; reflexivity|exact A].
Defined.

Lemma outputs_differ_from_the_input_witness :
  patched_apk (object legacy) <> apk (object legacy)
  /\ zipaligned_apk (object legacy) <> apk (object legacy).
Proof.
  apply outputs_differ_from_the_input. vm_compute. repeat split; reflexivity.
Defined.

Lemma bundle_without_extension_is_removed_witness :
  extraction_dir bare_object = "/work/app"
  /\ value (cut (bare_object, bare)) = Return false
  /\ commands (trace (cut (bare_object, bare))) = [].
Proof.
  destruct (bundle_without_extension_is_removed (bare_object, bare) "/work" "app")
    as [A B];
    [vm_compute; repeat split; reflexivity|vm_compute; reflexivity
    |right; right; reflexivity|reflexivity|reflexivity|].
  destruct B as [_ C]; [vm_compute; reflexivity|].
  destruct (C (OSError "Not a directory")) as [D E]; [vm_compute; reflexivity|].
  split; [vm_compute; reflexivity|]. split; assumption.
Defined.

Lemma handle_args_reads_the_usual_forms_witness :
  handle_args ["--apk"; "app.apk"]
  = inr {| args_apk := "app.apk"; args_verbose := false; args_keep_files := false;
           args_tools := None |}.
Proof. exact (proj1 (handle_args_reads_the_usual_forms "app.apk" eq_refl)). Defined.

Lemma failed_run_is_not_cleaned_witness :
  value (cut (start (breaking ["repack"] legacy))) = Return false
  /\ path_exists "/work/app" (snd (final (cut (start (breaking ["repack"] legacy)))))
     = true.
Proof.
  rewrite (failed_run_is_not_cleaned (start (breaking ["repack"] legacy))
             (CommandError 1 EmptyString "failed"));
    [|vm_compute; reflexivity..].
  split; [reflexivity|vm_compute; reflexivity].
Defined.

Lemma tools_start_on_existing_inputs_witness :
  path_exists "/work/app_patched.apk" (snd (fst (fst (nth_run 2 (start legacy)))))
  = true.
Proof.
  set (s := start legacy).
  destruct (nth_run 2 s) as [[[c w1] r] w2] eqn:E.
  assert (Hc : c = jarsign_command (fst s)).
  { apply (f_equal (fun x => fst (fst (fst x)))) in E. simpl in E.
    rewrite <- E. vm_compute. reflexivity. }
  assert (Hin : In (Run c w1 r w2) (trace (cut s))).
  { apply runs_in. rewrite <- E. apply nth_In. vm_compute. lia. }
  destruct (tools_start_on_existing_inputs s c w1 r w2 Hin) as (_ & A & _).
  exact (A Hc).
Defined.

Lemma verbosity_is_cosmetic_witness :
  same_effect (cut (object legacy, legacy)) (cut (loud legacy, legacy)).
Proof. apply verbosity_is_cosmetic. vm_compute. reflexivity. Defined.
